(** * GhostSignal agent: commit-reveal lifecycle

    A shallow embedding of the Python agent
    ([agent/src/commit_reveal.py], [agent/src/midnight_client.py],
    [agent/src/ghost_agent.py]) and the properties of its commitment
    scheme and of its commitment-tracking state machine.

    Conventions of the embedding.
    - A Python [str] is a Rocq [string]; every character stands for the
      code point of the same number (0..255).
    - A Python [int] is a [Z].
    - [time.time()] readings are [Z] ticks of one fixed clock unit, and
      [reveal_delay] is counted in the same unit; the proofs use of the
      clock only comparisons and that adding the delay keeps the order.
    - A finite [float] inside a signal carries its exact value (a [Q])
      and the text [float.__repr__] prints for it. A [float] that the
      agent computes is a binary64 number of [SpecFloat], and [/] and [*]
      round to nearest, ties to even, as the hardware does.
    - What the outside world decides (the strategy's signal, the bytes of
      [os.urandom], the clock, the HTTP transport) is an explicit input of
      the operation that consumes it. *)

From Stdlib Require Import ZArith List Bool Ascii String Lia QArith.
From Stdlib Require Import Permutation Sorted DecimalString DecimalNat.
From Stdlib Require Import OrderedTypeEx.
From Stdlib Require SpecFloat.
Import ListNotations.

Local Open Scope string_scope.
Local Open Scope list_scope.
Local Open Scope Z_scope.

(** ** Text helpers *)

Module Text.

(** One lowercase hexadecimal digit, as [format(n, 'x')] prints it. *)
Definition hex_digit (n : Z) : ascii :=
  match n with
  | 0 => "0" | 1 => "1" | 2 => "2" | 3 => "3" | 4 => "4" | 5 => "5"
  | 6 => "6" | 7 => "7" | 8 => "8" | 9 => "9" | 10 => "a" | 11 => "b"
  | 12 => "c" | 13 => "d" | 14 => "e" | _ => "f"
  end%char.

(** [width] hexadecimal digits of [n], most significant first. *)
Fixpoint hex_fixed (width : nat) (n : Z) : string :=
  match width with
  | O => EmptyString
  | S w => String (hex_digit ((n / 16 ^ Z.of_nat w) mod 16)) (hex_fixed w n)
  end.

(** [str(n)] for a Python [int]. *)
Definition str_of_int (n : Z) : string :=
  NilZero.string_of_int (Z.to_int n).

Definition code (c : ascii) : Z := Z.of_N (N_of_ascii c).

(** [s.encode("utf-8")] on code points below 256: one byte below 128,
    two bytes from 128 on. *)
Fixpoint utf8 (s : string) : list Z :=
  match s with
  | EmptyString => []
  | String c rest =>
      let n := code c in
      if n <? 128 then n :: utf8 rest
      else (192 + n / 64) :: (128 + n mod 64) :: utf8 rest
  end.

(** [sep.join(parts)]. *)
Fixpoint join (sep : string) (parts : list string) : string :=
  match parts with
  | [] => EmptyString
  | [p] => p
  | p :: rest => (p ++ sep ++ join sep rest)%string
  end.

End Text.

(** ** SHA-256 (FIPS 180-4), the function behind [hashlib.sha256] *)

Module Sha256.

Definition mask32 : Z := 0xffffffff.
Definition trunc32 (x : Z) : Z := Z.land x mask32.
Definition add32 (x y : Z) : Z := trunc32 (x + y).

Definition rotr (n x : Z) : Z :=
  Z.lor (Z.shiftr x n) (trunc32 (Z.shiftl x (32 - n))).

Definition ch (x y z : Z) : Z :=
  Z.lxor (Z.land x y) (Z.land (Z.lxor x mask32) z).
Definition maj (x y z : Z) : Z :=
  Z.lxor (Z.lxor (Z.land x y) (Z.land x z)) (Z.land y z).
Definition big_sigma0 (x : Z) : Z :=
  Z.lxor (Z.lxor (rotr 2 x) (rotr 13 x)) (rotr 22 x).
Definition big_sigma1 (x : Z) : Z :=
  Z.lxor (Z.lxor (rotr 6 x) (rotr 11 x)) (rotr 25 x).
Definition small_sigma0 (x : Z) : Z :=
  Z.lxor (Z.lxor (rotr 7 x) (rotr 18 x)) (Z.shiftr x 3).
Definition small_sigma1 (x : Z) : Z :=
  Z.lxor (Z.lxor (rotr 17 x) (rotr 19 x)) (Z.shiftr x 10).

(** The constants are fractional parts of roots of the first primes:
    32 bits of the cube roots of the first 64 primes for the rounds, and
    of the square roots of the first 8 for the initial hash value. *)
Definition is_prime (n : nat) : bool :=
  forallb (fun d => negb (Nat.eqb (n mod d) 0)) (seq 2 (n - 2)).

Definition first_primes (count : nat) : list Z :=
  map Z.of_nat (firstn count (filter is_prime (seq 2 400))).

(** The integer cube root of [n], below [2 ^ bits], one bit at a time. *)
Fixpoint cube_root (bits : nat) (n acc : Z) : Z :=
  match bits with
  | O => acc
  | S b =>
      let candidate := acc + 2 ^ Z.of_nat b in
      cube_root b n (if candidate * candidate * candidate <=? n
                     then candidate else acc)
  end.

Definition round_constants : list Z :=
  Eval vm_compute in
    map (fun p => trunc32 (cube_root 40 (p * 2 ^ 96) 0)) (first_primes 64).

(** The eight working variables a..h, also the chaining value. *)
Record regs := Regs {
  ra : Z; rb : Z; rc : Z; rd : Z; re : Z; rf : Z; rg : Z; rh : Z }.

Definition initial_words : list Z :=
  Eval vm_compute in
    map (fun p => trunc32 (Z.sqrt (p * 2 ^ 64))) (first_primes 8).

Definition initial_hash : regs :=
  match initial_words with
  | [a; b; c; d; e; f; g; h] => Regs a b c d e f g h
  | _ => Regs 0 0 0 0 0 0 0 0
  end.

(** Padding: a 1 bit, zero bits up to 56 modulo 64 bytes, then the bit
    length as a 64-bit big-endian number. *)
Fixpoint be_bytes (count : nat) (n : Z) : list Z :=
  match count with
  | O => []
  | S c => ((n / 256 ^ Z.of_nat c) mod 256) :: be_bytes c n
  end.

Definition pad (msg : list Z) : list Z :=
  let len := Z.of_nat (List.length msg) in
  let zeros := Z.to_nat ((55 - len) mod 64) in
  (msg ++ 128 :: repeat 0 zeros ++ be_bytes 8 (8 * len))%list.

(** Big-endian 32-bit words of a byte string (a trailing group of fewer
    than four bytes cannot occur after padding and is dropped). *)
Fixpoint words (bytes : list Z) : list Z :=
  match bytes with
  | b0 :: b1 :: b2 :: b3 :: rest =>
      (((b0 * 256 + b1) * 256 + b2) * 256 + b3) :: words rest
  | _ => []
  end.

(** Message schedule. [recent] holds W[t-1], W[t-2], ... newest first. *)
Fixpoint extend (steps : nat) (recent : list Z) : list Z :=
  match steps with
  | O => recent
  | S k =>
      let w := add32 (add32 (small_sigma1 (nth 1 recent 0)) (nth 6 recent 0))
                     (add32 (small_sigma0 (nth 14 recent 0)) (nth 15 recent 0)) in
      extend k (w :: recent)
  end.

Definition schedule (block : list Z) : list Z :=
  rev (extend 48 (rev block)).

Definition round (r : regs) (kw : Z * Z) : regs :=
  let t1 := add32 (add32 (add32 (rh r) (big_sigma1 (re r)))
                         (add32 (ch (re r) (rf r) (rg r)) (fst kw))) (snd kw) in
  let t2 := add32 (big_sigma0 (ra r)) (maj (ra r) (rb r) (rc r)) in
  Regs (add32 t1 t2) (ra r) (rb r) (rc r) (add32 (rd r) t1) (re r) (rf r) (rg r).

Definition compress (h : regs) (block : list Z) : regs :=
  let r := fold_left round (combine round_constants (schedule block)) h in
  Regs (add32 (ra h) (ra r)) (add32 (rb h) (rb r)) (add32 (rc h) (rc r))
       (add32 (rd h) (rd r)) (add32 (re h) (re r)) (add32 (rf h) (rf r))
       (add32 (rg h) (rg r)) (add32 (rh h) (rh r)).

(** Feeds the 16-word blocks of [ws] to [compress]; [blocks] bounds their
    number. *)
Fixpoint absorb (blocks : nat) (h : regs) (ws : list Z) : regs :=
  match blocks, ws with
  | S n, _ :: _ => absorb n (compress h (firstn 16 ws)) (skipn 16 ws)
  | _, _ => h
  end.

Definition digest (msg : list Z) : regs :=
  let ws := words (pad msg) in
  absorb (List.length ws) initial_hash ws.

(** [hashlib.sha256(msg).hexdigest()]: 64 lowercase hex characters. *)
Definition hexdigest (msg : list Z) : string :=
  let r := digest msg in
  (Text.hex_fixed 8 (ra r) ++ Text.hex_fixed 8 (rb r) ++
   Text.hex_fixed 8 (rc r) ++ Text.hex_fixed 8 (rd r) ++
   Text.hex_fixed 8 (re r) ++ Text.hex_fixed 8 (rf r) ++
   Text.hex_fixed 8 (rg r) ++ Text.hex_fixed 8 (rh r))%string.

End Sha256.

(** ** Python values that reach [json.dumps] *)

Module Py.

(** A [float]: finite, with its exact value and its [repr] text, or one
    of the three non-finite values. *)
Inductive pyfloat :=
| FFinite (value : Q) (repr : string)
| FNaN
| FInfinity
| FNegInfinity.

#[local] Unset Elimination Schemes.
(** JSON-serialisable Python objects. A [dict] keeps its items in
    insertion order, with [str] keys (the keys of a signal). *)
Inductive value :=
| PNone
| PBool (b : bool)
| PInt (n : Z)
| PFloat (f : pyfloat)
| PStr (s : string)
| PList (items : list value)
| PTuple (items : list value)
| PDict (items : list (string * value)).
#[local] Set Elimination Schemes.

Definition dict := list (string * value).

Inductive pyexn :=
| KeyError
| TypeError
| ValueError
| RequestException
| ZeroDivisionError
| OverflowError.

(** [d[key]] : the value, or nothing where Python raises [KeyError]. *)
Fixpoint dict_get (d : dict) (key : string) : option value :=
  match d with
  | [] => None
  | (k, v) :: rest => if String.eqb k key then Some v else dict_get rest key
  end.

(** An object with a [get] method: of the objects here, a [dict]. *)
Definition is_dict (v : value) : bool :=
  match v with
  | PDict _ => true
  | _ => false
  end.

(** [d.get(key, default)]. *)
Definition dict_get_default (d : dict) (key : string) (default : value) : value :=
  match dict_get d key with
  | Some v => v
  | None => default
  end.

(** [v < n] for an [int] [n]: nothing where Python raises [TypeError]. *)
Definition lt_int (v : value) (n : Z) : option bool :=
  match v with
  | PInt c => Some (c <? n)
  | PBool b => Some ((if b then 1 else 0) <? n)
  | PFloat (FFinite q _) => Some (negb (Qle_bool (inject_Z n) q))
  | PFloat FNaN => Some false
  | PFloat FInfinity => Some false
  | PFloat FNegInfinity => Some true
  | _ => None
  end.

(** Binary64 arithmetic: 53 bits of precision, exponents below 1024. *)
Definition float64 := SpecFloat.spec_float.

(** An [int] as an operand of [/]: its exact value. *)
Definition exact_int (n : Z) : float64 :=
  match n with
  | Z0 => SpecFloat.S754_zero false
  | Zpos p => SpecFloat.S754_finite false p 0
  | Zneg p => SpecFloat.S754_finite true p 0
  end.

(** [a / b] on two [int]s: the quotient, correctly rounded;
    [ZeroDivisionError] for [b = 0] and [OverflowError] ("integer
    division result too large for a float") when the rounded quotient
    is beyond the largest float. *)
Definition int_true_div (a b : Z) : float64 + pyexn :=
  if b =? 0 then inr ZeroDivisionError
  else
    match SpecFloat.SFdiv 53 1024 (exact_int a) (exact_int b) with
    | SpecFloat.S754_infinity _ => inr OverflowError
    | q => inl q
    end.

(** [float(n)] for an [int] that a float holds exactly. *)
Definition float_of_int (n : Z) : float64 :=
  SpecFloat.binary_normalize 53 1024 n 0 false.

(** [x * y] on two floats; it overflows to an infinity and raises
    nothing. *)
Definition float_mul (x y : float64) : float64 := SpecFloat.SFmul 53 1024 x y.

(** The exact value of a finite float. *)
Definition float_value (x : float64) : option Q :=
  match x with
  | SpecFloat.S754_zero _ => Some 0%Q
  | SpecFloat.S754_finite s m e =>
      let magnitude :=
        match e with
        | Z0 => inject_Z (Zpos m)
        | Zpos k => inject_Z (Zpos m * 2 ^ Zpos k)
        | Zneg k => (Zpos m # Pos.pow 2 k)%Q
        end in
      Some (Qred (if s then (- magnitude)%Q else magnitude))
  | _ => None
  end.

(** Structural equality, as a boolean. *)
Definition float_eqb (f g : pyfloat) : bool :=
  match f, g with
  | FFinite q r, FFinite q' r' =>
      Z.eqb (Qnum q) (Qnum q') && Pos.eqb (Qden q) (Qden q') && String.eqb r r'
  | FNaN, FNaN | FInfinity, FInfinity | FNegInfinity, FNegInfinity => true
  | _, _ => false
  end.

Fixpoint value_eqb (a b : value) : bool :=
  let fix all2 (l l' : list value) : bool :=
    match l, l' with
    | [], [] => true
    | x :: r, y :: r' => value_eqb x y && all2 r r'
    | _, _ => false
    end in
  let fix items2 (l l' : list (string * value)) : bool :=
    match l, l' with
    | [], [] => true
    | (k, x) :: r, (k', y) :: r' => String.eqb k k' && value_eqb x y && items2 r r'
    | _, _ => false
    end in
  match a, b with
  | PNone, PNone => true
  | PBool x, PBool y => Bool.eqb x y
  | PInt x, PInt y => Z.eqb x y
  | PFloat x, PFloat y => float_eqb x y
  | PStr x, PStr y => String.eqb x y
  | PList x, PList y => all2 x y
  | PTuple x, PTuple y => all2 x y
  | PDict x, PDict y => items2 x y
  | _, _ => false
  end.

(** Keys are pairwise distinct in every [dict], at every depth: what
    Python guarantees of any [dict] object. *)
Fixpoint distinct (keys : list string) : bool :=
  match keys with
  | [] => true
  | k :: rest => negb (existsb (String.eqb k) rest) && distinct rest
  end.

Fixpoint distinct_keys (v : value) : bool :=
  match v with
  | PList items | PTuple items => forallb distinct_keys items
  | PDict items =>
      distinct (map fst items) &&
      forallb (fun kv => match kv with (_, x) => distinct_keys x end) items
  | _ => true
  end.

(** Some [float] of the value is NaN or an infinity. *)
Fixpoint has_non_finite (v : value) : bool :=
  match v with
  | PFloat (FFinite _ _) => false
  | PFloat _ => true
  | PList items | PTuple items => existsb has_non_finite items
  | PDict items => existsb (fun kv => match kv with (_, x) => has_non_finite x end) items
  | _ => false
  end.

(** Induction on a value, with the items of its containers. *)
Section ValueInduction.
Variable P : value -> Prop.
Hypothesis HNone : P PNone.
Hypothesis HBool : forall b, P (PBool b).
Hypothesis HInt : forall n, P (PInt n).
Hypothesis HFloat : forall f, P (PFloat f).
Hypothesis HStr : forall s, P (PStr s).
Hypothesis HList : forall items, Forall P items -> P (PList items).
Hypothesis HTuple : forall items, Forall P items -> P (PTuple items).
Hypothesis HDict :
  forall items, Forall (fun kv => P (snd kv)) items -> P (PDict items).

Fixpoint value_ind (v : value) : P v :=
  let fix all (l : list value) : Forall P l :=
    match l with
    | [] => Forall_nil P
    | x :: r => Forall_cons x (value_ind x) (all r)
    end in
  let fix all_items (l : list (string * value))
    : Forall (fun kv => P (snd kv)) l :=
    match l with
    | [] => Forall_nil _
    | (k, x) :: r =>
        Forall_cons (P := fun kv => P (snd kv)) (k, x) (value_ind x) (all_items r)
    end in
  match v with
  | PNone => HNone
  | PBool b => HBool b
  | PInt n => HInt n
  | PFloat f => HFloat f
  | PStr s => HStr s
  | PList items => HList items (all items)
  | PTuple items => HTuple items (all items)
  | PDict items => HDict items (all_items items)
  end.
End ValueInduction.

#[local] Unset Elimination Schemes.
(** [reordered v v']: [v'] has the key/value pairs of [v], with the
    items of any of its dicts, at any depth, in any order. *)
Inductive reordered : value -> value -> Prop :=
| reordered_same : forall v, reordered v v
| reordered_list : forall items items',
    Forall2 reordered items items' ->
    reordered (PList items) (PList items')
| reordered_tuple : forall items items',
    Forall2 reordered items items' ->
    reordered (PTuple items) (PTuple items')
| reordered_dict : forall items renewed items',
    Forall2 (fun kv kv' => fst kv = fst kv' /\ reordered (snd kv) (snd kv'))
            items renewed ->
    Permutation renewed items' ->
    reordered (PDict items) (PDict items').
#[local] Set Elimination Schemes.

(** [d'] is [d] with the value of one field replaced by another value. *)
Definition mutates_one_field (d d' : dict) : Prop :=
  exists before k v v' after,
    d = before ++ (k, v) :: after /\
    d' = before ++ (k, v') :: after /\
    v' <> v.

End Py.

(** ** [json.dumps(obj, sort_keys=True)] with the default options
    ([ensure_ascii], [allow_nan], separators [", "] and [": "]) *)

Module Json.
Import Py.

Definition dquote : string := String (ascii_of_nat 34) EmptyString.

(** One character inside a JSON string, as [ensure_ascii] writes it. *)
Definition escape_char (c : ascii) : string :=
  let n := Text.code c in
  if n =? 34 then ("\" ++ dquote)%string
  else if n =? 92 then "\\"
  else if n =? 10 then "\n"
  else if n =? 13 then "\r"
  else if n =? 9 then "\t"
  else if n =? 8 then "\b"
  else if n =? 12 then "\f"
  else if (32 <=? n) && (n <=? 126) then String c EmptyString
  else ("\u" ++ Text.hex_fixed 4 n)%string.

Fixpoint escape (s : string) : string :=
  match s with
  | EmptyString => EmptyString
  | String c rest => (escape_char c ++ escape rest)%string
  end.

Definition quote (s : string) : string :=
  (dquote ++ escape s ++ dquote)%string.

(** [allow_nan] is on: the non-finite floats are written, not refused. *)
Definition float_text (f : pyfloat) : string :=
  match f with
  | FFinite _ repr => repr
  | FNaN => "NaN"
  | FInfinity => "Infinity"
  | FNegInfinity => "-Infinity"
  end.

(** [sorted(items)] on items with [str] keys: a stable sort by key. *)
Fixpoint insert_item {A} (kv : string * A) (sorted : list (string * A))
  : list (string * A) :=
  match sorted with
  | [] => [kv]
  | kv' :: rest =>
      if String.leb (fst kv) (fst kv') then kv :: kv' :: rest
      else kv' :: insert_item kv rest
  end.

Definition sort_items {A} (items : list (string * A)) : list (string * A) :=
  fold_right insert_item [] items.

Definition item_text (kv : string * string) : string :=
  (quote (fst kv) ++ ": " ++ snd kv)%string.

(** The encoder. A [dict] is written with its items in sorted key order;
    the values are encoded and the items sorted by key, which writes the
    same text as sorting first, since encoding a value does not depend on
    its position. *)
Fixpoint dumps (v : value) : string :=
  match v with
  | PNone => "null"
  | PBool true => "true"
  | PBool false => "false"
  | PInt n => Text.str_of_int n
  | PFloat f => float_text f
  | PStr s => quote s
  | PList items | PTuple items =>
      ("[" ++ Text.join ", " (map dumps items) ++ "]")%string
  | PDict items =>
      ("{" ++ Text.join ", "
                (map item_text
                   (sort_items
                      (map (fun kv => match kv with (k, x) => (k, dumps x) end)
                           items)))
           ++ "}")%string
  end.

(** An item with its value encoded. *)
Definition encode_item (kv : string * value) : string * string :=
  match kv with (k, x) => (k, dumps x) end.

End Json.

(** ** [commit_reveal.py]: class [CommitReveal] *)

Module CommitReveal.
Import Py.

(** The text that is hashed: [json.dumps(signal, sort_keys=True) + salt]. *)
Definition payload (signal : dict) (salt : string) : string :=
  (Json.dumps (PDict signal) ++ salt)%string.

(** [hash_signal(signal, salt)]. *)
Definition hash_signal (signal : dict) (salt : string) : string :=
  Sha256.hexdigest (Text.utf8 (payload signal salt)).

(** [generate_salt()]: the hex text of 32 bytes of [os.urandom]. *)
Definition generate_salt (urandom_hex : string) : string := urandom_hex.

(** [create_commitment(signal, salt=None)]. [urandom_hex] is the text
    [os.urandom(32).hex()] yields, read only when no salt is passed. *)
Definition create_commitment (urandom_hex : string) (signal : dict)
    (salt : option string) : string * string :=
  let salt :=
    match salt with
    | None => urandom_hex
    | Some s => s
    end in
  let payload := (Json.dumps (PDict signal) ++ salt)%string in
  let commitment := Sha256.hexdigest (Text.utf8 payload) in
  (commitment, salt).

(** [verify_commitment(commitment_hash, signal, salt)]. *)
Definition verify_commitment (commitment_hash : string) (signal : dict)
    (salt : string) : bool :=
  let payload := (Json.dumps (PDict signal) ++ salt)%string in
  let recomputed := Sha256.hexdigest (Text.utf8 payload) in
  String.eqb recomputed commitment_hash.

(** Two different byte strings that SHA-256 maps to one digest. *)
Definition collision (a b : list Z) : Prop :=
  a <> b /\ Sha256.hexdigest a = Sha256.hexdigest b.

End CommitReveal.

(** ** [midnight_client.py]: class [MidnightClient] *)

Module MidnightClient.
Import Py.

(** What [session.post], [raise_for_status] and [response.json] did:
    the decoded body, which is whatever JSON value the server sent (an
    object is a [PDict]; the declared result type [dict] is not checked),
    a [requests.exceptions.ConnectionError], or any other
    [RequestException] (HTTP error status, timeout, undecodable body). *)
Inductive transport :=
| Responded (body : value)
| ConnectionError
| OtherRequestError.

(** What a call of a client method did: it returned an object, of any
    type, or it raised. *)
Inductive outcome :=
| Returned (result : value)
| Raised (e : pyexn).

(** [commit_signal(commitment_hash, stake)]; [now] is [time.time()] at
    the moment of the offline fallback. *)
Definition commit_signal (now : Z) (net : transport)
    (commitment_hash : string) (stake : Z) : outcome :=
  match net with
  | Responded result => Returned result
  | ConnectionError =>
      Returned (PDict [ ("commitment_id", PStr (Text.str_of_int now));
                        ("tx_id", PStr "offline-mock");
                        ("status", PStr "offline") ])
  | OtherRequestError => Raised RequestException
  end.

(** [reveal_signal(commitment_id, signal, salt)]. *)
Definition reveal_signal (net : transport) (commitment_id : value)
    (signal : dict) (salt : string) : outcome :=
  match net with
  | Responded result => Returned result
  | ConnectionError =>
      Returned (PDict [ ("commitment_id", commitment_id);
                        ("status", PStr "offline");
                        ("verified", PBool false) ])
  | OtherRequestError => Raised RequestException
  end.

End MidnightClient.

(** ** [ghost_agent.py]: [AgentConfig], [ActiveCommitment], [GhostAgent] *)

Module Agent.
Import Py.

Record AgentConfig := {
  name : string;
  signal_interval : Z;
  default_stake : Z;
  reveal_delay : Z;
  max_active_commitments : Z;
  strategy_type : string;
  min_confidence : Z;
  pairs : list string;
  api_url : string }.

(** The dataclass defaults. *)
Definition default_config : AgentConfig :=
  {| name := "GhostAgent-Alpha";
     signal_interval := 300;
     default_stake := 100;
     reveal_delay := 60;
     max_active_commitments := 5;
     strategy_type := "momentum";
     min_confidence := 60;
     pairs := ["BTC/USD"; "ETH/USD"];
     api_url := "http://localhost:5173" |}.

Record ActiveCommitment := {
  commitment_id : value;
  commitment_hash : string;
  salt : string;
  signal : dict;
  stake : Z;
  committed_at : Z;
  reveal_after : Z }.

(** The fields of [self] that the lifecycle reads and writes. *)
Record GhostAgent := {
  config : AgentConfig;
  active_commitments : list ActiveCommitment;
  total_committed : Z;
  total_revealed : Z;
  total_verified : Z }.

(** [__init__]. *)
Definition init (cfg : AgentConfig) : GhostAgent :=
  {| config := cfg;
     active_commitments := [];
     total_committed := 0;
     total_revealed := 0;
     total_verified := 0 |}.

Definition set_active (l : list ActiveCommitment) (self : GhostAgent) : GhostAgent :=
  {| config := config self;
     active_commitments := l;
     total_committed := total_committed self;
     total_revealed := total_revealed self;
     total_verified := total_verified self |}.

(** The dataclass [__eq__]: field by field. The fields are compared
    structurally; Python's [==] also equates two dicts that list the same
    items in another order and numbers across [bool], [int] and [float].
    Records with different salts are unequal either way, so the two can
    differ only on records that share a salt. *)
Definition commitment_eqb (a b : ActiveCommitment) : bool :=
  value_eqb (commitment_id a) (commitment_id b) &&
  String.eqb (commitment_hash a) (commitment_hash b) &&
  String.eqb (salt a) (salt b) &&
  value_eqb (PDict (signal a)) (PDict (signal b)) &&
  Z.eqb (stake a) (stake b) &&
  Z.eqb (committed_at a) (committed_at b) &&
  Z.eqb (reveal_after a) (reveal_after b).

(** [l.remove(c)]: drops the first item equal to [c]; nothing where
    Python raises [ValueError]. *)
Fixpoint list_remove (c : ActiveCommitment) (l : list ActiveCommitment)
  : option (list ActiveCommitment) :=
  match l with
  | [] => None
  | x :: rest =>
      if commitment_eqb x c then Some rest
      else option_map (cons x) (list_remove c rest)
  end.

(** [generate_signal]: the strategy's dict, whose four logged fields
    must be present. *)
Definition generate_signal (analysis : dict) : dict + pyexn :=
  match dict_get analysis "direction", dict_get analysis "pair",
        dict_get analysis "target_price", dict_get analysis "confidence" with
  | Some _, Some _, Some _, Some _ => inl analysis
  | _, _, _, _ => inr KeyError
  end.

(** [create_commitment(signal)]: a fresh salt every time. *)
Definition create_commitment (urandom_hex : string) (signal : dict)
  : string * string :=
  CommitReveal.create_commitment urandom_hex signal None.

(** [submit_commitment(commitment_hash, stake)]. [client] is the
    [commit_signal] method of [self.client]. The result is the
    commitment id, or [PNone] for Python's [None]. Of the objects a
    client can return only a [dict] has a [get]: on any other,
    [result.get] raises [AttributeError] inside the [try], before the
    counter is touched, and the [except Exception] returns [None]. *)
Definition submit_commitment (client : string -> Z -> MidnightClient.outcome)
    (commitment_hash : string) (stake : Z) (self : GhostAgent)
  : value * GhostAgent :=
  match client commitment_hash stake with
  | MidnightClient.Returned (PDict result) =>
      let commitment_id :=
        dict_get_default result "commitment_id"
          (PStr (Text.str_of_int (total_committed self))) in
      (commitment_id,
       {| config := config self;
          active_commitments := active_commitments self;
          total_committed := total_committed self + 1;
          total_revealed := total_revealed self;
          total_verified := total_verified self |})
  | MidnightClient.Returned _ => (PNone, self)
  | MidnightClient.Raised _ => (PNone, self)
  end.

(** [reveal_signal(commitment_id, signal, salt)]. [client] is the
    [reveal_signal] method of [self.client]. Whatever the client returns
    is counted and handed on, [None] (a JSON [null]) included; when the
    client raises the result is [None], here [PNone]. *)
Definition reveal_signal
    (client : value -> dict -> string -> MidnightClient.outcome)
    (commitment_id : value) (signal : dict) (salt : string)
    (self : GhostAgent) : value * GhostAgent :=
  match client commitment_id signal salt with
  | MidnightClient.Returned result =>
      (result,
       {| config := config self;
          active_commitments := active_commitments self;
          total_committed := total_committed self;
          total_revealed := total_revealed self + 1;
          total_verified := total_verified self |})
  | MidnightClient.Raised _ => (PNone, self)
  end.

(** What one [run_cycle] call finds outside of [self]. *)
Record cycle_env := {
  env_analysis : dict;                 (* strategy.analyze(market_data) *)
  env_urandom_hex : string;            (* os.urandom(32).hex() *)
  env_commit_signal : string -> Z -> MidnightClient.outcome;
  env_now : Z }.                       (* time.time() *)

(** The hash a cycle passes to [submit_commitment]: that of the
    strategy's signal with the fresh salt. *)
Definition submitted_hash (env : cycle_env) : string :=
  fst (create_commitment (env_urandom_hex env) (env_analysis env)).

(** The path a [run_cycle] call took (each has its own log line); the
    call itself returns [None] or lets an exception through. *)
Inductive cycle_outcome :=
| SkippedAtCapacity
| SkippedLowConfidence
| SubmitFailed
| Committed (c : ActiveCommitment)
| CycleRaised (e : pyexn).

Definition run_cycle (env : cycle_env) (self : GhostAgent)
  : cycle_outcome * GhostAgent :=
  if Z.of_nat (List.length (active_commitments self))
       >=? max_active_commitments (config self)
  then (SkippedAtCapacity, self)
  else
    match generate_signal (env_analysis env) with
    | inr e => (CycleRaised e, self)
    | inl signal =>
        match dict_get signal "confidence" with
        | None => (CycleRaised KeyError, self)
        | Some confidence =>
            match lt_int confidence (min_confidence (config self)) with
            | None => (CycleRaised TypeError, self)
            | Some true => (SkippedLowConfidence, self)
            | Some false =>
                let '(commitment_hash, salt) :=
                  create_commitment (env_urandom_hex env) signal in
                let '(commitment_id, self1) :=
                  submit_commitment (env_commit_signal env) commitment_hash
                    (default_stake (config self)) self in
                match commitment_id with
                | PNone => (SubmitFailed, self1)
                | _ =>
                    let now := env_now env in
                    let c :=
                      {| commitment_id := commitment_id;
                         commitment_hash := commitment_hash;
                         salt := salt;
                         signal := signal;
                         stake := default_stake (config self);
                         committed_at := now;
                         reveal_after := now + reveal_delay (config self) |} in
                    (Committed c,
                     set_active (active_commitments self1 ++ [c]) self1)
                end
            end
        end
    end.

(** [result is not None]. *)
Definition is_not_none (v : value) : bool :=
  match v with
  | PNone => false
  | _ => true
  end.

(** One pass of the [for commitment in ready] loop per item of [ready].
    [client k] is the [reveal_signal] method of [self.client] at its
    [k]-th call. The log lists the calls made, with what
    [self.reveal_signal] returned. *)
Fixpoint reveal_loop
    (client : nat -> value -> dict -> string -> MidnightClient.outcome)
    (k : nat) (ready : list ActiveCommitment) (self : GhostAgent)
  : option pyexn * list (ActiveCommitment * value) * GhostAgent :=
  match ready with
  | [] => (None, [], self)
  | commitment :: rest =>
      let '(result, self1) :=
        reveal_signal (client k) (commitment_id commitment)
          (signal commitment) (salt commitment) self in
      if is_not_none result then
        match list_remove commitment (active_commitments self1) with
        | None => (Some ValueError, [(commitment, result)], self1)
        | Some remaining =>
            let '(e, log, self2) :=
              reveal_loop client (S k) rest (set_active remaining self1) in
            (e, (commitment, result) :: log, self2)
        end
      else
        let '(e, log, self2) := reveal_loop client (S k) rest self1 in
        (e, (commitment, result) :: log, self2)
  end.

Definition is_ready (now : Z) (c : ActiveCommitment) : bool :=
  now >=? reveal_after c.

(** [process_reveals()]; [now] is the reading of [time.time()]. *)
Definition process_reveals (now : Z)
    (client : nat -> value -> dict -> string -> MidnightClient.outcome)
    (self : GhostAgent)
  : option pyexn * list (ActiveCommitment * value) * GhostAgent :=
  let ready := filter (is_ready now) (active_commitments self) in
  reveal_loop client 0 ready self.

(** The dict [get_stats] returns. *)
Record Stats := {
  stats_name : string;
  stats_total_committed : Z;
  stats_total_revealed : Z;
  stats_total_verified : Z;
  stats_active_commitments : Z;
  stats_win_rate : float64 }.

(** [self.total_verified / self.total_revealed * 100] when
    [self.total_revealed > 0], else [0.0]. *)
Definition win_rate (self : GhostAgent) : float64 + pyexn :=
  if total_revealed self >? 0
  then
    match int_true_div (total_verified self) (total_revealed self) with
    | inl ratio => inl (float_mul ratio (float_of_int 100))
    | inr e => inr e
    end
  else inl (SpecFloat.S754_zero false).

(** [get_stats()]: the dict, or the exception that building it raised,
    and the agent afterwards. *)
Definition get_stats (self : GhostAgent) : (Stats + pyexn) * GhostAgent :=
  (match win_rate self with
   | inl rate =>
       inl {| stats_name := name (config self);
              stats_total_committed := total_committed self;
              stats_total_revealed := total_revealed self;
              stats_total_verified := total_verified self;
              stats_active_commitments :=
                Z.of_nat (List.length (active_commitments self));
              stats_win_rate := rate |}
   | inr e => inr e
   end,
   self).

(** A call made on the agent from outside, and a run of such calls. *)
Inductive call :=
| RunCycle (env : cycle_env)
| ProcessReveals (now : Z)
    (client : nat -> value -> dict -> string -> MidnightClient.outcome).

Definition perform (self : GhostAgent) (c : call) : GhostAgent :=
  match c with
  | RunCycle env => snd (run_cycle env self)
  | ProcessReveals now client => snd (process_reveals now client self)
  end.

Definition perform_all (calls : list call) (self : GhostAgent) : GhostAgent :=
  fold_left perform calls self.

(** The clock readings of the [run_cycle] calls of a run, in order. *)
Fixpoint cycle_clock (calls : list call) : list Z :=
  match calls with
  | [] => []
  | RunCycle env :: rest => env_now env :: cycle_clock rest
  | ProcessReveals _ _ :: rest => cycle_clock rest
  end.

Definition unit_if (b : bool) : nat := if b then 1%nat else 0%nat.

(** How many items of [l] equal [c]. *)
Definition occurrences (c : ActiveCommitment) (l : list ActiveCommitment) : nat :=
  List.length (filter (commitment_eqb c) l).

(** A reveal succeeded, for [process_reveals], when [self.reveal_signal]
    returned something else than [None]. *)
Definition succeeded (entry : ActiveCommitment * value) : bool :=
  is_not_none (snd entry).

(** The reveal calls made for [c], those that returned a result, and
    those that did not, in a log of [process_reveals]. *)
Definition attempts (c : ActiveCommitment)
    (log : list (ActiveCommitment * value)) : nat :=
  occurrences c (map fst log).

Definition successes (c : ActiveCommitment)
    (log : list (ActiveCommitment * value)) : nat :=
  occurrences c (map fst (filter succeeded log)).

Definition failures (c : ActiveCommitment)
    (log : list (ActiveCommitment * value)) : nat :=
  occurrences c (map fst (filter (fun entry => negb (succeeded entry)) log)).

Definition earlier_reveal (a b : ActiveCommitment) : Prop :=
  reveal_after a <= reveal_after b.

(** The calls [process_reveals] makes for the items of [ready], with what
    [self.reveal_signal] returns for each. *)
Fixpoint reveal_calls
    (client : nat -> value -> dict -> string -> MidnightClient.outcome)
    (k : nat) (ready : list ActiveCommitment)
  : list (ActiveCommitment * value) :=
  match ready with
  | [] => []
  | c :: rest =>
      (c, match client k (commitment_id c) (signal c) (salt c) with
          | MidnightClient.Returned result => result
          | MidnightClient.Raised _ => PNone
          end) :: reveal_calls client (S k) rest
  end.

(** How many of the calls [process_reveals] makes for the items of
    [ready] return without raising. *)
Fixpoint returned_calls
    (client : nat -> value -> dict -> string -> MidnightClient.outcome)
    (k : nat) (ready : list ActiveCommitment) : nat :=
  match ready with
  | [] => 0%nat
  | c :: rest =>
      (match client k (commitment_id c) (signal c) (salt c) with
       | MidnightClient.Returned _ => 1
       | MidnightClient.Raised _ => 0
       end + returned_calls client (S k) rest)%nat
  end.

End Agent.

(** ** Objects that refer to one another

    A [dict] or a [list] is an object with an identity, and it can hold a
    reference to an object that (directly or not) holds it. [json.dumps]
    runs with [check_circular]: it keeps the identities of the containers
    it is inside of (the markers) and raises
    [ValueError("Circular reference detected")] on meeting one of them
    again. Such decisions do not fit [Py.value], which is a tree; here the
    containers live in a heap and are named by their address. *)

Module ObjectGraph.
Import Py.

Inductive node :=
| Leaf (v : value)            (* an object that shares nothing *)
| Ref (address : nat).        (* a container of the heap *)

Inductive container :=
| ListObject (items : list node)
| DictObject (items : list (string * node)).

Definition heap := list container.

Definition children (c : container) : list node :=
  match c with
  | ListObject items => items
  | DictObject items => map snd items
  end.

Inductive failure :=
| CircularReference     (* the ValueError of the encoder *)
| DanglingReference     (* an address outside the heap: no Python object *)
| Exhausted.            (* the bound on the nesting depth ran out *)

Inductive result (A : Type) :=
| Ok (a : A)
| Fail (f : failure).
Arguments Ok {A} a.
Arguments Fail {A} f.

Definition bind {A B} (r : result A) (k : A -> result B) : result B :=
  match r with
  | Ok a => k a
  | Fail f => Fail f
  end.

Notation "x <- r ;; k" := (bind r (fun x => k))
  (at level 61, r at next level, right associativity).

(** Runs the computations from left to right; the first failure ends it. *)
Fixpoint sequence {A} (rs : list (result A)) : result (list A) :=
  match rs with
  | [] => Ok []
  | r :: rest =>
      a <- r ;;
      others <- sequence rest ;;
      Ok (a :: others)
  end.

(** [json.dumps(node, sort_keys=True)] over the heap [h]. [markers] are
    the containers being encoded; [depth] bounds the nesting. *)
Fixpoint encode (depth : nat) (h : heap) (markers : list nat) (n : node)
  : result string :=
  match n with
  | Leaf v => Ok (Json.dumps v)
  | Ref a =>
      if existsb (Nat.eqb a) markers then Fail CircularReference
      else
        match depth with
        | O => Fail Exhausted
        | S d =>
            match nth_error h a with
            | None => Fail DanglingReference
            | Some (ListObject items) =>
                texts <- sequence (map (encode d h (a :: markers)) items) ;;
                Ok ("[" ++ Text.join ", " texts ++ "]")%string
            | Some (DictObject items) =>
                texts <- sequence
                           (map (fun kv =>
                                   text <- encode d h (a :: markers) (snd kv) ;;
                                   Ok (fst kv, text))
                                (Json.sort_items items)) ;;
                Ok ("{" ++ Text.join ", " (map Json.item_text texts) ++ "}")%string
            end
        end
  end.

(** [CommitReveal.create_commitment(signal, salt)] for a signal that is
    the container at address [signal]. *)
Definition create_commitment (depth : nat) (h : heap) (signal : nat)
    (salt : string) : result (string * string) :=
  text <- encode depth h [] (Ref signal) ;;
  Ok (Sha256.hexdigest (Text.utf8 (text ++ salt)%string), salt).

(** [a] holds a reference to [b]. *)
Definition holds (h : heap) (a b : nat) : Prop :=
  exists c, nth_error h a = Some c /\ In (Ref b) (children c).

Inductive reaches (h : heap) : nat -> nat -> Prop :=
| reaches_here : forall a, reaches h a a
| reaches_step : forall a b c, holds h a b -> reaches h b c -> reaches h a c.

(** The object at [root] contains a cyclic structure: from it one gets
    to a container that holds a reference leading back to itself. *)
Definition cyclic (h : heap) (root : nat) : Prop :=
  exists a b, reaches h root a /\ holds h a b /\ reaches h b a.

(** Every reference of the heap names a container of the heap. *)
Definition closed (h : heap) : Prop :=
  forall a b, holds h a b -> (b < List.length h)%nat.

(** The references unfold to a tree of depth at most [depth]. *)
Fixpoint unfolds (h : heap) (depth : nat) (n : node) : Prop :=
  match n with
  | Leaf _ => True
  | Ref a =>
      match depth with
      | O => False
      | S d =>
          match nth_error h a with
          | None => False
          | Some c => Forall (unfolds h d) (children c)
          end
      end
  end.

(** A dict that shares nothing, as a container. *)
Definition of_dict (items : dict) : container :=
  DictObject (map (fun kv => (fst kv, Leaf (snd kv))) items).

(** [d = {}; d["self"] = d]. *)
Definition self_containing : heap := [ DictObject [("self", Ref 0%nat)] ].

End ObjectGraph.

(** ** Concrete agents, signals and collaborators, for the examples *)

Module Scenario.
Import Py Agent.

Definition salt_hex : string :=
  "deadbeefdeadbeefdeadbeefdeadbeefdeadbeefdeadbeefdeadbeefdeadbeef".

(** A signal as the strategies build it, confident enough to pass the
    default threshold of 60. *)
Definition buy_signal : dict :=
  [ ("direction", PStr "BUY");
    ("pair", PStr "BTC/USD");
    ("target_price", PFloat (FFinite (66300 # 1) "66300.0"));
    ("confidence", PInt 80);
    ("timestamp", PStr "2025-01-01T00:00:00Z") ].

(** A ledger that accepts a commitment and names it [id]. *)
Definition ledger_names (id : string) : string -> Z -> MidnightClient.outcome :=
  fun _ _ =>
    MidnightClient.Returned
      (PDict [ ("commitment_id", PStr id); ("tx_id", PStr "tx-abc");
               ("status", PStr "ok") ]).

(** A ledger that accepts a commitment and names nothing. *)
Definition ledger_names_nothing : string -> Z -> MidnightClient.outcome :=
  fun _ _ =>
    MidnightClient.Returned
      (PDict [ ("tx_id", PStr "tx-abc"); ("status", PStr "ok") ]).

Definition cycle_with (client : string -> Z -> MidnightClient.outcome)
    (now : Z) : cycle_env :=
  {| env_analysis := buy_signal;
     env_urandom_hex := salt_hex;
     env_commit_signal := client;
     env_now := now |}.

(** The default configuration with room for one commitment. *)
Definition one_slot : AgentConfig :=
  {| name := name default_config;
     signal_interval := signal_interval default_config;
     default_stake := default_stake default_config;
     reveal_delay := reveal_delay default_config;
     max_active_commitments := 1;
     strategy_type := strategy_type default_config;
     min_confidence := min_confidence default_config;
     pairs := pairs default_config;
     api_url := api_url default_config |}.

Definition reveal_fails
  : nat -> value -> dict -> string -> MidnightClient.outcome :=
  fun _ _ _ _ => MidnightClient.Raised RequestException.

Definition reveal_verifies
  : nat -> value -> dict -> string -> MidnightClient.outcome :=
  fun _ id _ _ =>
    MidnightClient.Returned
      (PDict [ ("commitment_id", id); ("status", PStr "revealed");
               ("verified", PBool true) ]).

(** The commitment a cycle makes of [buy_signal] at time [now] when the
    id is [id]. *)
Definition commitment_of (id : value) (now : Z) : ActiveCommitment :=
  {| commitment_id := id;
     commitment_hash := CommitReveal.hash_signal buy_signal salt_hex;
     salt := salt_hex;
     signal := buy_signal;
     stake := 100;
     committed_at := now;
     reveal_after := now + 60 |}.

(** The same commitment made with another salt. *)
Definition other_salt_hex : string :=
  "0123456789abcdef0123456789abcdef0123456789abcdef0123456789abcdef".


(** The default configuration with no delay before the reveal. *)
Definition no_delay : AgentConfig :=
  {| name := name default_config;
     signal_interval := signal_interval default_config;
     default_stake := default_stake default_config;
     reveal_delay := 0;
     max_active_commitments := max_active_commitments default_config;
     strategy_type := strategy_type default_config;
     min_confidence := min_confidence default_config;
     pairs := pairs default_config;
     api_url := api_url default_config |}.

(** The signal of [test_deterministic_hash]. *)
Definition eth_signal : dict :=
  [ ("direction", PStr "buy"); ("pair", PStr "ETH/USD");
    ("confidence", PFloat (FFinite (7 # 10) "0.7")) ].

(** An agent two of whose reveals came back, one of them verified. *)
Definition half_verified : GhostAgent :=
  {| config := default_config;
     active_commitments := [];
     total_committed := 2;
     total_revealed := 2;
     total_verified := 1 |}.

End Scenario.

(** ** [midnight_client.py]: the constructor and the endpoints *)

Module Endpoints.
Import Py.

(** [s.rstrip(c)] for the one character [c]. *)
Fixpoint rstrip (c : ascii) (s : string) : string :=
  match s with
  | EmptyString => EmptyString
  | String a rest =>
      match rstrip c rest with
      | EmptyString => if Ascii.eqb a c then EmptyString else String a EmptyString
      | kept => String a kept
      end
  end.

Definition slash : ascii := ascii_of_nat 47.

(** [n] slashes. *)
Fixpoint slashes (n : nat) : string :=
  match n with
  | O => EmptyString
  | S k => String slash (slashes k)
  end.

(** The fields [__init__] sets from its arguments. *)
Record client := {
  api_url : string;
  timeout : Z }.

(** [__init__(api_url, timeout=30)]. *)
Definition init (url : string) (seconds : option Z) : client :=
  {| api_url := rstrip slash url;
     timeout := match seconds with Some t => t | None => 30 end |}.

(** The URLs the three requests go to. *)
Definition commit_url (self : client) : string :=
  (api_url self ++ "/api/commit")%string.
Definition reveal_url (self : client) : string :=
  (api_url self ++ "/api/reveal")%string.
Definition stats_url (self : client) : string :=
  (api_url self ++ "/api/stats")%string.

(** [get_marketplace_stats()]: the decoded reply, or [None] on any
    [RequestException], a connection error included. *)
Definition get_marketplace_stats (net : MidnightClient.transport) : value :=
  match net with
  | MidnightClient.Responded body => body
  | MidnightClient.ConnectionError => PNone
  | MidnightClient.OtherRequestError => PNone
  end.

End Endpoints.

(** ** [ghost_agent.py]: one pass of the loop of [run] *)

Module Loop.
Import Py Agent.

(** The [for pair in self.config.pairs] loop. [world k symbol] is what the
    cycle of the [k]-th pair finds: the market data the client hands out
    is never empty, so [run_cycle] is called for every pair, until one
    call raises. *)
Fixpoint run_pairs (world : nat -> string -> cycle_env) (k : nat)
    (pairs : list string) (self : GhostAgent) : option pyexn * GhostAgent :=
  match pairs with
  | [] => (None, self)
  | symbol :: rest =>
      match run_cycle (world k symbol) self with
      | (CycleRaised e, self1) => (Some e, self1)
      | (_, self1) => run_pairs world (S k) rest self1
      end
  end.

(** One pass of the [while True] body: the reveals, then a cycle per
    pair, then the sleep; an exception ends the pass and is followed by a
    sleep of 30 seconds. The result tells the exception caught, if any,
    the seconds slept and the agent. *)
Definition run_pass (now : Z)
    (reveal_client : nat -> value -> dict -> string -> MidnightClient.outcome)
    (world : nat -> string -> cycle_env) (self : GhostAgent)
  : option pyexn * Z * GhostAgent :=
  let '(e, _, self1) := process_reveals now reveal_client self in
  match e with
  | Some x => (Some x, 30, self1)
  | None =>
      match run_pairs world 0 (pairs (config self1)) self1 with
      | (Some x, self2) => (Some x, 30, self2)
      | (None, self2) => (None, signal_interval (config self2), self2)
      end
  end.

(** What holds of a record that [run_cycle] made under the
    configuration [cfg]. *)
Definition consistent (cfg : AgentConfig) (c : ActiveCommitment) : Prop :=
  reveal_after c = committed_at c + reveal_delay cfg /\
  stake c = default_stake cfg /\
  commitment_id c <> PNone /\
  CommitReveal.verify_commitment (commitment_hash c) (signal c) (salt c) = true.

(** The ledger never answers a commit with a null id. *)
Definition names_its_commits (env : cycle_env) : Prop :=
  forall h amount result,
    env_commit_signal env h amount = MidnightClient.Returned (PDict result) ->
    dict_get result "commitment_id" <> Some PNone.

(** The worlds of the [run_cycle] calls of a run. *)
Fixpoint cycles_of (calls : list call) : list cycle_env :=
  match calls with
  | [] => []
  | RunCycle env :: rest => env :: cycles_of rest
  | ProcessReveals _ _ :: rest => cycles_of rest
  end.

(** The ledger never answers a reveal with [null]: the object the
    client's [reveal_signal] returns is never [None]. *)
Definition answers_reveals
    (client : nat -> value -> dict -> string -> MidnightClient.outcome) : Prop :=
  forall k id sig s, client k id sig s <> MidnightClient.Returned PNone.

(** The reveal clients of the [process_reveals] calls of a run. *)
Fixpoint reveals_of (calls : list call)
  : list (nat -> value -> dict -> string -> MidnightClient.outcome) :=
  match calls with
  | [] => []
  | RunCycle _ :: rest => reveals_of rest
  | ProcessReveals _ client :: rest => client :: reveals_of rest
  end.

Definition not_ready (now : Z) (c : ActiveCommitment) : bool :=
  negb (is_ready now c).

(** The [reveal_signal] method of a client over the transport [net]. *)
Definition reveal_over (net : nat -> MidnightClient.transport)
  : nat -> value -> dict -> string -> MidnightClient.outcome :=
  fun k => MidnightClient.reveal_signal (net k).

(** The fields the log line of [generate_signal] reads. *)
Definition logged_fields : list string :=
  ["direction"; "pair"; "target_price"; "confidence"].

Definition has_field (d : dict) (key : string) : bool :=
  match dict_get d key with
  | Some _ => true
  | None => false
  end.

End Loop.

(** ** [scripts/generate-demo-data.py] *)

Module DemoData.
Import Py.

Definition PAIRS : list string := ["BTC/USD"; "ETH/USD"; "SOL/USD"; "ADA/USD"].
Definition DIRECTIONS : list string := ["buy"; "sell"; "hold"].
Definition STAKES : list Z := [50; 100; 200; 500].
Definition STRATEGY_TYPES : list string := ["momentum"; "mean_reversion"; "random"].

(** [random.choice(seq)] when the generator picks the index [i]. *)
Definition choice {A : Type} (seq : list A) (default : A) (i : nat) : A :=
  nth (i mod List.length seq) seq default.

Fixpoint zeros (n : nat) : string :=
  match n with
  | O => EmptyString
  | S k => String "0" (zeros k)
  end.

(** [f"{i:03d}"] for [i >= 0]: the decimal digits, with zeros in front
    up to three characters. *)
Definition format_03d (i : nat) : string :=
  let digits := NilZero.string_of_uint (Nat.to_uint i) in
  (zeros (3 - String.length digits) ++ digits)%string.

(** What [random] picks for one agent: the indices of its pair, stake and
    strategy type. *)
Record agent_picks := {
  pick_pair : nat;
  pick_stake : nat;
  pick_strategy : nat }.

(** The name of the [i]-th agent. [names] is the table [AGENT_NAMES],
    whose five entries end in Greek letters, outside of the code points
    a [string] holds here. *)
Definition agent_name (names : list string) (i : nat) : string :=
  match nth_error names i with
  | Some n => n
  | None => ("Agent-" ++ format_03d i)%string
  end.

Definition demo_agent (names : list string) (picks : nat -> agent_picks)
    (i : nat) : dict :=
  [ ("id", PStr ("demo-agent-" ++ format_03d i)%string);
    ("name", PStr (agent_name names i));
    ("pair", PStr (choice PAIRS EmptyString (pick_pair (picks i))));
    ("stake", PInt (choice STAKES 0 (pick_stake (picks i))));
    ("strategy_type",
     PStr (choice STRATEGY_TYPES EmptyString (pick_strategy (picks i)))) ].

(** [generate_agents(count)]. *)
Definition generate_agents (names : list string) (picks : nat -> agent_picks)
    (count : Z) : list dict :=
  map (demo_agent names picks) (seq 0 (Z.to_nat count)).

(** What [random], the clock and [os.urandom] give for one commitment. *)
Record signal_picks := {
  pick_direction : nat;
  pick_confidence : pyfloat;     (* round(random.uniform(0.5, 0.99), 2) *)
  pick_timestamp : string;
  pick_salt : string }.

(** [generate_signal(pair)]. *)
Definition generate_signal (picks : signal_picks) (traded : value) : dict :=
  [ ("pair", traded);
    ("direction", PStr (choice DIRECTIONS EmptyString (pick_direction picks)));
    ("confidence", PFloat (pick_confidence picks));
    ("timestamp", PStr (pick_timestamp picks)) ].

(** [CommitReveal.create_commitment(signal, salt)] as an object: the
    tuple of the hash and the salt. *)
Definition create_commitment (signal : dict) (salt : string) : value :=
  let '(commitment, salt) :=
    CommitReveal.create_commitment salt signal (Some salt) in
  PTuple [PStr commitment; PStr salt].

(** [CommitReveal.verify_commitment] on arguments of any type: the
    payload is a [str] plus [salt], a [TypeError] unless [salt] is a
    [str], and a hash equals a [str] only. *)
Definition verify_commitment (commitment_hash signal salt : value)
  : bool + pyexn :=
  match salt with
  | PStr s =>
      let payload := (Json.dumps signal ++ s)%string in
      let recomputed := Sha256.hexdigest (Text.utf8 payload) in
      inl (match commitment_hash with
           | PStr h => String.eqb recomputed h
           | _ => false
           end)
  | _ => inr TypeError
  end.

(** [generate_commitments(agents)]; [picks k] is what the [k]-th pass of
    the loop draws. The script passes [signal, salt, commitment_hash] to
    [verify_commitment], in that order. *)
Fixpoint generate_commitments (picks : nat -> signal_picks) (k : nat)
    (agents : list dict) : list dict + pyexn :=
  match agents with
  | [] => inl []
  | agent :: rest =>
      match dict_get agent "pair" with
      | None => inr KeyError
      | Some traded =>
          let signal := generate_signal (picks k) traded in
          let salt := pick_salt (picks k) in
          let commitment_hash := create_commitment signal salt in
          match verify_commitment (PDict signal) (PStr salt) commitment_hash with
          | inr e => inr e
          | inl verified =>
              match generate_commitments picks (S k) rest with
              | inr e => inr e
              | inl others =>
                  inl ([ ("agent", PDict agent);
                         ("signal", PDict signal);
                         ("salt", PStr salt);
                         ("commitment_hash", commitment_hash);
                         ("verified", PBool verified) ] :: others)
              end
          end
      end
  end.

(** The text of a decimal number, read back. *)
Definition read_decimal (s : string) : option nat :=
  option_map Nat.of_uint (NilEmpty.uint_of_string s).

End DemoData.

(** ** Counting texts *)

Module Counting.

(** The texts of [n] characters over an alphabet. *)
Fixpoint texts (alphabet : list ascii) (n : nat) : list string :=
  match n with
  | O => [EmptyString]
  | S k => flat_map (fun c => map (String c) (texts alphabet k)) alphabet
  end.

Definition hex_alphabet : list ascii := list_ascii_of_string "0123456789abcdef".

Definition bit_alphabet : list ascii := list_ascii_of_string "01".

(** A decision with one field. *)
Definition note (x : string) : Py.dict := [ ("note", Py.PStr x) ].

End Counting.

(** ** Character classes *)

Module Charset.

(** One of [0123456789abcdef]. *)
Definition lower_hex (c : ascii) : bool :=
  let n := Text.code c in
  ((48 <=? n) && (n <=? 57)) || ((97 <=? n) && (n <=? 102)).

Fixpoint all_chars (p : ascii -> bool) (s : string) : bool :=
  match s with
  | EmptyString => true
  | String c rest => p c && all_chars p rest
  end.

End Charset.

(** * Properties *)

(** ** The models of the library functions, on known answers *)

Example sha256_abc :
  Sha256.hexdigest (Text.utf8 "abc") =
  "ba7816bf8f01cfea414140de5dae2223b00361a396177a9cb410ff61f20015ad".
Proof. vm_compute. reflexivity. Qed.

Example sha256_empty :
  Sha256.hexdigest [] =
  "e3b0c44298fc1c149afbf4c8996fb92427ae41e4649b934ca495991b7852b855".
Proof. vm_compute. reflexivity. Qed.

(** The fixture of the test suite: the signal of [test_deterministic_hash]
    with the salt ["deadbeef" * 8]. *)
Example dumps_fixture :
  Json.dumps (Py.PDict Scenario.eth_signal) =
  ("{" ++ Json.dquote ++ "confidence" ++ Json.dquote ++ ": 0.7, "
       ++ Json.dquote ++ "direction" ++ Json.dquote ++ ": "
       ++ Json.dquote ++ "buy" ++ Json.dquote ++ ", "
       ++ Json.dquote ++ "pair" ++ Json.dquote ++ ": "
       ++ Json.dquote ++ "ETH/USD" ++ Json.dquote ++ "}")%string.
Proof. vm_compute. reflexivity. Qed.

(** ** Strings: order and UTF-8 *)

Section StringOrder.

Lemma leb_iff (a b : string) :
  String.leb a b = true <-> a = b \/ String_as_OT.lt a b.
Proof.
  unfold String.leb.
  destruct (String.compare a b) eqn:E; split; intro H; try reflexivity.
  - left. apply String_as_OT.cmp_eq. exact E.
  - right. apply String_as_OT.cmp_lt. exact E.
  - discriminate.
  - destruct H as [H | H].
    + apply String_as_OT.cmp_eq in H. unfold String_as_OT.cmp in H. congruence.
    + apply String_as_OT.cmp_lt in H. unfold String_as_OT.cmp in H. congruence.
Qed.

Lemma leb_trans (a b c : string) :
  String.leb a b = true -> String.leb b c = true -> String.leb a c = true.
Proof.
  rewrite !leb_iff. intros [-> | Hab] [-> | Hbc]; auto.
  right. eapply String_as_OT.lt_trans; eassumption.
Qed.

Lemma leb_false_flip (a b : string) :
  String.leb a b = false -> String.leb b a = true.
Proof.
  intro H. destruct (String.leb_total a b) as [E | E]; congruence.
Qed.

Lemma append_cancel_l (p s s' : string) :
  (p ++ s)%string = (p ++ s')%string -> s = s'.
Proof.
  induction p as [| c p IH]; simpl; intro H.
  - exact H.
  - injection H as H. auto.
Qed.

Lemma length_append (p s : string) :
  String.length (p ++ s)%string = (String.length p + String.length s)%nat.
Proof. induction p as [| c p IH]; simpl; [reflexivity | rewrite IH; reflexivity]. Qed.

Lemma append_cancel_r (p p' s : string) :
  (p ++ s)%string = (p' ++ s)%string -> p = p'.
Proof.
  intro H.
  assert (L : String.length p = String.length p').
  { apply (f_equal String.length) in H.
    rewrite !length_append in H. lia. }
  revert p' H L. induction p as [| c p IH]; intros [| c' p'] H L;
    simpl in *; try discriminate; try reflexivity.
  injection H as -> H. f_equal. apply IH; [exact H | lia].
Qed.

End StringOrder.

(** ** Sorting the items of a dict *)

Section SortItems.
Context {A : Type}.
Implicit Types (kv : string * A) (l : list (string * A)).

Lemma insert_item_perm kv l : Permutation (kv :: l) (Json.insert_item kv l).
Proof.
  induction l as [| x l IH]; simpl.
  - apply Permutation_refl.
  - destruct (String.leb (fst kv) (fst x)).
    + apply Permutation_refl.
    + eapply perm_trans; [apply perm_swap | apply perm_skip, IH].
Qed.

Lemma sort_items_perm l : Permutation l (Json.sort_items l).
Proof.
  induction l as [| x l IH]; simpl.
  - apply perm_nil.
  - eapply perm_trans; [apply perm_skip, IH | apply insert_item_perm].
Qed.

(** Two keys in both orders: only for one key. *)
Ltac same_key :=
  match goal with
  | H1 : String.leb ?a ?b = true, H2 : String.leb ?b ?a = true |- _ =>
      pose proof (String.leb_antisym _ _ H1 H2); congruence
  end.

Ltac flip_all :=
  repeat match goal with
    | H : String.leb _ _ = false |- _ => apply leb_false_flip in H
    end.

Ltac chain :=
  match goal with
  | H1 : String.leb ?a ?b = true, H2 : String.leb ?b ?c = true |- _ =>
      pose proof (leb_trans _ _ _ H1 H2); same_key
  end.

Lemma insert_item_comm a b l :
  fst a <> fst b ->
  Json.insert_item a (Json.insert_item b l) =
  Json.insert_item b (Json.insert_item a l).
Proof.
  intro Hne. induction l as [| x l IH]; simpl.
  - destruct (String.leb (fst a) (fst b)) eqn:Hab,
             (String.leb (fst b) (fst a)) eqn:Hba;
      try reflexivity; [same_key | flip_all; same_key].
  - destruct (String.leb (fst b) (fst x)) eqn:Hbx,
             (String.leb (fst a) (fst x)) eqn:Hax; simpl;
      rewrite ?Hbx, ?Hax;
      destruct (String.leb (fst a) (fst b)) eqn:Hab,
               (String.leb (fst b) (fst a)) eqn:Hba;
      try reflexivity; try same_key;
      try (rewrite IH; reflexivity);
      try (flip_all; first [same_key | chain]).
Qed.

Lemma sort_items_unique l l' :
  Permutation l l' -> NoDup (map fst l) ->
  Json.sort_items l = Json.sort_items l'.
Proof.
  induction 1 as [| x l l' Hp IH | x y l | l l' l'' Hp1 IH1 Hp2 IH2];
    simpl; intro Hnd.
  - reflexivity.
  - inversion Hnd; subst. rewrite IH by assumption. reflexivity.
  - apply insert_item_comm.
    inversion Hnd as [| ? ? Hin _]; subst.
    intro E. apply Hin. simpl. left. congruence.
  - rewrite IH1 by assumption. apply IH2.
    eapply Permutation_NoDup; [apply Permutation_map, Hp1 | exact Hnd].
Qed.

End SortItems.

(** ** Key order of a decision (C5) *)

Section KeyOrder.
Import Py.

Lemma distinct_NoDup (keys : list string) :
  distinct keys = true -> NoDup keys.
Proof.
  induction keys as [| k keys IH]; simpl; intro H.
  - constructor.
  - apply andb_prop in H as [Hk Hrest]. constructor; [| auto].
    intro Hin. apply negb_true_iff in Hk.
    assert (E : existsb (String.eqb k) keys = true).
    { apply existsb_exists. exists k. split; [exact Hin | apply String.eqb_refl]. }
    congruence.
Qed.

Lemma encode_item_keys (items : list (string * value)) :
  map fst (map Json.encode_item items) = map fst items.
Proof.
  induction items as [| [k x] items IH]; simpl; [reflexivity | now rewrite IH].
Qed.

Lemma map_related {A B : Type} (R : A -> A -> Prop) (f : A -> B)
    (good : A -> bool) (l l' : list A) :
  Forall2 R l l' ->
  Forall (fun x => forall y, R x y -> good x = true -> f x = f y) l ->
  forallb good l = true ->
  map f l = map f l'.
Proof.
  induction 1 as [| x y l l' Hxy Hrest IHl]; intros Hall Hgood; simpl.
  - reflexivity.
  - inversion Hall; subst. simpl in Hgood.
    apply andb_prop in Hgood as [Hx Hl].
    f_equal; auto.
Qed.

Lemma dumps_reordered (v : value) :
  forall v', reordered v v' -> distinct_keys v = true ->
             Json.dumps v = Json.dumps v'.
Proof.
  induction v as [| b | n | f | s | items IH | items IH | items IH]
    using value_ind;
    intros v' Hr Hd; inversion Hr; subst; try reflexivity.
  - (* list *)
    simpl. do 3 f_equal.
    eapply map_related; eauto.
  - (* tuple *)
    simpl. do 3 f_equal.
    eapply map_related; eauto.
  - (* dict *)
    simpl. do 4 f_equal.
    fold Json.encode_item.
    simpl in Hd. apply andb_prop in Hd as [Hkeys Hvals].
    assert (E : map Json.encode_item items = map Json.encode_item renewed).
    { eapply map_related; [eassumption | | exact Hvals].
      eapply Forall_impl; [| exact IH].
      intros [k x] Hx [k' y] [Hk Hxy] Hgood. simpl in *.
      subst k'. f_equal. auto. }
    rewrite E. apply sort_items_unique.
    + apply Permutation_map. assumption.
    + rewrite <- E, encode_item_keys. apply distinct_NoDup, Hkeys.
Qed.

(** C5. A decision whose dicts list the same key/value pairs in another
    order, at any depth, gets the same commitment for the same salt. *)
Theorem key_order_invariance (urandom_hex : string) (d d' : dict)
    (s : option string) :
  distinct_keys (PDict d) = true ->
  reordered (PDict d) (PDict d') ->
  CommitReveal.create_commitment urandom_hex d s =
  CommitReveal.create_commitment urandom_hex d' s.
Proof.
  intros Hd Hr. unfold CommitReveal.create_commitment.
  rewrite (dumps_reordered (PDict d) (PDict d') Hr Hd). reflexivity.
Qed.

End KeyOrder.

Lemma key_order_invariance_witness :
  let salt := "cafebabecafebabecafebabecafebabecafebabecafebabecafebabecafebabe" in
  let sig_a := [ ("pair", Py.PStr "BTC/USD"); ("direction", Py.PStr "buy");
                 ("confidence", Py.PFloat (Py.FFinite (1 # 2) "0.5")) ] in
  let sig_b := [ ("confidence", Py.PFloat (Py.FFinite (1 # 2) "0.5"));
                 ("direction", Py.PStr "buy"); ("pair", Py.PStr "BTC/USD") ] in
  Py.distinct_keys (Py.PDict sig_a) = true /\
  Py.reordered (Py.PDict sig_a) (Py.PDict sig_b) /\
  CommitReveal.create_commitment EmptyString sig_a (Some salt) =
  CommitReveal.create_commitment EmptyString sig_b (Some salt).
Proof.
  intros salt sig_a sig_b.
  assert (Hr : Py.reordered (Py.PDict sig_a) (Py.PDict sig_b)).
  { apply Py.reordered_dict with (renewed := sig_a).
    - repeat constructor.
    - change sig_b with (rev sig_a). apply Permutation_rev. }
  split; [reflexivity | split; [exact Hr |]].
  apply (key_order_invariance EmptyString sig_a sig_b (Some salt)); [reflexivity | exact Hr].
Defined.

(** ** Recomputing a commitment (C4) *)

Section Verify.
Import Py.

Lemma code_range (c : ascii) : 0 <= Text.code c < 256.
Proof.
  unfold Text.code. pose proof (N_ascii_bounded c). lia.
Qed.

Lemma code_inj (c c' : ascii) : Text.code c = Text.code c' -> c = c'.
Proof.
  unfold Text.code. intro H. apply N2Z.inj in H.
  rewrite <- (ascii_N_embedding c), <- (ascii_N_embedding c'). now rewrite H.
Qed.

Lemma cons_eq {A : Type} (x y : A) (l l' : list A) :
  x :: l = y :: l' -> x = y /\ l = l'.
Proof. intro H. injection H as H0 H1. auto. Qed.

(** Distinct texts have distinct UTF-8 encodings. *)
Lemma utf8_inj (s s' : string) : Text.utf8 s = Text.utf8 s' -> s = s'.
Proof.
  revert s'. induction s as [| c s IH]; intros [| c' s']; cbn [Text.utf8].
  - reflexivity.
  - destruct (Text.code c' <? 128); discriminate.
  - destruct (Text.code c <? 128); discriminate.
  - pose proof (code_range c) as Rc. pose proof (code_range c') as Rc'.
    destruct (Text.code c <? 128) eqn:L, (Text.code c' <? 128) eqn:L';
      intro H; apply cons_eq in H as [H0 H1].
    + f_equal; [apply code_inj, H0 | apply IH, H1].
    + apply Z.ltb_lt in L.
      assert (0 <= Text.code c' / 64) by (apply Z.div_pos; lia). lia.
    + apply Z.ltb_lt in L'.
      assert (0 <= Text.code c / 64) by (apply Z.div_pos; lia). lia.
    + apply cons_eq in H1 as [H1 H2].
      f_equal; [| apply IH, H2].
      apply code_inj.
      rewrite (Z.div_mod (Text.code c) 64), (Z.div_mod (Text.code c') 64) by lia.
      lia.
Qed.

Lemma create_commitment_digest (urandom_hex : string) (d : dict) (s : string) :
  CommitReveal.create_commitment urandom_hex d (Some s) =
  (CommitReveal.hash_signal d s, s).
Proof. reflexivity. Qed.

Lemma verify_commitment_iff (h : string) (d : dict) (s : string) :
  CommitReveal.verify_commitment h d s = true <-> CommitReveal.hash_signal d s = h.
Proof. unfold CommitReveal.verify_commitment. apply String.eqb_eq. Qed.

End Verify.

(** ** Decisions that cannot be serialised (C6) *)

Section Cycles.
Import Py ObjectGraph.

Lemma sequence_ok {A B : Type} (f : A -> result B) (l : list A) (ys : list B) :
  sequence (map f l) = Ok ys -> Forall (fun x => exists y, f x = Ok y) l.
Proof.
  revert ys. induction l as [| x l IH]; simpl; intros ys H.
  - constructor.
  - destruct (f x) as [y | e] eqn:Ex; simpl in H; [| discriminate].
    destruct (sequence (map f l)) as [ys' | e] eqn:El; simpl in H; [| discriminate].
    constructor; eauto.
Qed.

Lemma sequence_fail {A B : Type} (f : A -> result B) (l : list A) (e : failure) :
  sequence (map f l) = Fail e -> exists x, In x l /\ f x = Fail e.
Proof.
  induction l as [| x l IH]; simpl; intro H.
  - discriminate.
  - destruct (f x) as [y | e'] eqn:Ex; simpl in H.
    + destruct (sequence (map f l)) as [ys' | e'] eqn:El; simpl in H;
        [discriminate |].
      injection H as ->. destruct (IH eq_refl) as (x' & Hin & Hx').
      exists x'. auto.
    + injection H as ->. exists x. auto.
Qed.

Lemma marker_absent (a : nat) (markers : list nat) :
  existsb (Nat.eqb a) markers = false -> ~ In a markers.
Proof.
  intros H Hin.
  assert (E : existsb (Nat.eqb a) markers = true).
  { apply existsb_exists. exists a. split; [exact Hin | apply Nat.eqb_refl]. }
  congruence.
Qed.

(** An encoding that succeeds has walked the whole unfolding. *)
Lemma encode_ok_unfolds (h : heap) (depth : nat) :
  forall markers n text,
    encode depth h markers n = Ok text -> unfolds h depth n.
Proof.
  induction depth as [| d IH]; intros markers [v | a] text H; simpl in *;
    try exact I.
  - destruct (existsb (Nat.eqb a) markers); discriminate.
  - destruct (existsb (Nat.eqb a) markers); [discriminate |].
    destruct (nth_error h a) as [[items | items] |]; [| | discriminate].
    + destruct (sequence (map (encode d h (a :: markers)) items)) as [ts | e] eqn:E;
        simpl in H; [| discriminate].
      apply sequence_ok in E. simpl.
      eapply Forall_impl; [| exact E]. intros x [y Hy]. eauto.
    + match type of H with
      | bind (sequence (map ?f _)) _ = _ =>
          destruct (sequence (map f (Json.sort_items items))) as [ts | e] eqn:E
      end; simpl in H; [| discriminate].
      apply sequence_ok in E. simpl.
      apply Forall_map.
      eapply Permutation_Forall; [apply Permutation_sym, sort_items_perm |].
      eapply Forall_impl; [| exact E]. intros [k x] [y Hy]. simpl in *.
      destruct (encode d h (a :: markers) x) eqn:Ex; [| discriminate]. eauto.
Qed.

Lemma unfolds_holds (h : heap) (d a b : nat) :
  unfolds h (S d) (Ref a) -> holds h a b -> unfolds h d (Ref b).
Proof.
  simpl. intros H (c & Hc & Hin). rewrite Hc in H.
  rewrite Forall_forall in H. apply H. exact Hin.
Qed.

Lemma unfolds_reaches (h : heap) (a b : nat) :
  reaches h a b ->
  forall d, unfolds h d (Ref a) -> exists d', (d' <= d)%nat /\ unfolds h d' (Ref b).
Proof.
  induction 1 as [a | a b c Hab Hbc IH]; intros d H.
  - exists d. split; [lia | exact H].
  - destruct d as [| d]; [contradiction |].
    destruct (IH d (unfolds_holds _ _ _ _ H Hab)) as (d' & Hle & Hd').
    exists d'. split; [lia | exact Hd'].
Qed.

(** A container on a cycle has no finite unfolding. *)
Lemma cycle_never_unfolds (h : heap) (a b : nat) :
  holds h a b -> reaches h b a -> forall d, ~ unfolds h d (Ref a).
Proof.
  intros Hab Hba d.
  induction d as [d IH] using (well_founded_induction lt_wf).
  intro H. destruct d as [| d]; [contradiction |].
  destruct (unfolds_reaches _ _ _ Hba d (unfolds_holds _ _ _ _ H Hab))
    as (d' & Hle & Hd').
  apply (IH d'); [lia | exact Hd'].
Qed.

Lemma cyclic_never_encodes (h : heap) (root : nat) :
  cyclic h root ->
  forall depth markers text, encode depth h markers (Ref root) <> Ok text.
Proof.
  intros (a & b & Hra & Hab & Hba) depth markers text H.
  apply encode_ok_unfolds in H.
  destruct (unfolds_reaches _ _ _ Hra _ H) as (d' & _ & Hd').
  exact (cycle_never_unfolds _ _ _ Hab Hba d' Hd').
Qed.

Lemma markers_fit (n : nat) (markers : list nat) :
  NoDup markers -> (forall m, In m markers -> (m < n)%nat) ->
  (List.length markers <= n)%nat.
Proof.
  intros Hnd Hlt.
  rewrite <- (length_seq n 0). apply NoDup_incl_length; [exact Hnd |].
  intros m Hm. apply in_seq. specialize (Hlt m Hm). lia.
Qed.

(** With every reference inside the heap and room for one level per
    container, the only failure is the circular reference. *)
Lemma encode_fails_circular (h : heap) (Hclosed : closed h) (depth : nat) :
  forall markers n e,
    NoDup markers ->
    (forall m, In m markers -> (m < List.length h)%nat) ->
    (forall a, n = Ref a -> (a < List.length h)%nat) ->
    (List.length h < depth + List.length markers)%nat ->
    encode depth h markers n = Fail e ->
    e = CircularReference.
Proof.
  induction depth as [| d IH]; intros markers [v | a] e Hnd Hm Hn Hroom H;
    simpl in H; try discriminate.
  - destruct (existsb (Nat.eqb a) markers) eqn:Hseen; [congruence |].
    exfalso. apply marker_absent in Hseen.
    assert (L : (List.length (a :: markers) <= List.length h)%nat).
    { apply markers_fit; [constructor; assumption |].
      intros m [<- | Hin]; auto. }
    simpl in *. lia.
  - destruct (existsb (Nat.eqb a) markers) eqn:Hseen; [congruence |].
    apply marker_absent in Hseen.
    assert (Hnd' : NoDup (a :: markers)) by (constructor; assumption).
    assert (Hm' : forall m, In m (a :: markers) -> (m < List.length h)%nat).
    { intros m [<- | Hin]; auto. }
    assert (Hroom' : (List.length h < d + List.length (a :: markers))%nat)
      by (simpl; lia).
    destruct (nth_error h a) as [c |] eqn:Hc.
    2:{ apply nth_error_None in Hc. specialize (Hn a eq_refl). lia. }
    assert (Hkids : forall x b, In x (children c) -> x = Ref b ->
                                (b < List.length h)%nat).
    { intros x b Hin ->. apply (Hclosed a b). exists c. auto. }
    destruct c as [items | items].
    + destruct (sequence (map (encode d h (a :: markers)) items)) as [ts | e'] eqn:E;
        simpl in H; [discriminate |].
      injection H as ->. apply sequence_fail in E as (x & Hin & Hx).
      eapply (IH (a :: markers) x); eauto.
    + match type of H with
      | bind (sequence (map ?f _)) _ = _ =>
          destruct (sequence (map f (Json.sort_items items))) as [ts | e'] eqn:E
      end; simpl in H; [discriminate |].
      injection H as ->. apply sequence_fail in E as ([k x] & Hin & Hx).
      simpl in Hx.
      destruct (encode d h (a :: markers) x) as [t | e'] eqn:Ex; simpl in Hx;
        [discriminate |].
      injection Hx as ->.
      eapply (IH (a :: markers) x); eauto.
      intros b ->. apply (Hkids (Ref b) b); [| reflexivity].
      simpl. apply in_map_iff. exists (k, Ref b). split; [reflexivity |].
      eapply Permutation_in; [apply Permutation_sym, sort_items_perm | exact Hin].
Qed.

Lemma hex_fixed_length (width : nat) (n : Z) :
  String.length (Text.hex_fixed width n) = width.
Proof. induction width as [| w IH]; simpl; [reflexivity | now rewrite IH]. Qed.

Lemma hexdigest_length (msg : list Z) :
  String.length (Sha256.hexdigest msg) = 64%nat.
Proof.
  unfold Sha256.hexdigest. cbv zeta.
  rewrite !length_append, !hex_fixed_length. reflexivity.
Qed.

End Cycles.

(** *** The heap encoder writes what the tree encoder writes *)

Section Agreement.
Import Py ObjectGraph.

Lemma insert_item_map {A B : Type} (f : A -> B) (kv : string * A)
    (l : list (string * A)) :
  Json.insert_item (fst kv, f (snd kv)) (map (fun x => (fst x, f (snd x))) l) =
  map (fun x => (fst x, f (snd x))) (Json.insert_item kv l).
Proof.
  induction l as [| y l IH]; simpl; [reflexivity |].
  destruct (String.leb (fst kv) (fst y)); simpl; [reflexivity | now rewrite IH].
Qed.

Lemma sort_items_map {A B : Type} (f : A -> B) (l : list (string * A)) :
  Json.sort_items (map (fun x => (fst x, f (snd x))) l) =
  map (fun x => (fst x, f (snd x))) (Json.sort_items l).
Proof.
  induction l as [| kv l IH]; simpl; [reflexivity |].
  rewrite IH. apply insert_item_map.
Qed.

Lemma encode_item_eta (items : list (string * value)) :
  map Json.encode_item items = map (fun x => (fst x, Json.dumps (snd x))) items.
Proof. apply map_ext. intros [k x]. reflexivity. Qed.

Lemma encode_leaf (d : nat) (h : heap) (markers : list nat) (v : value) :
  encode d h markers (Leaf v) = Ok (Json.dumps v).
Proof. destruct d; reflexivity. Qed.

Lemma sequence_leaves (d : nat) (h : heap) (markers : list nat)
    (items : list (string * value)) :
  sequence (map (fun kv => text <- encode d h markers (snd kv) ;; Ok (fst kv, text))
                (map (fun kv => (fst kv, Leaf (snd kv))) items)) =
  Ok (map Json.encode_item items).
Proof.
  induction items as [| [k x] items IH]; [reflexivity |].
  cbn [map sequence fst snd]. rewrite encode_leaf. cbn [bind].
  rewrite IH. reflexivity.
Qed.

(** A dict that shares nothing is encoded to the text of [Json.dumps],
    and committed to the digest of [CommitReveal.create_commitment]. *)
Lemma heap_agrees_with_tree (d : nat) (h : heap) (a : nat) (items : dict)
    (salt : string) :
  nth_error h a = Some (of_dict items) ->
  encode (S d) h [] (Ref a) = Ok (Json.dumps (PDict items)) /\
  ObjectGraph.create_commitment (S d) h a salt =
  Ok (CommitReveal.create_commitment EmptyString items (Some salt)).
Proof.
  intro Ha.
  assert (E : encode (S d) h [] (Ref a) = Ok (Json.dumps (PDict items))).
  { cbn [encode existsb]. rewrite Ha. unfold of_dict.
    rewrite (sort_items_map Leaf), sequence_leaves. cbn [bind Json.dumps].
    fold Json.encode_item.
    rewrite !encode_item_eta, (sort_items_map Json.dumps). reflexivity. }
  split; [exact E |].
  unfold ObjectGraph.create_commitment, CommitReveal.create_commitment.
  rewrite E. reflexivity.
Qed.

End Agreement.

Section NonCanonical.
Import Py ObjectGraph.

Lemma non_finite_is_encoded :
  Json.dumps (PFloat FNaN) = "NaN" /\
  Json.dumps (PFloat FInfinity) = "Infinity" /\
  Json.dumps (PFloat FNegInfinity) = "-Infinity" /\
  (forall urandom_hex d s,
     String.length (fst (CommitReveal.create_commitment urandom_hex d s)) = 64%nat).
Proof.
  split; [reflexivity | split; [reflexivity | split; [reflexivity |]]].
  intros urandom_hex d s.
  unfold CommitReveal.create_commitment. simpl fst. apply hexdigest_length.
Qed.

(** C6, as the code has it. A decision that contains a cyclic structure
    makes [create_commitment] fail with the encoder's circular-reference
    [ValueError], at any depth that has room for the heap, and gives no
    digest at any depth. A number that is not finite is not refused: the
    encoder writes [NaN], [Infinity] or [-Infinity], and a decision that
    is a tree always gets a digest of 64 characters. *)
Theorem cyclic_decision_rejected (h : heap) (root : nat) (salt : string)
    (depth : nat) :
  closed h ->
  (root < List.length h)%nat ->
  cyclic h root ->
  (List.length h < depth)%nat ->
  ObjectGraph.create_commitment depth h root salt = Fail CircularReference /\
  (forall d r, ObjectGraph.create_commitment d h root salt <> Ok r) /\
  Json.dumps (PFloat FNaN) = "NaN" /\
  Json.dumps (PFloat FInfinity) = "Infinity" /\
  Json.dumps (PFloat FNegInfinity) = "-Infinity" /\
  (forall urandom_hex d s,
     String.length (fst (CommitReveal.create_commitment urandom_hex d s)) = 64%nat).
Proof.
  intros Hclosed Hroot Hcyc Hdepth. unfold ObjectGraph.create_commitment.
  split; [| split; [| exact non_finite_is_encoded]].
  - destruct (encode depth h [] (Ref root)) as [text | e] eqn:E; simpl.
    + exfalso. exact (cyclic_never_encodes h root Hcyc _ _ _ E).
    + f_equal.
      apply (encode_fails_circular h Hclosed depth [] (Ref root) e);
        try assumption.
      * constructor.
      * intros m [].
      * intros a Ha. injection Ha as <-. exact Hroot.
      * simpl. lia.
  - intros d r H.
    destruct (encode d h [] (Ref root)) as [text | e] eqn:E; simpl in H;
      [| discriminate].
    exact (cyclic_never_encodes h root Hcyc _ _ _ E).
Qed.

Lemma cyclic_decision_rejected_witness :
  closed self_containing /\
  cyclic self_containing 0 /\
  ObjectGraph.create_commitment 2 self_containing 0 "deadbeef"
    = Fail CircularReference.
Proof.
  assert (Hholds : forall a b, holds self_containing a b -> a = 0%nat /\ b = 0%nat).
  { intros a b (c & Hc & Hin). destruct a as [| [| a]]; simpl in Hc;
      try discriminate.
    injection Hc as <-. simpl in Hin. destruct Hin as [E | []].
    injection E as <-. auto. }
  assert (H00 : holds self_containing 0 0).
  { exists (DictObject [("self", Ref 0)]). simpl. auto. }
  assert (Hclosed : closed self_containing).
  { intros a b Hab. apply Hholds in Hab as [_ ->]. simpl. lia. }
  assert (Hcyc : cyclic self_containing 0).
  { exists 0%nat, 0%nat. repeat split; try exact H00; constructor. }
  split; [exact Hclosed | split; [exact Hcyc |]].
  refine (proj1 (cyclic_decision_rejected self_containing 0 "deadbeef" 2
                   Hclosed _ Hcyc _)); simpl; lia.
Defined.

(** C6 as stated fails: a decision with a NaN and an infinity is given
    a digest. *)
Lemma non_finite_decision_is_committed :
  let d := [ ("direction", PStr "BUY"); ("pair", PStr "BTC/USD");
             ("confidence", PFloat FNaN); ("target_price", PFloat FInfinity) ] in
  let salt := "deadbeefdeadbeefdeadbeefdeadbeefdeadbeefdeadbeefdeadbeefdeadbeef" in
  has_non_finite (PDict d) = true /\
  CommitReveal.create_commitment EmptyString d (Some salt) =
  ("a8dc82783e540d8bf1e515bf476114bfad39d45c4ac49b285da614dea51adab3", salt).
Proof. split; vm_compute; reflexivity. Qed.

End NonCanonical.

(** ** Equality of values and of commitment records *)

Section Equality.
Import Py Agent.

Lemma float_eqb_eq (f g : pyfloat) : float_eqb f g = true <-> f = g.
Proof.
  destruct f as [[n d] r | | |], g as [[n' d'] r' | | |]; simpl;
    split; intro H; try discriminate; try reflexivity.
  - apply andb_prop in H as [H Hr]. apply andb_prop in H as [Hn Hd].
    apply Z.eqb_eq in Hn. apply Pos.eqb_eq in Hd. apply String.eqb_eq in Hr.
    congruence.
  - injection H as -> -> ->.
    now rewrite Z.eqb_refl, Pos.eqb_refl, String.eqb_refl.
Qed.

Lemma value_eqb_list (l : list value) :
  Forall (fun x => forall y, value_eqb x y = true <-> x = y) l ->
  forall l', value_eqb (PList l) (PList l') = true <-> l = l'.
Proof.
  induction 1 as [| x l Hx Hl IH]; intros [| y l']; simpl;
    try (split; [discriminate | discriminate]); try tauto.
  specialize (IH l'). simpl in IH.
  rewrite andb_true_iff, Hx, IH. split.
  - intros [-> ->]. reflexivity.
  - intro E. injection E as -> ->. auto.
Qed.

Lemma value_eqb_items (l : list (string * value)) :
  Forall (fun kv => forall y, value_eqb (snd kv) y = true <-> snd kv = y) l ->
  forall l', value_eqb (PDict l) (PDict l') = true <-> l = l'.
Proof.
  induction 1 as [| [k x] l Hx Hl IH]; intros [| [k' y] l']; simpl;
    try (split; [discriminate | discriminate]); try tauto.
  specialize (IH l'). simpl in IH, Hx.
  rewrite !andb_true_iff, Hx, IH, String.eqb_eq. split.
  - intros [[-> ->] ->]. reflexivity.
  - intro E. injection E as -> -> ->. auto.
Qed.

Lemma value_eqb_eq (a : value) : forall b, value_eqb a b = true <-> a = b.
Proof.
  induction a as [| x | x | x | x | items IH | items IH | items IH]
    using value_ind; intros [| y | y | y | y | items' | items' | items'];
    try (simpl; split; [discriminate | discriminate]);
    try (simpl; tauto).
  - simpl. rewrite Bool.eqb_true_iff. split; congruence.
  - simpl. rewrite Z.eqb_eq. split; congruence.
  - simpl. rewrite float_eqb_eq. split; congruence.
  - simpl. rewrite String.eqb_eq. split; congruence.
  - rewrite (value_eqb_list items IH items'). split; congruence.
  - change (value_eqb (PTuple items) (PTuple items'))
      with (value_eqb (PList items) (PList items')).
    rewrite (value_eqb_list items IH items'). split; congruence.
  - rewrite (value_eqb_items items IH items'). split; congruence.
Qed.

Lemma commitment_eqb_eq (a b : ActiveCommitment) :
  commitment_eqb a b = true <-> a = b.
Proof.
  destruct a, b. unfold commitment_eqb. cbn [commitment_id commitment_hash
    salt signal stake committed_at reveal_after].
  rewrite !andb_true_iff, !value_eqb_eq, !String.eqb_eq, !Z.eqb_eq.
  split.
  - intros [[[[[[-> ->] ->] E] ->] ->] ->]. injection E as ->. reflexivity.
  - intro E. injection E as -> -> -> -> -> -> ->. tauto.
Qed.

Lemma commitment_eqb_refl (c : ActiveCommitment) : commitment_eqb c c = true.
Proof. apply commitment_eqb_eq. reflexivity. Qed.

Lemma commitment_eqb_sym (a b : ActiveCommitment) :
  commitment_eqb a b = commitment_eqb b a.
Proof.
  destruct (commitment_eqb a b) eqn:E, (commitment_eqb b a) eqn:E';
    try reflexivity.
  - apply commitment_eqb_eq in E. subst. rewrite commitment_eqb_refl in E'.
    discriminate.
  - apply commitment_eqb_eq in E'. subst. rewrite commitment_eqb_refl in E.
    discriminate.
Qed.

End Equality.

(** ** The reveal loop (C2) *)

Section Reveals.
Import Py Agent.

Implicit Types (c x : ActiveCommitment) (l ready : list ActiveCommitment).
Implicit Types (log : list (ActiveCommitment * value)).

Lemma occurrences_cons x c l :
  occurrences x (c :: l) = (unit_if (commitment_eqb x c) + occurrences x l)%nat.
Proof.
  unfold occurrences. simpl. destruct (commitment_eqb x c); reflexivity.
Qed.

Lemma occurrences_ready now x l :
  occurrences x (filter (is_ready now) l) =
  if is_ready now x then occurrences x l else 0%nat.
Proof.
  induction l as [| c l IH]; simpl.
  - destruct (is_ready now x); reflexivity.
  - rewrite occurrences_cons.
    destruct (commitment_eqb x c) eqn:E.
    + apply commitment_eqb_eq in E. subst c.
      destruct (is_ready now x) eqn:R.
      * rewrite occurrences_cons, commitment_eqb_refl, IH. reflexivity.
      * exact IH.
    + destruct (is_ready now c); [rewrite occurrences_cons, E |]; rewrite IH;
        destruct (is_ready now x); reflexivity.
Qed.

Lemma list_remove_occurrences c l l' :
  list_remove c l = Some l' ->
  forall x, occurrences x l =
            (unit_if (commitment_eqb x c) + occurrences x l')%nat.
Proof.
  revert l'. induction l as [| y l IH]; simpl; intros l' H x.
  - discriminate.
  - destruct (commitment_eqb y c) eqn:E.
    + injection H as <-. apply commitment_eqb_eq in E. subst y.
      apply occurrences_cons.
    + destruct (list_remove c l) as [r |]; simpl in H; [| discriminate].
      injection H as <-. rewrite !occurrences_cons, (IH r eq_refl x). lia.
Qed.

Lemma list_remove_present c l :
  (0 < occurrences c l)%nat -> exists l', list_remove c l = Some l'.
Proof.
  induction l as [| y l IH]; simpl; intro H.
  - inversion H.
  - destruct (commitment_eqb y c) eqn:E; [eauto |].
    rewrite occurrences_cons, commitment_eqb_sym, E in H.
    destruct (IH H) as [r ->]. simpl. eauto.
Qed.

(** Removing an item leaves the others, in their order. *)
Lemma list_remove_splits c l l' :
  list_remove c l = Some l' ->
  exists before after, l = before ++ c :: after /\ l' = before ++ after.
Proof.
  revert l'. induction l as [| y l IH]; simpl; intros l' H.
  - discriminate.
  - destruct (commitment_eqb y c) eqn:E.
    + injection H as <-. apply commitment_eqb_eq in E. subst y.
      exists [], l. auto.
    + destruct (list_remove c l) as [r |]; simpl in H; [| discriminate].
      injection H as <-. destruct (IH r eq_refl) as (b & a & -> & ->).
      exists (y :: b), a. auto.
Qed.

Lemma successes_cons x c (r : value) log :
  successes x ((c, r) :: log) =
  (unit_if (commitment_eqb x c && succeeded (c, r)) + successes x log)%nat.
Proof.
  unfold successes, succeeded. cbn [filter snd].
  destruct (is_not_none r); cbn [map fst].
  - rewrite occurrences_cons, andb_true_r. reflexivity.
  - rewrite andb_false_r. reflexivity.
Qed.

Lemma failures_cons x c (r : value) log :
  failures x ((c, r) :: log) =
  (unit_if (commitment_eqb x c && negb (succeeded (c, r))) + failures x log)%nat.
Proof.
  unfold failures, succeeded. cbn [filter snd].
  destruct (is_not_none r); cbn [map fst negb].
  - rewrite andb_false_r. reflexivity.
  - rewrite occurrences_cons, andb_true_r. reflexivity.
Qed.

Lemma attempts_split x log :
  (successes x log + failures x log = attempts x log)%nat.
Proof.
  induction log as [| [c r] log IH]; [reflexivity |].
  rewrite successes_cons, failures_cons. unfold attempts in *. cbn [map fst].
  rewrite occurrences_cons, <- IH. unfold succeeded. cbn [snd].
  destruct (commitment_eqb x c), (is_not_none r); simpl; lia.
Qed.

(** What the loop does, given that every item still to be processed is
    in the active list as often as it is to be processed. *)
Lemma reveal_loop_spec client ready :
  forall k self e log self',
    (forall x, (occurrences x ready <= occurrences x (active_commitments self))%nat) ->
    reveal_loop client k ready self = (e, log, self') ->
    e = None /\
    log = reveal_calls client k ready /\
    (forall x, occurrences x (active_commitments self) =
               (successes x log + occurrences x (active_commitments self'))%nat) /\
    config self' = config self /\
    total_committed self' = total_committed self /\
    total_verified self' = total_verified self /\
    total_revealed self' =
      total_revealed self + Z.of_nat (returned_calls client k ready).
Proof.
  induction ready as [| c rest IH]; intros k self e log self' Hocc H.
  - simpl in H. injection H as <- <- <-. simpl.
    repeat split; try reflexivity. lia.
  - cbn [reveal_loop] in H. unfold reveal_signal in H.
    cbn [reveal_calls returned_calls].
    destruct (client k (commitment_id c) (signal c) (salt c)) as [result | exn]
      eqn:Hcall.
    + destruct (is_not_none result) eqn:Hres.
      * cbn [active_commitments] in H.
        destruct (list_remove_present c (active_commitments self)) as [remaining Hrem].
        { specialize (Hocc c). rewrite occurrences_cons, commitment_eqb_refl in Hocc.
          unfold unit_if in Hocc. lia. }
        rewrite Hrem in H.
        match type of H with
        | context [reveal_loop client (S k) rest ?s] =>
            destruct (reveal_loop client (S k) rest s) as [[e1 log1] s1] eqn:Hloop
        end.
        injection H as <- <- <-.
        apply IH in Hloop.
        -- destruct Hloop as (He & Hlog & Hact & Hcfg & Hcom & Hver & Hrev).
           cbn [set_active active_commitments config total_committed
                total_verified total_revealed] in *.
           subst log1.
           split; [exact He | split; [reflexivity |]].
           split; [| split; [exact Hcfg | split; [exact Hcom | split; [exact Hver |]]]].
           ++ intro x. rewrite successes_cons. unfold succeeded at 1. cbn [snd].
              rewrite Hres, andb_true_r, (list_remove_occurrences _ _ _ Hrem x), (Hact x).
              lia.
           ++ rewrite Hrev. lia.
        -- intro x. cbn [set_active active_commitments].
           specialize (Hocc x).
           rewrite occurrences_cons, (list_remove_occurrences _ _ _ Hrem x) in Hocc.
           lia.
      * match type of H with
        | context [reveal_loop client (S k) rest ?s] =>
            destruct (reveal_loop client (S k) rest s) as [[e1 log1] s1] eqn:Hloop
        end.
        injection H as <- <- <-.
        apply IH in Hloop.
        -- destruct Hloop as (He & Hlog & Hact & Hcfg & Hcom & Hver & Hrev).
           cbn [active_commitments config total_committed
                total_verified total_revealed] in *.
           subst log1.
           split; [exact He | split; [reflexivity |]].
           split; [| split; [exact Hcfg | split; [exact Hcom | split; [exact Hver |]]]].
           ++ intro x. rewrite successes_cons. unfold succeeded at 1. cbn [snd].
              rewrite Hres, andb_false_r. exact (Hact x).
           ++ rewrite Hrev. lia.
        -- intro x. cbn [active_commitments].
           specialize (Hocc x). rewrite occurrences_cons in Hocc. lia.
    + cbn [is_not_none] in H.
      destruct (reveal_loop client (S k) rest self) as [[e1 log1] s1] eqn:Hloop.
      injection H as <- <- <-.
      apply IH in Hloop.
      * destruct Hloop as (He & Hlog & Hact & Hcfg & Hcom & Hver & Hrev).
        subst log1.
        split; [exact He | split; [reflexivity |]].
        split; [| split; [exact Hcfg | split; [exact Hcom | split; [exact Hver |]]]].
        -- intro x. rewrite successes_cons. unfold succeeded at 1. cbn [snd is_not_none].
           rewrite andb_false_r. exact (Hact x).
        -- rewrite Hrev. lia.
      * intro x. specialize (Hocc x). rewrite occurrences_cons in Hocc. lia.
Qed.

Lemma reveal_calls_commitments client k ready :
  map fst (reveal_calls client k ready) = ready.
Proof.
  revert k. induction ready as [| c rest IH]; intro k; simpl;
    [reflexivity | now rewrite IH].
Qed.

(** Every reveal that succeeded was counted, and no more reveals are
    counted than calls are made. *)
Lemma returned_calls_bounds client ready :
  forall k,
    (List.length (filter succeeded (reveal_calls client k ready))
       <= returned_calls client k ready <= List.length ready)%nat.
Proof.
  induction ready as [| c rest IH]; intro k; cbn [reveal_calls returned_calls].
  - simpl. lia.
  - specialize (IH (S k)). cbn [filter List.length]. unfold succeeded at 1. cbn [snd].
    destruct (client k (commitment_id c) (signal c) (salt c)) as [result | exn].
    + destruct (is_not_none result); simpl; lia.
    + simpl. lia.
Qed.

(** They are the same when the client never returns [None]. *)
Lemma returned_calls_succeeded client ready :
  (forall k id sig s, client k id sig s <> MidnightClient.Returned PNone) ->
  forall k,
    returned_calls client k ready =
    List.length (filter succeeded (reveal_calls client k ready)).
Proof.
  intro Hans. induction ready as [| c rest IH]; intro k;
    cbn [reveal_calls returned_calls]; [reflexivity |].
  specialize (IH (S k)). cbn [filter List.length]. unfold succeeded at 1. cbn [snd].
  destruct (client k (commitment_id c) (signal c) (salt c)) as [result | exn] eqn:E.
  - destruct result; try (simpl; lia).
    exfalso. exact (Hans _ _ _ _ E).
  - simpl. lia.
Qed.

Lemma process_reveals_spec now client self e log self' :
  process_reveals now client self = (e, log, self') ->
  e = None /\
  log = reveal_calls client 0 (filter (is_ready now) (active_commitments self)) /\
  (forall x, occurrences x (active_commitments self) =
             (successes x log + occurrences x (active_commitments self'))%nat) /\
  config self' = config self /\
  total_committed self' = total_committed self /\
  total_verified self' = total_verified self /\
  total_revealed self' =
    total_revealed self
    + Z.of_nat (returned_calls client 0
                  (filter (is_ready now) (active_commitments self))).
Proof.
  unfold process_reveals. apply reveal_loop_spec.
  intro x. rewrite occurrences_ready. destruct (is_ready now x); lia.
Qed.

End Reveals.


(** ** One cycle *)

Section Cycle.
Import Py Agent.

Lemma generate_signal_inl (analysis signal : dict) :
  generate_signal analysis = inl signal -> signal = analysis.
Proof.
  unfold generate_signal.
  destruct (dict_get analysis "direction"), (dict_get analysis "pair"),
    (dict_get analysis "target_price"), (dict_get analysis "confidence");
    intro H; congruence.
Qed.

(** Every way out of [run_cycle]. *)
Lemma run_cycle_inv (env : cycle_env) (self : GhostAgent)
    (out : cycle_outcome) (self' : GhostAgent) :
  run_cycle env self = (out, self') ->
  config self' = config self /\
  total_revealed self' = total_revealed self /\
  total_verified self' = total_verified self /\
  match out with
  | Committed c =>
      Z.of_nat (List.length (active_commitments self))
        < max_active_commitments (config self) /\
      active_commitments self' = active_commitments self ++ [c] /\
      total_committed self' = total_committed self + 1 /\
      committed_at c = env_now env /\
      reveal_after c = env_now env + reveal_delay (config self) /\
      stake c = default_stake (config self) /\
      signal c = env_analysis env /\
      (commitment_hash c, salt c) =
        create_commitment (env_urandom_hex env) (signal c) /\
      commitment_id c <> PNone /\
      exists result,
        env_commit_signal env (commitment_hash c) (stake c)
          = MidnightClient.Returned (PDict result) /\
        commitment_id c =
          dict_get_default result "commitment_id"
            (PStr (Text.str_of_int (total_committed self)))
  | SubmitFailed =>
      active_commitments self' = active_commitments self /\
      ((exists e, env_commit_signal env (submitted_hash env)
                                    (default_stake (config self))
                  = MidnightClient.Raised e /\ self' = self) \/
       (exists result, env_commit_signal env (submitted_hash env)
                                         (default_stake (config self))
                       = MidnightClient.Returned (PDict result) /\
                       dict_get result "commitment_id" = Some PNone /\
                       total_committed self' = total_committed self + 1) \/
       (exists reply, env_commit_signal env (submitted_hash env)
                                        (default_stake (config self))
                      = MidnightClient.Returned reply /\
                      (forall result, reply <> PDict result) /\
                      self' = self))
  | SkippedAtCapacity =>
      max_active_commitments (config self)
        <= Z.of_nat (List.length (active_commitments self)) /\
      self' = self
  | SkippedLowConfidence | CycleRaised _ => self' = self
  end.
Proof.
  unfold run_cycle.
  destruct (Z.of_nat (List.length (active_commitments self))
              >=? max_active_commitments (config self)) eqn:Hcap.
  { intro H. injection H as <- <-. repeat split. lia. }
  destruct (generate_signal (env_analysis env)) as [sig | ex] eqn:Hgen.
  2:{ intro H. injection H as <- <-. repeat split. }
  apply generate_signal_inl in Hgen. subst sig.
  destruct (dict_get (env_analysis env) "confidence") as [confidence |].
  2:{ intro H. injection H as <- <-. repeat split. }
  destruct (lt_int confidence (min_confidence (config self))) as [[|] |].
  1,3: intro H; injection H as <- <-; repeat split.
  unfold submit_commitment.
  change (create_commitment (env_urandom_hex env) (env_analysis env))
    with (submitted_hash env, env_urandom_hex env).
  cbv beta iota.
  destruct (env_commit_signal env (submitted_hash env) (default_stake (config self)))
    as [reply | ex] eqn:Hcall.
  - assert (Hother : (forall result, reply <> PDict result) ->
                     (SubmitFailed, self) = (out, self') ->
                     config self' = config self /\
                     total_revealed self' = total_revealed self /\
                     total_verified self' = total_verified self /\
                     match out with
                     | SubmitFailed =>
                         active_commitments self' = active_commitments self /\
                         ((exists e, MidnightClient.Returned reply
                                     = MidnightClient.Raised e /\ self' = self) \/
                          (exists result, MidnightClient.Returned reply
                                          = MidnightClient.Returned (PDict result) /\
                                          dict_get result "commitment_id" = Some PNone /\
                                          total_committed self' = total_committed self + 1) \/
                          (exists other, MidnightClient.Returned reply
                                         = MidnightClient.Returned other /\
                                         (forall result, other <> PDict result) /\
                                         self' = self))
                     | _ => False
                     end).
    { intros Hnot H. injection H as <- <-. repeat split.
      right. right. exists reply. repeat split. exact Hnot. }
    destruct reply as [| b | n | f | s | l | l | result];
      try (intro H; specialize (Hother ltac:(discriminate) H);
           destruct out; tauto).
    clear Hother. unfold dict_get_default.
    destruct (dict_get result "commitment_id") as [[| b | n | f | s | l | l | l] |]
      eqn:Hid; intro H; injection H as <- <-;
      cbn [config total_revealed total_verified total_committed
           active_commitments set_active commitment_id commitment_hash salt
           signal stake committed_at reveal_after];
      repeat split; try lia; try discriminate;
      try (eexists; split; [first [exact Hcall | reflexivity] | unfold dict_get_default; rewrite Hid; reflexivity]).
    right. left. exists result. split; [first [exact Hcall | reflexivity] | split; [exact Hid | reflexivity]].
  - intro H. injection H as <- <-. repeat split.
    left. exists ex. split; [first [exact Hcall | reflexivity] | reflexivity].
Qed.

Lemma run_cycle_length (env : cycle_env) (self : GhostAgent) :
  let self' := snd (run_cycle env self) in
  config self' = config self /\
  (List.length (active_commitments self')
     = List.length (active_commitments self) \/
   (Z.of_nat (List.length (active_commitments self))
      < max_active_commitments (config self) /\
    List.length (active_commitments self')
      = S (List.length (active_commitments self)))).
Proof.
  destruct (run_cycle env self) as [out self'] eqn:E. simpl.
  apply run_cycle_inv in E as (Hcfg & _ & _ & Hout).
  split; [exact Hcfg |].
  destruct out as [| | | c | ex].
  - destruct Hout as [_ ->]. auto.
  - subst. auto.
  - destruct Hout as [-> _]. auto.
  - destruct Hout as (Hroom & -> & _). right. split; [exact Hroom |].
    rewrite length_app. simpl. lia.
  - subst. auto.
Qed.

End Cycle.

(** ** Runs of calls: capacity (C1) and order of the active list *)

Section Runs.
Import Py Agent.

(** A property of the active list that survives the deletion of an
    item survives the reveal loop. *)
Lemma reveal_loop_deletes (P : list ActiveCommitment -> Prop) :
  (forall before c after, P (before ++ c :: after) -> P (before ++ after)) ->
  forall ready client k self,
    P (active_commitments self) ->
    P (active_commitments (snd (reveal_loop client k ready self))) /\
    config (snd (reveal_loop client k ready self)) = config self.
Proof.
  intros Hdel ready. induction ready as [| c rest IH]; intros client k self HP.
  - simpl. auto.
  - cbn [reveal_loop]. unfold reveal_signal.
    destruct (client k (commitment_id c) (signal c) (salt c)) as [result | exn].
    + destruct (is_not_none result).
      * cbn [active_commitments].
        destruct (list_remove c (active_commitments self)) as [remaining |] eqn:Hrem.
        -- match goal with
           | |- context [reveal_loop client (S k) rest ?s] =>
               destruct (IH client (S k) s) as [H1 H2];
               [| destruct (reveal_loop client (S k) rest s) as [[e1 log1] s1] ]
           end.
           ++ cbn [set_active active_commitments].
              apply list_remove_splits in Hrem as (b & a & Hb & ->).
              apply (Hdel b c a). rewrite <- Hb. exact HP.
           ++ simpl in *. auto.
        -- simpl. auto.
      * match goal with
        | |- context [reveal_loop client (S k) rest ?s] =>
            destruct (IH client (S k) s) as [H1 H2];
            [| destruct (reveal_loop client (S k) rest s) as [[e1 log1] s1] ]
        end.
        -- exact HP.
        -- simpl in *. auto.
    + cbn [is_not_none].
      destruct (IH client (S k) self HP) as [H1 H2].
      destruct (reveal_loop client (S k) rest self) as [[e1 log1] s1].
      simpl in *. auto.
Qed.

Lemma process_reveals_deletes (P : list ActiveCommitment -> Prop) :
  (forall before c after, P (before ++ c :: after) -> P (before ++ after)) ->
  forall now client self,
    P (active_commitments self) ->
    P (active_commitments (snd (process_reveals now client self))) /\
    config (snd (process_reveals now client self)) = config self.
Proof.
  intros Hdel now client self HP. unfold process_reveals.
  apply reveal_loop_deletes; assumption.
Qed.

Lemma length_deletes (n : nat) (before : list ActiveCommitment) c after :
  (List.length (before ++ c :: after) <= n)%nat ->
  (List.length (before ++ after) <= n)%nat.
Proof. rewrite !length_app. simpl. lia. Qed.

Lemma sorted_deletes (R : ActiveCommitment -> ActiveCommitment -> Prop)
    (before : list ActiveCommitment) c after :
  StronglySorted R (before ++ c :: after) -> StronglySorted R (before ++ after).
Proof.
  induction before as [| x before IH]; simpl; intro H.
  - apply StronglySorted_inv in H. tauto.
  - apply StronglySorted_inv in H as [Hs Hall]. constructor; [auto |].
    rewrite Forall_app in *. destruct Hall as [Hb Hca].
    inversion Hca; subst. auto.
Qed.

Lemma forall_deletes (Q : ActiveCommitment -> Prop)
    (before : list ActiveCommitment) c after :
  Forall Q (before ++ c :: after) -> Forall Q (before ++ after).
Proof.
  rewrite !Forall_app. intros [Hb Hca]. inversion Hca; subst. auto.
Qed.

Lemma sorted_snoc (R : ActiveCommitment -> ActiveCommitment -> Prop)
    (l : list ActiveCommitment) c :
  StronglySorted R l -> Forall (fun x => R x c) l -> StronglySorted R (l ++ [c]).
Proof.
  induction 1 as [| x l Hs IH Hx]; simpl; intro Hall.
  - repeat constructor.
  - inversion Hall; subst. constructor; [auto |].
    rewrite Forall_app. auto.
Qed.

Lemma sorted_filter (R : ActiveCommitment -> ActiveCommitment -> Prop)
    (p : ActiveCommitment -> bool) (l : list ActiveCommitment) :
  StronglySorted R l -> StronglySorted R (filter p l).
Proof.
  induction 1 as [| x l Hs IH Hx]; simpl; [constructor |].
  destruct (p x); [| exact IH].
  constructor; [exact IH |].
  rewrite Forall_forall in *. intros y Hy. apply filter_In in Hy as [Hy _]. auto.
Qed.

Lemma perform_capacity (self : GhostAgent) (c : call) :
  Z.of_nat (List.length (active_commitments self))
    <= max_active_commitments (config self) ->
  Z.of_nat (List.length (active_commitments (perform self c)))
    <= max_active_commitments (config (perform self c)) /\
  config (perform self c) = config self.
Proof.
  intro Hle. destruct c as [env | now client]; simpl.
  - destruct (run_cycle_length env self) as [Hcfg Hlen]. rewrite Hcfg.
    split; [| reflexivity]. destruct Hlen as [-> | [Hroom ->]]; lia.
  - destruct (process_reveals_deletes
                (fun l => (List.length l <= List.length (active_commitments self))%nat)
                (length_deletes _) now client self (le_n _)) as [Hlen Hcfg].
    rewrite Hcfg. split; [lia | reflexivity].
Qed.

Lemma perform_all_capacity (calls : list call) :
  forall self,
    Z.of_nat (List.length (active_commitments self))
      <= max_active_commitments (config self) ->
    Z.of_nat (List.length (active_commitments (perform_all calls self)))
      <= max_active_commitments (config self) /\
    config (perform_all calls self) = config self.
Proof.
  induction calls as [| c calls IH]; intros self Hle; simpl.
  - auto.
  - destruct (perform_capacity self c Hle) as [Hle' Hcfg].
    destruct (IH (perform self c) Hle') as [H1 H2].
    rewrite Hcfg in *. auto.
Qed.

Lemma run_cycle_at_capacity (env : cycle_env) (self : GhostAgent) :
  max_active_commitments (config self)
    <= Z.of_nat (List.length (active_commitments self)) ->
  run_cycle env self = (SkippedAtCapacity, self).
Proof.
  intro H. unfold run_cycle.
  destruct (Z.of_nat (List.length (active_commitments self))
              >=? max_active_commitments (config self)) eqn:E;
    [reflexivity | lia].
Qed.

Lemma perform_all_config (calls : list call) :
  forall self, config (perform_all calls self) = config self.
Proof.
  induction calls as [| c calls IH]; intro self; simpl; [reflexivity |].
  rewrite IH. destruct c as [env | now client]; simpl.
  - apply run_cycle_length.
  - apply (process_reveals_deletes (fun _ => True) (fun _ _ _ H => H)
             now client self I).
Qed.

(** C1. From a fresh agent, whatever calls are made: with a capacity
    limit that is not negative, the active list never holds more than
    [max_active_commitments] records; a [run_cycle] that finds the list
    at or above the limit returns at once, state untouched; with a limit
    of zero (or below) every [run_cycle] does so. *)
Theorem capacity_invariant (cfg : AgentConfig) (calls : list call) :
  let self := perform_all calls (init cfg) in
  (0 <= max_active_commitments cfg ->
   Z.of_nat (List.length (active_commitments self))
     <= max_active_commitments cfg) /\
  (forall env,
     max_active_commitments cfg
       <= Z.of_nat (List.length (active_commitments self)) ->
     run_cycle env self = (SkippedAtCapacity, self)) /\
  (max_active_commitments cfg <= 0 ->
   forall env, run_cycle env self = (SkippedAtCapacity, self)).
Proof.
  intro self.
  assert (Hcfg : config self = cfg) by apply perform_all_config.
  split; [| split].
  - intro Hmax.
    destruct (perform_all_capacity calls (init cfg)) as [Hle _];
      [simpl; lia | exact Hle].
  - intros env Hfull. apply run_cycle_at_capacity. rewrite Hcfg. exact Hfull.
  - intros Hzero env. apply run_cycle_at_capacity. rewrite Hcfg. lia.
Qed.

End Runs.

(** ** What a call of [process_reveals] discloses (C2) *)

Section Disclosure.
Import Py Agent.

Lemma occurrences_absent (c : ActiveCommitment) (l : list ActiveCommitment) :
  occurrences c l = 0%nat <-> ~ In c l.
Proof.
  induction l as [| x l IH].
  - simpl. tauto.
  - rewrite occurrences_cons. cbn [In].
    destruct (commitment_eqb c x) eqn:E.
    + apply commitment_eqb_eq in E. subst x. simpl. split; [discriminate | tauto].
    + simpl. rewrite IH. split.
      * intros Hn [-> | Hin]; [| tauto].
        rewrite commitment_eqb_refl in E. discriminate.
      * tauto.
Qed.

(** Among records with pairwise distinct salts a record occurs once. *)
Lemma occurrences_distinct (c : ActiveCommitment) (l : list ActiveCommitment) :
  NoDup (map salt l) -> In c l -> occurrences c l = 1%nat.
Proof.
  induction l as [| x l IH]; cbn [map In]; intros Hnd Hin; [contradiction |].
  inversion Hnd as [| ? ? Hfresh Hrest]; subst.
  rewrite occurrences_cons.
  destruct (commitment_eqb c x) eqn:E.
  - apply commitment_eqb_eq in E. subst x.
    assert (Hnone : occurrences c l = 0%nat).
    { apply occurrences_absent. intro Hc. apply Hfresh. now apply in_map. }
    rewrite Hnone. reflexivity.
  - destruct Hin as [-> | Hin].
    + rewrite commitment_eqb_refl in E. discriminate.
    + rewrite (IH Hrest Hin). reflexivity.
Qed.

Lemma distinct_salts_deletes (before : list ActiveCommitment) c after :
  NoDup (map salt (before ++ c :: after)) -> NoDup (map salt (before ++ after)).
Proof.
  rewrite !map_app. cbn [map]. apply NoDup_remove_1.
Qed.


End Disclosure.

(** ** Order of the reveals (C8) *)

Section Order.
Import Py Agent.

(** A field of the record that [run_cycle] sets to its clock reading
    plus a constant of the configuration. *)
Variable key : ActiveCommitment -> Z.
Variable offset : AgentConfig -> Z.
Hypothesis key_set :
  forall env self c self',
    run_cycle env self = (Committed c, self') ->
    key c = env_now env + offset (config self).

Lemma perform_all_sorted (calls : list call) :
  forall self,
    StronglySorted Z.le (cycle_clock calls) ->
    StronglySorted (fun a b => key a <= key b) (active_commitments self) ->
    Forall (fun c => Forall (fun t => key c <= t + offset (config self))
                            (cycle_clock calls))
           (active_commitments self) ->
    StronglySorted (fun a b => key a <= key b)
                   (active_commitments (perform_all calls self)).
Proof.
  induction calls as [| [env | now client] calls IH];
    intros self Hclock Hsorted Hfuture; simpl.
  - exact Hsorted.
  - simpl in Hclock, Hfuture.
    apply StronglySorted_inv in Hclock as [Hclock Hnext].
    destruct (run_cycle env self) as [out self'] eqn:E. simpl.
    pose proof (run_cycle_inv _ _ _ _ E) as (Hcfg & _ & _ & Hout).
    assert (Hold : Forall (fun c => Forall (fun t => key c <= t + offset (config self))
                                           (cycle_clock calls))
                          (active_commitments self)).
    { eapply Forall_impl; [| exact Hfuture]. intros c Hc. inversion Hc; auto. }
    apply IH; [exact Hclock | |].
    + destruct out as [| | | c | ex].
      * destruct Hout as [_ ->]. exact Hsorted.
      * subst. exact Hsorted.
      * destruct Hout as [-> _]. exact Hsorted.
      * destruct Hout as (_ & -> & _). apply sorted_snoc; [exact Hsorted |].
        rewrite (key_set _ _ _ _ E).
        eapply Forall_impl; [| exact Hfuture]. intros x Hx. inversion Hx; auto.
      * subst. exact Hsorted.
    + rewrite Hcfg. destruct out as [| | | c | ex].
      * destruct Hout as [_ ->]. exact Hold.
      * subst. exact Hold.
      * destruct Hout as [-> _]. exact Hold.
      * destruct Hout as (_ & -> & _). rewrite Forall_app. split; [exact Hold |].
        constructor; [| constructor]. rewrite (key_set _ _ _ _ E).
        eapply Forall_impl; [| exact Hnext]. intros t Ht. simpl in Ht. lia.
      * subst. exact Hold.
  - simpl in Hclock, Hfuture.
    destruct (process_reveals_deletes
                (fun l => StronglySorted (fun a b => key a <= key b) l /\
                          Forall (fun c => Forall (fun t => key c <= t + offset (config self))
                                                  (cycle_clock calls)) l))
      with (now := now) (client := client) (self := self) as [[Hs Hf] Hcfg].
    + intros b c a [H1 H2]. split;
        [eapply sorted_deletes | eapply forall_deletes]; eassumption.
    + auto.
    + apply IH; [exact Hclock | exact Hs | rewrite Hcfg; exact Hf].
Qed.

End Order.

Section RevealOrder.
Import Py Agent.

(** C8, as the code has it. The ready commitments are revealed in the
    order of the active list, which is the order in which they were
    committed. From a fresh agent whose [run_cycle] calls read clock
    values that never decrease, that order is by ascending
    [reveal_after] (and by ascending [committed_at]); commitments with
    the same [reveal_after] keep the order in which they were
    committed. *)
Theorem reveals_in_commit_order (cfg : AgentConfig) (calls : list call)
    (now : Z)
    (client : nat -> value -> dict -> string -> MidnightClient.outcome) :
  let self := perform_all calls (init cfg) in
  let '(e, log, self') := process_reveals now client self in
  map fst log = filter (is_ready now) (active_commitments self) /\
  (StronglySorted Z.le (cycle_clock calls) ->
   StronglySorted earlier_reveal (map fst log) /\
   StronglySorted (fun a b => committed_at a <= committed_at b) (map fst log)).
Proof.
  intro self.
  destruct (process_reveals now client self) as [[e log] self'] eqn:E.
  apply process_reveals_spec in E as (_ & Hlog & _).
  assert (Hcalls : map fst log = filter (is_ready now) (active_commitments self)).
  { rewrite Hlog. apply reveal_calls_commitments. }
  rewrite Hcalls. split; [reflexivity |].
  intro Hclock. split; apply sorted_filter.
  - apply (perform_all_sorted reveal_after reveal_delay);
      [| exact Hclock | constructor | constructor].
    intros env s c s' H. apply run_cycle_inv in H as (_ & _ & _ & Hout).
    tauto.
  - apply (perform_all_sorted committed_at (fun _ => 0));
      [| exact Hclock | constructor | constructor].
    intros env s c s' H. apply run_cycle_inv in H as (_ & _ & _ & Hout).
    destruct Hout as (_ & _ & _ & Hat & _). lia.
Qed.

End RevealOrder.

(** ** Submitting: failures, ids and counters (C3, C9, C10) *)

Section Submit.
Import Py Agent.

Lemma commit_signal_raises_iff (now : Z) (net : MidnightClient.transport)
    (h : string) (stake : Z) :
  (exists e, MidnightClient.commit_signal now net h stake = MidnightClient.Raised e)
  <-> net = MidnightClient.OtherRequestError.
Proof.
  destruct net; simpl; split;
    first [ intros [e He]; discriminate He
          | discriminate
          | intros _; eauto ].
Qed.

(** C3, as the code has it. When the [commit_signal] call that a cycle
    makes raises, [submit_commitment] returns [None], [run_cycle] creates
    no record and the whole state is as before. The client raises
    exactly when the transport fails with something else than a
    connection error; on a connection error it returns an offline id
    instead. *)
Theorem failed_publish_creates_no_record (env : cycle_env) (self : GhostAgent)
    (e : pyexn) :
  env_commit_signal env (submitted_hash env) (default_stake (config self))
    = MidnightClient.Raised e ->
  submit_commitment (env_commit_signal env) (submitted_hash env)
    (default_stake (config self)) self = (PNone, self) /\
  snd (run_cycle env self) = self /\
  (forall c, fst (run_cycle env self) <> Committed c) /\
  (forall now net h stake,
      (exists e', MidnightClient.commit_signal now net h stake
                  = MidnightClient.Raised e')
      <-> net = MidnightClient.OtherRequestError).
Proof.
  intro Hraises. split; [| split; [| split]].
  - unfold submit_commitment. rewrite Hraises. reflexivity.
  - destruct (run_cycle env self) as [out self'] eqn:E. simpl.
    apply run_cycle_inv in E as (_ & _ & _ & Hout).
    destruct out as [| | | c | ex]; try tauto.
    + destruct Hout as [_ [(e' & _ & ->) | [(result & Hcall & _) | (reply & _ & _ & ->)]]];
        [reflexivity | congruence | reflexivity].
    + destruct Hout as (_ & _ & _ & _ & _ & Hstake & Hsig & Hhash & _ & result & Hcall & _).
      exfalso. revert Hcall.
      replace (commitment_hash c) with (submitted_hash env)
        by (unfold submitted_hash; rewrite <- Hsig, <- Hhash; reflexivity).
      rewrite Hstake. congruence.
  - intros c Hc. destruct (run_cycle env self) as [out self'] eqn:E.
    simpl in Hc. subst out.
    apply run_cycle_inv in E as (_ & _ & _ & Hout).
    destruct Hout as (_ & _ & _ & _ & _ & Hstake & Hsig & Hhash & _ & result & Hcall & _).
    revert Hcall.
    replace (commitment_hash c) with (submitted_hash env)
      by (unfold submitted_hash; rewrite <- Hsig, <- Hhash; reflexivity).
    rewrite Hstake. congruence.
  - apply commit_signal_raises_iff.
Qed.

Lemma failed_publish_creates_no_record_witness :
  let env := Scenario.cycle_with
               (MidnightClient.commit_signal 0 MidnightClient.OtherRequestError) 0 in
  env_commit_signal env (submitted_hash env)
    (default_stake (config (init default_config)))
    = MidnightClient.Raised RequestException /\
  snd (run_cycle env (init default_config)) = init default_config.
Proof.
  intro env.
  assert (H : env_commit_signal env (submitted_hash env)
                (default_stake (config (init default_config)))
              = MidnightClient.Raised RequestException) by reflexivity.
  split; [exact H |].
  exact (proj1 (proj2 (failed_publish_creates_no_record env (init default_config)
                         RequestException H))).
Defined.

(** C3 as stated fails: the transport raises a connection error, the
    client answers with an offline id, and the cycle creates a record. *)
Lemma connection_error_creates_record :
  let env := Scenario.cycle_with
               (MidnightClient.commit_signal 1700000000 MidnightClient.ConnectionError)
               1700000000 in
  run_cycle env (init default_config) =
  (Committed (Scenario.commitment_of (PStr "1700000000") 1700000000),
   {| config := default_config;
      active_commitments :=
        [Scenario.commitment_of (PStr "1700000000") 1700000000];
      total_committed := 1;
      total_revealed := 0;
      total_verified := 0 |}).
Proof. vm_compute. reflexivity. Qed.

(** C9, as the code has it. The id of a record that [run_cycle] creates
    is the ["commitment_id"] of the dict the client returned when there
    is one, and the decimal text of [total_committed], as it was before
    the call, when there is none. *)
Theorem stored_commitment_id (env : cycle_env) (self : GhostAgent)
    (c : ActiveCommitment) (self' : GhostAgent) :
  run_cycle env self = (Committed c, self') ->
  active_commitments self' = active_commitments self ++ [c] /\
  exists result,
    env_commit_signal env (commitment_hash c) (stake c)
      = MidnightClient.Returned (PDict result) /\
    match dict_get result "commitment_id" with
    | Some id => commitment_id c = id
    | None => commitment_id c = PStr (Text.str_of_int (total_committed self))
    end.
Proof.
  intro E. apply run_cycle_inv in E as (_ & _ & _ & Hout).
  destruct Hout as (_ & Hact & _ & _ & _ & _ & _ & _ & _ & result & Hcall & Hid).
  split; [exact Hact |]. exists result. split; [exact Hcall |].
  unfold dict_get_default in Hid.
  destruct (dict_get result "commitment_id"); exact Hid.
Qed.

Lemma stored_commitment_id_witness :
  let env := Scenario.cycle_with (Scenario.ledger_names "c-123") 0 in
  let c := Scenario.commitment_of (PStr "c-123") 0 in
  let self' := {| config := default_config;
                  active_commitments := [c];
                  total_committed := 1;
                  total_revealed := 0;
                  total_verified := 0 |} in
  run_cycle env (init default_config) = (Committed c, self') /\
  active_commitments self' = [c].
Proof.
  intros env c self'.
  assert (E : run_cycle env (init default_config) = (Committed c, self'))
    by (vm_compute; reflexivity).
  split; [exact E |].
  exact (proj1 (stored_commitment_id env (init default_config) c self' E)).
Defined.

(** C9 as stated fails: the ledger names nothing and the record gets an
    id made by the agent, the text of its counter. *)
Lemma agent_assigns_id :
  let env := Scenario.cycle_with Scenario.ledger_names_nothing 0 in
  (forall h stake reply,
      env_commit_signal env h stake = MidnightClient.Returned reply ->
      exists result,
        reply = PDict result /\ dict_get result "commitment_id" = None) /\
  fst (run_cycle env (init default_config)) =
  Committed (Scenario.commitment_of (PStr "0") 0).
Proof.
  intro env. split.
  - intros h stake reply H. injection H as <-. eexists. split; reflexivity.
  - vm_compute. reflexivity.
Qed.

(** C10, as the code has it. [total_committed] goes up by one exactly
    when the client's [commit_signal] returns a [dict]; it is unchanged
    exactly when the client raises or returns an object of another type
    (a list, a [null]), and then [submit_commitment] returns [None] and
    the state is untouched. [total_revealed] goes up by one exactly when
    the client's [reveal_signal] returns, whatever it returns, and
    [reveal_signal] hands that on; it is unchanged exactly when the
    client raises, and then [reveal_signal] returns [None] and the state
    is untouched. *)
Theorem counters_follow_client
    (commit_client : string -> Z -> MidnightClient.outcome)
    (reveal_client : value -> dict -> string -> MidnightClient.outcome)
    (h : string) (stake : Z) (id : value) (sig : dict) (s : string)
    (self : GhostAgent) :
  let committed := submit_commitment commit_client h stake self in
  let revealed := reveal_signal reveal_client id sig s self in
  ((exists result, commit_client h stake = MidnightClient.Returned (PDict result)) <->
   total_committed (snd committed) = total_committed self + 1) /\
  ((exists e, commit_client h stake = MidnightClient.Raised e) \/
   (exists reply, commit_client h stake = MidnightClient.Returned reply /\
                  is_dict reply = false) <->
   total_committed (snd committed) = total_committed self) /\
  ((exists e, commit_client h stake = MidnightClient.Raised e) \/
   (exists reply, commit_client h stake = MidnightClient.Returned reply /\
                  is_dict reply = false) ->
   committed = (PNone, self)) /\
  ((exists r, reveal_client id sig s = MidnightClient.Returned r) <->
   total_revealed (snd revealed) = total_revealed self + 1) /\
  (forall r, reveal_client id sig s = MidnightClient.Returned r ->
   fst revealed = r) /\
  ((exists e, reveal_client id sig s = MidnightClient.Raised e) <->
   total_revealed (snd revealed) = total_revealed self) /\
  ((exists e, reveal_client id sig s = MidnightClient.Raised e) ->
   revealed = (PNone, self)).
Proof.
  unfold submit_commitment, reveal_signal. cbv zeta.
  assert (Hc :
    ((exists result, commit_client h stake = MidnightClient.Returned (PDict result)) <->
     total_committed
       (snd (match commit_client h stake with
             | MidnightClient.Returned (PDict result) =>
                 (dict_get_default result "commitment_id"
                    (PStr (Text.str_of_int (total_committed self))),
                  {| config := config self;
                     active_commitments := active_commitments self;
                     total_committed := total_committed self + 1;
                     total_revealed := total_revealed self;
                     total_verified := total_verified self |})
             | _ => (PNone, self)
             end)) = total_committed self + 1) /\
    ((exists e, commit_client h stake = MidnightClient.Raised e) \/
     (exists reply, commit_client h stake = MidnightClient.Returned reply /\
                    is_dict reply = false) <->
     total_committed
       (snd (match commit_client h stake with
             | MidnightClient.Returned (PDict result) =>
                 (dict_get_default result "commitment_id"
                    (PStr (Text.str_of_int (total_committed self))),
                  {| config := config self;
                     active_commitments := active_commitments self;
                     total_committed := total_committed self + 1;
                     total_revealed := total_revealed self;
                     total_verified := total_verified self |})
             | _ => (PNone, self)
             end)) = total_committed self) /\
    ((exists e, commit_client h stake = MidnightClient.Raised e) \/
     (exists reply, commit_client h stake = MidnightClient.Returned reply /\
                    is_dict reply = false) ->
     match commit_client h stake with
     | MidnightClient.Returned (PDict result) =>
         (dict_get_default result "commitment_id"
            (PStr (Text.str_of_int (total_committed self))),
          {| config := config self;
             active_commitments := active_commitments self;
             total_committed := total_committed self + 1;
             total_revealed := total_revealed self;
             total_verified := total_verified self |})
     | _ => (PNone, self)
     end = (PNone, self))).
  { destruct (commit_client h stake) as [[| b | n | f | t | l | l | result] | e];
      cbn [snd total_committed]; (split; [| split]);
      try (split; [intros [result' Hr]; discriminate Hr | intro Hn; lia]);
      try (split; [intros _; reflexivity | intros _; right; eexists; split; reflexivity]);
      try (intros _; reflexivity).
    - split; [intros _; reflexivity | intros _; eauto].
    - split; [| intro Hn; lia].
      intros [[e He] | (reply & Hr & Hd)]; [discriminate He |].
      injection Hr as <-. discriminate Hd.
    - intros [[e He] | (reply & Hr & Hd)]; [discriminate He |].
      injection Hr as <-. discriminate Hd.
    - split; [intros _; reflexivity | intros _; left; eauto]. }
  destruct Hc as (Hc1 & Hc2 & Hc3).
  split; [exact Hc1 | split; [exact Hc2 | split; [exact Hc3 |]]].
  destruct (reveal_client id sig s) as [r' | e']; cbn [fst snd total_revealed].
  - split; [split; [intros _; reflexivity | intros _; eauto] |].
    split; [intros r Hr; injection Hr as <-; reflexivity |].
    split; [split; [intros [e He]; discriminate He | intro Hn; lia] |].
    intros [e He]. discriminate He.
  - split; [split; [intros [r Hr]; discriminate Hr | intro Hn; lia] |].
    split; [intros r Hr; discriminate Hr |].
    split; [split; [intros _; reflexivity | intros _; eauto] |].
    intros _. reflexivity.
Qed.

(** C10 as stated fails: the client's [commit_signal] returns without
    raising, with a JSON list where an object is expected, and
    [total_committed] does not go up; [submit_commitment] returns
    [None]. The real client hands such a body on as it is. *)
Lemma list_reply_is_not_counted :
  let commit_client :=
    MidnightClient.commit_signal 0 (MidnightClient.Responded (PList [])) in
  let self := init default_config in
  commit_client "00" 100 = MidnightClient.Returned (PList []) /\
  total_committed (snd (submit_commitment commit_client "00" 100 self))
    = total_committed self /\
  submit_commitment commit_client "00" 100 self = (PNone, self).
Proof. repeat split. Qed.

End Submit.

(** ** Statistics (C7) *)

Section Statistics.
Import Py Agent.

(** Binary64 division and multiplication on known answers: what
    Python prints for [1 / 3 * 100] is [33.33333333333333], the float
    [4691249611844266 * 2 ** -47], and for [7 / 25 * 100] it is
    [28.000000000000004]; a quotient beyond the largest float raises. *)
Example one_in_three :
  win_rate {| config := default_config; active_commitments := [];
              total_committed := 3; total_revealed := 3; total_verified := 1 |}
  = inl (SpecFloat.S754_finite false 4691249611844266 (-47)).
Proof. vm_compute. reflexivity. Qed.

Example seven_in_twenty_five :
  win_rate {| config := default_config; active_commitments := [];
              total_committed := 25; total_revealed := 25; total_verified := 7 |}
  = inl (SpecFloat.S754_finite false 7881299347898369 (-48)).
Proof. vm_compute. reflexivity. Qed.

Example quotient_too_large :
  int_true_div (10 ^ 400) 1 = inr OverflowError /\
  int_true_div (2 ^ 1024 - 2 ^ 970) 1 = inr OverflowError /\
  int_true_div (2 ^ 1024 - 2 ^ 970 - 1) 1
    = inl (SpecFloat.S754_finite false 9007199254740991 971).
Proof. repeat split; vm_compute; reflexivity. Qed.

(** Quotients of [int]s of any size are rounded once, to nearest and
    to even on a tie, down to the subnormal floats:
    [(2 ** 53 + 1) / 1 = 9007199254740992.0],
    [(2 ** 54 + 6) / 1 = 1.801439850948199e+16],
    [10 ** 400 / 10 ** 399 = 10.0], [1 / 2 ** 1075 = 0.0],
    [3 / 2 ** 1075 = 1e-323] and [-1 / 3 = -0.3333333333333333]. *)
Example quotients_round_to_even :
  int_true_div (2 ^ 53 + 1) 1
    = inl (SpecFloat.S754_finite false 4503599627370496 1) /\
  int_true_div (2 ^ 54 + 6) 1
    = inl (SpecFloat.S754_finite false 4503599627370498 2) /\
  int_true_div (10 ^ 400) (10 ^ 399)
    = inl (SpecFloat.S754_finite false 5629499534213120 (-49)) /\
  int_true_div 1 (2 ^ 1075) = inl (SpecFloat.S754_zero false) /\
  int_true_div 3 (2 ^ 1075) = inl (SpecFloat.S754_finite false 2 (-1074)) /\
  int_true_div (-1) 3 = inl (SpecFloat.S754_finite true 6004799503160661 (-54)).
Proof. repeat split; vm_compute; reflexivity. Qed.

Example hundred_is_exact :
  float_of_int 100 = SpecFloat.S754_finite false 7036874417766400 (-46) /\
  float_value (float_of_int 100) = Some (100 # 1).
Proof. split; vm_compute; reflexivity. Qed.

Lemma div_eucl_pair (a b : Z) : Z.div_eucl a b = (a / b, a mod b).
Proof. unfold Z.div, Z.modulo. destruct (Z.div_eucl a b). reflexivity. Qed.

Lemma new_location_exact (n : Z) :
  SpecFloat.new_location n 0 = SpecFloat.loc_Exact.
Proof.
  unfold SpecFloat.new_location, SpecFloat.new_location_even,
    SpecFloat.new_location_odd.
  destruct (Z.even n); reflexivity.
Qed.

(** [n / n] is [1.0], whatever the size of [n]. *)
Lemma int_true_div_same (n : Z) :
  0 < n ->
  int_true_div n n = inl (SpecFloat.S754_finite false 4503599627370496 (-52)).
Proof.
  intro Hpos. unfold int_true_div.
  destruct (n =? 0) eqn:E; [lia |].
  destruct n as [| p | p]; try lia.
  cbn [exact_int SpecFloat.SFdiv]. unfold SpecFloat.SFdiv_core_binary.
  cbv zeta.
  replace (SpecFloat.Zdigits2 (Z.pos p) + 0 - (SpecFloat.Zdigits2 (Z.pos p) + 0))
    with 0 by lia.
  change (Z.min (SpecFloat.fexp 53 1024 0) (0 - 0)) with (-53).
  change (0 - 0 - -53) with 53.
  cbv iota. rewrite div_eucl_pair.
  rewrite Z.shiftl_mul_pow2 by lia.
  rewrite (Z.mul_comm (Z.pos p)), Z_div_mult by lia.
  rewrite Z_mod_mult, new_location_exact.
  vm_compute. reflexivity.
Qed.

(** [0 / n] is [0.0]. *)
Lemma int_true_div_zero (n : Z) :
  0 < n -> int_true_div 0 n = inl (SpecFloat.S754_zero false).
Proof.
  intro Hpos. unfold int_true_div.
  destruct (n =? 0) eqn:E; [lia |].
  destruct n as [| p | p]; try lia. reflexivity.
Qed.

Lemma int_true_div_raises (a b : Z) (e : pyexn) :
  b <> 0 -> int_true_div a b = inr e -> e = OverflowError.
Proof.
  intros Hb. unfold int_true_div.
  destruct (b =? 0) eqn:E; [lia |].
  destruct (SpecFloat.SFdiv 53 1024 (exact_int a) (exact_int b));
    intro H; congruence.
Qed.

Lemma win_rate_of_none (self : GhostAgent) :
  total_verified self = 0 -> win_rate self = inl (SpecFloat.S754_zero false).
Proof.
  intro Hzero. unfold win_rate. rewrite Hzero.
  destruct (total_revealed self >? 0) eqn:E; [| reflexivity].
  rewrite int_true_div_zero by lia. reflexivity.
Qed.

(** C7, as the code has it. [get_stats] leaves the agent as it is,
    also when it raises, and the dict it returns copies the counters.
    With no reveal counted it returns the float [0.0] for [win_rate]
    and raises nothing. With [total_revealed > 0] its [win_rate] is the
    percentage [total_verified / total_revealed * 100] in binary64
    arithmetic, the quotient rounded and then the product: [0.0] when
    nothing is verified and [100.0] when everything is; the one
    exception it can raise is the [OverflowError] of a quotient beyond
    the largest float. *)
Theorem get_stats_reads (self : GhostAgent) :
  snd (get_stats self) = self /\
  (forall stats, fst (get_stats self) = inl stats ->
     stats_name stats = name (config self) /\
     stats_total_committed stats = total_committed self /\
     stats_total_revealed stats = total_revealed self /\
     stats_total_verified stats = total_verified self /\
     stats_active_commitments stats
       = Z.of_nat (List.length (active_commitments self))) /\
  (total_revealed self <= 0 ->
     exists stats, fst (get_stats self) = inl stats /\
                   stats_win_rate stats = SpecFloat.S754_zero false) /\
  (total_revealed self > 0 ->
     match int_true_div (total_verified self) (total_revealed self) with
     | inl ratio =>
         exists stats, fst (get_stats self) = inl stats /\
                       stats_win_rate stats = float_mul ratio (float_of_int 100)
     | inr e => e = OverflowError /\ fst (get_stats self) = inr OverflowError
     end) /\
  (total_revealed self > 0 -> total_verified self = 0 ->
     exists stats, fst (get_stats self) = inl stats /\
                   stats_win_rate stats = SpecFloat.S754_zero false) /\
  (total_revealed self > 0 -> total_verified self = total_revealed self ->
     exists stats, fst (get_stats self) = inl stats /\
                   stats_win_rate stats = float_of_int 100).
Proof.
  unfold get_stats. cbn [fst snd].
  split; [reflexivity |]. split; [| split; [| split; [| split]]].
  - intros stats H. destruct (win_rate self); [| discriminate].
    injection H as <-. repeat split.
  - intro Hzero. unfold win_rate.
    destruct (total_revealed self >? 0) eqn:E; [lia |].
    eexists. split; reflexivity.
  - intro Hpos. unfold win_rate.
    destruct (total_revealed self >? 0) eqn:E; [| lia].
    destruct (int_true_div (total_verified self) (total_revealed self))
      as [ratio | e] eqn:D.
    + eexists. split; reflexivity.
    + apply int_true_div_raises in D; [| lia]. subst e. split; reflexivity.
  - intros Hpos Hnone. rewrite (win_rate_of_none self Hnone).
    eexists. split; reflexivity.
  - intros Hpos Hall. unfold win_rate.
    destruct (total_revealed self >? 0) eqn:E; [| lia].
    rewrite Hall, int_true_div_same by lia.
    eexists. split; [reflexivity |]. vm_compute. reflexivity.
Qed.

Lemma get_stats_reads_witness :
  total_revealed Scenario.half_verified > 0 /\
  exists stats,
    fst (get_stats Scenario.half_verified) = inl stats /\
    float_value (stats_win_rate stats) = Some (50 # 1).
Proof.
  assert (Hpos : total_revealed Scenario.half_verified > 0) by reflexivity.
  split; [exact Hpos |].
  destruct (get_stats_reads Scenario.half_verified)
    as (_ & _ & _ & Hrate & _).
  specialize (Hrate Hpos).
  change (int_true_div (total_verified Scenario.half_verified)
            (total_revealed Scenario.half_verified))
    with (@inl float64 pyexn (SpecFloat.S754_finite false 4503599627370496 (-53)))
    in Hrate.
  destruct Hrate as (stats & Hstats & Hwin).
  exists stats. split; [exact Hstats |]. rewrite Hwin. vm_compute. reflexivity.
Defined.

(** C7 as stated fails: with one reveal verified out of two, [win_rate]
    is the float 50.0, not the ratio one half. *)
Lemma win_rate_is_a_percentage :
  total_revealed Scenario.half_verified > 0 /\
  int_true_div (total_verified Scenario.half_verified)
               (total_revealed Scenario.half_verified)
    = inl (SpecFloat.S754_finite false 4503599627370496 (-53)) /\
  float_value (SpecFloat.S754_finite false 4503599627370496 (-53)) = Some (1 # 2) /\
  exists stats,
    fst (get_stats Scenario.half_verified) = inl stats /\
    stats_win_rate stats = SpecFloat.S754_finite false 7036874417766400 (-47) /\
    float_value (stats_win_rate stats) = Some (50 # 1) /\
    stats_win_rate stats <> SpecFloat.S754_finite false 4503599627370496 (-53).
Proof.
  split; [reflexivity |]. split; [vm_compute; reflexivity |].
  split; [vm_compute; reflexivity |].
  eexists. split; [vm_compute; reflexivity |].
  cbn [stats_win_rate]. split; [reflexivity |].
  split; [vm_compute; reflexivity | discriminate].
Qed.

(** No call on the agent counts a verification: from a fresh agent
    [total_verified] stays zero, and so does [win_rate]. *)
Lemma perform_all_never_verifies (calls : list call) :
  forall self,
    total_verified (perform_all calls self) = total_verified self.
Proof.
  induction calls as [| [env | now client] calls IH]; intro self; simpl.
  - reflexivity.
  - rewrite IH. destruct (run_cycle env self) as [out self'] eqn:E. simpl.
    apply run_cycle_inv in E. tauto.
  - rewrite IH. destruct (process_reveals now client self) as [[e log] self'] eqn:E.
    simpl. apply process_reveals_spec in E. tauto.
Qed.

End Statistics.

(** ** The theorems on concrete runs *)

Section Runs_examples.
Import Py Agent.

(** Two submits with room for one: the second is turned away. *)
Lemma capacity_invariant_witness :
  let calls := [RunCycle (Scenario.cycle_with (Scenario.ledger_names "c-1") 0)] in
  let self := perform_all calls (init Scenario.one_slot) in
  0 <= max_active_commitments Scenario.one_slot /\
  List.length (active_commitments self) = 1%nat /\
  run_cycle (Scenario.cycle_with (Scenario.ledger_names "c-2") 1) self
    = (SkippedAtCapacity, self).
Proof.
  intros calls self.
  assert (Hmax : 0 <= max_active_commitments Scenario.one_slot)
    by (simpl; lia).
  destruct (capacity_invariant Scenario.one_slot calls) as (Hle & Hfull & _).
  specialize (Hle Hmax).
  split; [exact Hmax | split; [vm_compute; reflexivity |]].
  apply Hfull. vm_compute. discriminate.
Defined.


Lemma reveals_in_commit_order_witness :
  let calls := [ RunCycle (Scenario.cycle_with (Scenario.ledger_names "c-1") 0);
                 RunCycle (Scenario.cycle_with (Scenario.ledger_names "c-2") 5) ] in
  let log := snd (fst (process_reveals 100 Scenario.reveal_verifies
                         (perform_all calls (init default_config)))) in
  StronglySorted Z.le (cycle_clock calls) /\
  map fst log =
  [ Scenario.commitment_of (PStr "c-1") 0; Scenario.commitment_of (PStr "c-2") 5 ] /\
  StronglySorted earlier_reveal (map fst log).
Proof.
  intros calls log.
  assert (Hclock : StronglySorted Z.le (cycle_clock calls)).
  { simpl. repeat constructor. lia. }
  split; [exact Hclock |].
  pose proof (reveals_in_commit_order default_config calls 100
                Scenario.reveal_verifies) as H.
  cbv zeta in H. unfold log.
  destruct (process_reveals 100 Scenario.reveal_verifies
              (perform_all calls (init default_config))) as [[e l] self'].
  destruct H as [H Hsorted]. cbn [fst snd].
  split; [rewrite H; vm_compute; reflexivity | exact (proj1 (Hsorted Hclock))].
Defined.

(** C8 as stated fails: two commitments made at the same clock reading
    are due together; the ledger named the first ["b"] and the second
    ["a"], and ["b"] is revealed first. *)
Lemma ties_are_not_broken_by_id :
  let calls := [ RunCycle (Scenario.cycle_with (Scenario.ledger_names "b") 0);
                 RunCycle (Scenario.cycle_with (Scenario.ledger_names "a") 0) ] in
  let self := perform_all calls (init default_config) in
  map (fun entry => (reveal_after (fst entry), commitment_id (fst entry)))
      (snd (fst (process_reveals 100 Scenario.reveal_verifies self)))
  = [ (60, PStr "b"); (60, PStr "a") ] /\
  String.ltb "a" "b" = true.
Proof. split; vm_compute; reflexivity. Qed.

End Runs_examples.

(** ** More concrete runs *)

Section More_examples.
Import Py Agent.

(** The digest of the fixture, as [hashlib] computes it. *)
Example fixture_digest :
  CommitReveal.create_commitment EmptyString Scenario.eth_signal (Some Scenario.salt_hex) =
  ("54b70d421af3e831ffbf4b6237a2ab69dba1f7c5f28c9f2b58071475ac6262cf",
   Scenario.salt_hex).
Proof. vm_compute. reflexivity. Qed.

Lemma counters_follow_client_witness :
  let commit_client :=
    MidnightClient.commit_signal 0 MidnightClient.OtherRequestError in
  let reveal_client := Scenario.reveal_fails 0 in
  let self := init default_config in
  (exists e, commit_client "00" 100 = MidnightClient.Raised e) /\
  (exists e, reveal_client (PStr "c-1") Scenario.buy_signal Scenario.salt_hex
             = MidnightClient.Raised e) /\
  submit_commitment commit_client "00" 100 self = (PNone, self) /\
  reveal_signal reveal_client (PStr "c-1") Scenario.buy_signal Scenario.salt_hex self
    = (PNone, self).
Proof.
  intros commit_client reveal_client self.
  assert (Hc : exists e, commit_client "00" 100 = MidnightClient.Raised e)
    by (exists RequestException; reflexivity).
  assert (Hr : exists e, reveal_client (PStr "c-1") Scenario.buy_signal
                           Scenario.salt_hex = MidnightClient.Raised e)
    by (exists RequestException; reflexivity).
  destruct (counters_follow_client commit_client reveal_client "00" 100
              (PStr "c-1") Scenario.buy_signal Scenario.salt_hex self)
    as (_ & _ & Hsubmit & _ & _ & _ & Hreveal).
  split; [exact Hc | split; [exact Hr | split; [exact (Hsubmit (or_introl Hc)) | exact (Hreveal Hr)]]].
Defined.

(** With no reveal delay: a commitment named ["X"] is made, the next
    [process_reveals] at the same clock reading reveals it, one reveal is
    counted and nothing stays active. *)
Example commit_then_reveal :
  let self := perform_all [RunCycle (Scenario.cycle_with (Scenario.ledger_names "X") 0)]
                          (init Scenario.no_delay) in
  let '(e, log, self') := process_reveals 0 Scenario.reveal_verifies self in
  map commitment_id (active_commitments self) = [PStr "X"] /\
  map (fun entry => commitment_id (fst entry)) log = [PStr "X"] /\
  active_commitments self' = [] /\
  option_map stats_total_revealed
    (match fst (get_stats self') with inl stats => Some stats | inr _ => None end)
    = Some 1.
Proof. vm_compute. repeat split. Qed.

End More_examples.

(** * Further properties *)

(** ** [commit_reveal.py] *)

Section CommitRevealMore.
Import Py.

Lemma hex_digit_lower (n : Z) : Charset.lower_hex (Text.hex_digit n) = true.
Proof.
  destruct n as [| p | p]; try reflexivity.
  do 4 (try destruct p as [p | p |]); reflexivity.
Qed.

Lemma hex_fixed_lower (width : nat) (n : Z) :
  Charset.all_chars Charset.lower_hex (Text.hex_fixed width n) = true.
Proof.
  induction width as [| w IH]; simpl; [reflexivity |].
  rewrite hex_digit_lower, IH. reflexivity.
Qed.

Lemma all_chars_append (p : ascii -> bool) (s t : string) :
  Charset.all_chars p (s ++ t)%string =
  Charset.all_chars p s && Charset.all_chars p t.
Proof.
  induction s as [| c s IH]; simpl; [reflexivity |].
  rewrite IH, andb_assoc. reflexivity.
Qed.

Lemma hexdigest_lower (msg : list Z) :
  Charset.all_chars Charset.lower_hex (Sha256.hexdigest msg) = true.
Proof.
  unfold Sha256.hexdigest. cbv zeta.
  rewrite !all_chars_append, !hex_fixed_lower. reflexivity.
Qed.

(** X1. The commitment that [create_commitment] and [hash_signal] return
    is a text of 64 characters, each of them a digit or a letter from
    [a] to [f]. *)
Theorem commitment_is_lowercase_hex (urandom_hex : string) (signal : dict)
    (salt : option string) (s : string) :
  let commitment := fst (CommitReveal.create_commitment urandom_hex signal salt) in
  String.length commitment = 64%nat /\
  Charset.all_chars Charset.lower_hex commitment = true /\
  String.length (CommitReveal.hash_signal signal s) = 64%nat /\
  Charset.all_chars Charset.lower_hex (CommitReveal.hash_signal signal s) = true.
Proof.
  unfold CommitReveal.create_commitment, CommitReveal.hash_signal. simpl fst.
  repeat split; first [apply hexdigest_length | apply hexdigest_lower].
Qed.

(** X2. What [create_commitment] returns verifies: with the salt it
    returns (the one passed, or the fresh one when none is passed),
    [verify_commitment] accepts the commitment for the same signal, and
    the commitment is what [hash_signal] computes. *)
Theorem commitment_round_trip (urandom_hex : string) (signal : dict)
    (salt : option string) :
  let '(commitment, used) :=
    CommitReveal.create_commitment urandom_hex signal salt in
  used = match salt with Some given => given | None => urandom_hex end /\
  commitment = CommitReveal.hash_signal signal used /\
  CommitReveal.verify_commitment commitment signal used = true.
Proof.
  unfold CommitReveal.create_commitment. cbv zeta.
  split; [reflexivity | split; [reflexivity |]].
  apply verify_commitment_iff. reflexivity.
Qed.

(** X3. A reveal may list the fields of the signal in another order:
    [verify_commitment] accepts the commitment made of a signal for any
    reordering of that signal, at any depth, with the same salt. *)
Theorem reordered_reveal_verifies (urandom_hex : string) (signal revealed : dict)
    (salt : string) :
  distinct_keys (PDict signal) = true ->
  reordered (PDict signal) (PDict revealed) ->
  CommitReveal.verify_commitment
    (fst (CommitReveal.create_commitment urandom_hex signal (Some salt)))
    revealed salt = true.
Proof.
  intros Hd Hr. apply verify_commitment_iff.
  unfold CommitReveal.hash_signal, CommitReveal.payload,
    CommitReveal.create_commitment. cbv zeta. cbn [fst].
  rewrite (dumps_reordered (PDict signal) (PDict revealed) Hr Hd). reflexivity.
Qed.

Lemma reordered_reveal_verifies_witness :
  let committed := [ ("pair", PStr "BTC/USD"); ("direction", PStr "buy") ] in
  let revealed := [ ("direction", PStr "buy"); ("pair", PStr "BTC/USD") ] in
  distinct_keys (PDict committed) = true /\
  reordered (PDict committed) (PDict revealed) /\
  CommitReveal.verify_commitment
    (fst (CommitReveal.create_commitment EmptyString committed
            (Some Scenario.salt_hex)))
    revealed Scenario.salt_hex = true.
Proof.
  intros committed revealed.
  assert (Hr : reordered (PDict committed) (PDict revealed)).
  { apply reordered_dict with (renewed := committed).
    - repeat constructor.
    - apply perm_swap. }
  split; [reflexivity | split; [exact Hr |]].
  exact (reordered_reveal_verifies EmptyString committed revealed
           Scenario.salt_hex eq_refl Hr).
Defined.

End CommitRevealMore.

(** ** Tampering with a reveal (C4) *)

Section Pigeonhole.
Context {A B : Type}.
Variable eq_dec : forall x y : B, {x = y} + {x <> y}.
Variable f : A -> B.

Lemma collision_or_distinct (l : list A) :
  NoDup l ->
  (exists x y, In x l /\ In y l /\ x <> y /\ f x = f y) \/ NoDup (map f l).
Proof.
  induction 1 as [| a l Hfresh Hnd IH]; [right; constructor |].
  destruct IH as [(x & y & Hx & Hy & Hne & Heq) | Hmap].
  - left. exists x, y. simpl. auto.
  - destruct (in_dec eq_dec (f a) (map f l)) as [Hin | Hout].
    + left. apply in_map_iff in Hin as (y & Heq & Hy).
      exists a, y. simpl. repeat split; auto.
      intros ->. contradiction.
    + right. simpl. constructor; assumption.
Qed.

(** More arguments than results: two arguments share a result. *)
Lemma pigeonhole (dom : list A) (cod : list B) :
  NoDup dom ->
  (forall x, In x dom -> In (f x) cod) ->
  (List.length cod < List.length dom)%nat ->
  exists x y, In x dom /\ In y dom /\ x <> y /\ f x = f y.
Proof.
  intros Hnd Hin Hlen.
  destruct (collision_or_distinct dom Hnd) as [H | Hmap]; [exact H |].
  exfalso.
  assert (Hle : (List.length (map f dom) <= List.length cod)%nat).
  { apply NoDup_incl_length; [exact Hmap |].
    intros y Hy. apply in_map_iff in Hy as (x & <- & Hx). auto. }
  rewrite length_map in Hle. lia.
Qed.

End Pigeonhole.

Section Tampering.
Import Py.

Lemma length_flat_map_const {A B : Type} (f : A -> list B) (n : nat) (l : list A) :
  (forall x, List.length (f x) = n) ->
  List.length (flat_map f l) = (List.length l * n)%nat.
Proof.
  intro H. induction l as [| x l IH]; simpl; [reflexivity |].
  rewrite length_app, H, IH. reflexivity.
Qed.

Lemma length_texts (alphabet : list ascii) (n : nat) :
  Z.of_nat (List.length (Counting.texts alphabet n))
  = Z.of_nat (List.length alphabet) ^ Z.of_nat n.
Proof.
  induction n as [| n IH].
  - reflexivity.
  - cbn [Counting.texts].
    rewrite (length_flat_map_const _ (List.length (Counting.texts alphabet n)))
      by (intro c; apply length_map).
    rewrite Nat2Z.inj_mul, IH, Nat2Z.inj_succ, Z.pow_succ_r by lia.
    reflexivity.
Qed.

Lemma in_texts (alphabet : list ascii) (s : string) :
  (forall c, In c (list_ascii_of_string s) -> In c alphabet) ->
  In s (Counting.texts alphabet (String.length s)).
Proof.
  induction s as [| c s IH]; intro H; cbn [String.length Counting.texts].
  - left. reflexivity.
  - apply in_flat_map. exists c. split.
    + apply H. left. reflexivity.
    + apply in_map. apply IH. intros c' Hc'. apply H. right. exact Hc'.
Qed.

Lemma texts_chars (alphabet : list ascii) (n : nat) (s : string) :
  In s (Counting.texts alphabet n) ->
  forall c, In c (list_ascii_of_string s) -> In c alphabet.
Proof.
  revert s. induction n as [| n IH]; intros s; cbn [Counting.texts].
  - intros [<- | []]. intros c [].
  - intro H. apply in_flat_map in H as (c & Hc & Hs).
    apply in_map_iff in Hs as (t & <- & Ht).
    intros c' [<- | Hc']; [exact Hc | exact (IH t Ht c' Hc')].
Qed.

Lemma nodup_map_injective {A B : Type} (g : A -> B) (l : list A) :
  (forall x y, g x = g y -> x = y) -> NoDup l -> NoDup (map g l).
Proof.
  intros Hinj. induction 1 as [| a l Hfresh Hnd IH]; simpl; constructor; auto.
  intro Hin. apply in_map_iff in Hin as (y & E & Hy).
  apply Hinj in E. subst y. contradiction.
Qed.

Lemma nodup_texts (alphabet : list ascii) (n : nat) :
  NoDup alphabet -> NoDup (Counting.texts alphabet n).
Proof.
  intro Hnd. induction n as [| n IH]; cbn [Counting.texts].
  - constructor; [intros [] | constructor].
  - assert (Hgen : forall letters, NoDup letters ->
              NoDup (flat_map (fun c => map (String c) (Counting.texts alphabet n))
                              letters)).
    { induction 1 as [| c letters Hfresh Hrest IHl]; cbn [flat_map]; [constructor |].
      apply NoDup_app.
      - apply nodup_map_injective; [| exact IH].
        intros x y E. now injection E.
      - exact IHl.
      - intros s Hs Hs'. apply in_map_iff in Hs as (t & <- & _).
        apply in_flat_map in Hs' as (c' & Hc' & Hs').
        apply in_map_iff in Hs' as (t' & E & _). injection E as -> _.
        contradiction. }
    apply Hgen, Hnd.
Qed.

Lemma lower_hex_in (c : ascii) :
  Charset.lower_hex c = true -> In c Counting.hex_alphabet.
Proof.
  destruct c as [[] [] [] [] [] [] [] []]; vm_compute; intro H;
    first [discriminate H | tauto].
Qed.

Lemma all_chars_in (p : ascii -> bool) (s : string) :
  Charset.all_chars p s = true ->
  forall c, In c (list_ascii_of_string s) -> p c = true.
Proof.
  induction s as [| a s IH]; simpl; intros H c; [intros [] |].
  apply andb_prop in H as [Ha Hs]. intros [<- | Hc]; auto.
Qed.

(** A digest is one of the 16 ^ 64 texts of 64 hexadecimal digits. *)
Lemma digest_in_texts (msg : list Z) :
  In (Sha256.hexdigest msg) (Counting.texts Counting.hex_alphabet 64).
Proof.
  rewrite <- (hexdigest_length msg). apply in_texts.
  intros c Hc. apply lower_hex_in.
  exact (all_chars_in _ _ (hexdigest_lower msg) c Hc).
Qed.

(** There are more texts of 257 bits than digests. *)
Lemma fewer_digests :
  (List.length (Counting.texts Counting.hex_alphabet 64)
   < List.length (Counting.texts Counting.bit_alphabet 257))%nat.
Proof.
  apply Nat2Z.inj_lt. rewrite !length_texts. vm_compute. reflexivity.
Qed.

Lemma nodup_bits : NoDup Counting.bit_alphabet.
Proof.
  constructor; [intros [H | []]; discriminate H |].
  constructor; [intros [] | constructor].
Qed.

(** Whatever is hashed together with a text of 257 bits, two of these
    texts give one digest. *)
Lemma bits_collide (f : string -> list Z) :
  exists x y,
    In x (Counting.texts Counting.bit_alphabet 257) /\
    In y (Counting.texts Counting.bit_alphabet 257) /\
    x <> y /\ Sha256.hexdigest (f x) = Sha256.hexdigest (f y).
Proof.
  apply (pigeonhole string_dec (fun x => Sha256.hexdigest (f x))
           (Counting.texts Counting.bit_alphabet 257)
           (Counting.texts Counting.hex_alphabet 64)).
  - apply nodup_texts, nodup_bits.
  - intros x _. apply digest_in_texts.
  - exact fewer_digests.
Qed.

Lemma escape_bits (n : nat) (x : string) :
  In x (Counting.texts Counting.bit_alphabet n) -> Json.escape x = x.
Proof.
  revert x. induction n as [| n IH]; intros x; cbn [Counting.texts].
  - intros [<- | []]. reflexivity.
  - intro H. apply in_flat_map in H as (c & Hc & Hx).
    apply in_map_iff in Hx as (t & <- & Ht).
    cbn [Json.escape]. rewrite (IH t Ht).
    destruct Hc as [<- | [<- | []]]; reflexivity.
Qed.

Lemma dumps_note (x : string) :
  Json.dumps (PDict (Counting.note x)) =
  ("{" ++ Json.quote "note" ++ ": " ++ Json.quote x ++ "}")%string.
Proof. reflexivity. Qed.

Lemma dumps_note_inj (n : nat) (x y : string) :
  In x (Counting.texts Counting.bit_alphabet n) ->
  In y (Counting.texts Counting.bit_alphabet n) ->
  Json.dumps (PDict (Counting.note x)) = Json.dumps (PDict (Counting.note y)) ->
  x = y.
Proof.
  intros Hx Hy. rewrite !dumps_note. unfold Json.quote at 2 4.
  rewrite (escape_bits n x Hx), (escape_bits n y Hy).
  intro H.
  apply append_cancel_l in H. apply append_cancel_l in H.
  apply append_cancel_l in H. apply append_cancel_r in H.
  apply append_cancel_l in H. apply append_cancel_r in H. exact H.
Qed.

(** C4, as the code has it. [verify_commitment] accepts the originating
    decision and salt and rejects them with any other digest. With
    another salt, or with another decision whose canonical text
    differs, it returns false unless the two texts that are hashed are a
    collision of SHA-256; a changed decision with the same canonical
    text is accepted. *)
Theorem verify_commitment_recomputes (urandom_hex : string) (d : dict)
    (s : string) :
  let digest := fst (CommitReveal.create_commitment urandom_hex d (Some s)) in
  CommitReveal.verify_commitment digest d s = true /\
  (forall digest', digest' <> digest ->
     CommitReveal.verify_commitment digest' d s = false) /\
  (forall s', s' <> s ->
     CommitReveal.verify_commitment digest d s' = false \/
     CommitReveal.collision (Text.utf8 (CommitReveal.payload d s'))
                            (Text.utf8 (CommitReveal.payload d s))) /\
  (forall d', Json.dumps (PDict d') <> Json.dumps (PDict d) ->
     CommitReveal.verify_commitment digest d' s = false \/
     CommitReveal.collision (Text.utf8 (CommitReveal.payload d' s))
                            (Text.utf8 (CommitReveal.payload d s))) /\
  (forall d', Json.dumps (PDict d') = Json.dumps (PDict d) ->
     CommitReveal.verify_commitment digest d' s = true).
Proof.
  intro digest. subst digest. rewrite create_commitment_digest. simpl fst.
  split; [| split; [| split; [| split]]].
  - apply verify_commitment_iff. reflexivity.
  - intros digest' Hne.
    destruct (CommitReveal.verify_commitment digest' d s) eqn:E; [| reflexivity].
    apply verify_commitment_iff in E. congruence.
  - intros s' Hne.
    destruct (CommitReveal.verify_commitment (CommitReveal.hash_signal d s) d s')
      eqn:E; [right | left; reflexivity].
    apply verify_commitment_iff in E. split; [| exact E].
    intro H. apply utf8_inj in H. unfold CommitReveal.payload in H.
    apply append_cancel_l in H. contradiction.
  - intros d' Hne.
    destruct (CommitReveal.verify_commitment (CommitReveal.hash_signal d s) d' s)
      eqn:E; [right | left; reflexivity].
    apply verify_commitment_iff in E. split; [| exact E].
    intro H. apply utf8_inj in H. unfold CommitReveal.payload in H.
    apply append_cancel_r in H. contradiction.
  - intros d' E. apply verify_commitment_iff.
    unfold CommitReveal.hash_signal, CommitReveal.payload. now rewrite E.
Qed.

(** The fixture of the test suite under three forgeries: another
    digest, another salt and another direction are all rejected. *)
Lemma verify_commitment_recomputes_witness :
  let digest :=
    fst (CommitReveal.create_commitment EmptyString Scenario.eth_signal
           (Some Scenario.salt_hex)) in
  let forged :=
    "0000000000000000000000000000000000000000000000000000000000000000" in
  let sold := [ ("direction", PStr "sell"); ("pair", PStr "ETH/USD");
                ("confidence", PFloat (FFinite (7 # 10) "0.7")) ] in
  forged <> digest /\
  CommitReveal.verify_commitment forged Scenario.eth_signal Scenario.salt_hex = false /\
  CommitReveal.verify_commitment digest Scenario.eth_signal Scenario.salt_hex = true /\
  CommitReveal.verify_commitment digest Scenario.eth_signal Scenario.other_salt_hex
    = false /\
  CommitReveal.verify_commitment digest sold Scenario.salt_hex = false.
Proof.
  intros digest forged sold.
  destruct (verify_commitment_recomputes EmptyString Scenario.eth_signal Scenario.salt_hex)
    as (Hsame & Hother & Hsalt & Hdecision & _).
  assert (Hne : forged <> digest) by (vm_compute; discriminate).
  split; [exact Hne | split; [exact (Hother forged Hne) | split; [exact Hsame |]]].
  split.
  - destruct (Hsalt Scenario.other_salt_hex) as [H | [_ H]];
      [vm_compute; discriminate | exact H |].
    exfalso. vm_compute in H. discriminate H.
  - destruct (Hdecision sold) as [H | [_ H]];
      [vm_compute; discriminate | exact H |].
    exfalso. vm_compute in H. discriminate H.
Defined.

(** C4 as stated fails, in three ways. A list replaced by the tuple of
    the same items is a mutation of one field that [verify_commitment]
    accepts, since both are written alike. And a digest has 256 bits:
    among the salts that are texts of 257 characters [0] or [1], two
    give the same digest for the fixture, and the one is accepted for
    the commitment made with the other; likewise among the decisions
    with one field holding such a text, whose canonical texts all
    differ. *)
Lemma verify_commitment_accepts_mutation :
  (let salt := "deadbeefdeadbeefdeadbeefdeadbeefdeadbeefdeadbeefdeadbeefdeadbeef" in
   let d := [ ("direction", PStr "buy");
              ("pair", PList [PStr "ETH"; PStr "USD"]) ] in
   let d' := [ ("direction", PStr "buy");
               ("pair", PTuple [PStr "ETH"; PStr "USD"]) ] in
   mutates_one_field d d' /\
   CommitReveal.verify_commitment
     (fst (CommitReveal.create_commitment EmptyString d (Some salt))) d' salt = true) /\
  (exists s s',
     In s (Counting.texts Counting.bit_alphabet 257) /\
     In s' (Counting.texts Counting.bit_alphabet 257) /\
     s' <> s /\
     CommitReveal.verify_commitment
       (fst (CommitReveal.create_commitment EmptyString Scenario.eth_signal (Some s)))
       Scenario.eth_signal s' = true) /\
  (exists x x',
     In x (Counting.texts Counting.bit_alphabet 257) /\
     In x' (Counting.texts Counting.bit_alphabet 257) /\
     mutates_one_field (Counting.note x) (Counting.note x') /\
     Json.dumps (PDict (Counting.note x')) <> Json.dumps (PDict (Counting.note x)) /\
     CommitReveal.verify_commitment
       (fst (CommitReveal.create_commitment EmptyString (Counting.note x)
               (Some Scenario.salt_hex)))
       (Counting.note x') Scenario.salt_hex = true).
Proof.
  split; [| split].
  - intros salt d d'. split.
    + exists [("direction", PStr "buy")], "pair",
        (PList [PStr "ETH"; PStr "USD"]), (PTuple [PStr "ETH"; PStr "USD"]), [].
      repeat split; discriminate.
    + vm_compute. reflexivity.
  - destruct (bits_collide
                (fun s => Text.utf8 (CommitReveal.payload Scenario.eth_signal s)))
      as (s & s' & Hs & Hs' & Hne & Heq).
    exists s, s'. split; [exact Hs | split; [exact Hs' | split; [congruence |]]].
    rewrite create_commitment_digest. cbn [fst].
    apply verify_commitment_iff. unfold CommitReveal.hash_signal.
    cbv beta in Heq. symmetry. exact Heq.
  - destruct (bits_collide
                (fun x => Text.utf8 (CommitReveal.payload (Counting.note x)
                                       Scenario.salt_hex)))
      as (x & y & Hx & Hy & Hne & Heq).
    exists x, y. split; [exact Hx | split; [exact Hy | split; [| split]]].
    + exists [], "note", (PStr x), (PStr y), []. repeat split. congruence.
    + intro H. apply Hne. symmetry. exact (dumps_note_inj _ _ _ Hy Hx H).
    + rewrite create_commitment_digest. cbn [fst].
      apply verify_commitment_iff. unfold CommitReveal.hash_signal.
      cbv beta in Heq. symmetry. exact Heq.
Qed.

End Tampering.

(** ** [ghost_agent.py]: what a run keeps *)

Section AgentMore.
Import Py Agent.

Lemma list_remove_length (c : ActiveCommitment) (l l' : list ActiveCommitment) :
  list_remove c l = Some l' -> List.length l = S (List.length l').
Proof.
  intro H. apply list_remove_splits in H as (before & after & -> & ->).
  rewrite !length_app. simpl. lia.
Qed.

(** Every successful reveal takes one record off the active list. *)
Lemma reveal_loop_length client (ready : list ActiveCommitment) :
  forall k self e log self',
    (forall x, (occurrences x ready <= occurrences x (active_commitments self))%nat) ->
    reveal_loop client k ready self = (e, log, self') ->
    List.length (active_commitments self) =
    (List.length (filter succeeded log) + List.length (active_commitments self'))%nat.
Proof.
  induction ready as [| c rest IH]; intros k self e log self' Hocc H.
  - simpl in H. injection H as <- <- <-. reflexivity.
  - cbn [reveal_loop] in H.
    destruct (reveal_signal (client k) (commitment_id c) (signal c) (salt c) self)
      as [result self1] eqn:Hcall.
    assert (Hsame : active_commitments self1 = active_commitments self).
    { unfold reveal_signal in Hcall.
      destruct (client k (commitment_id c) (signal c) (salt c));
        injection Hcall as <- <-; reflexivity. }
    destruct (is_not_none result) eqn:Hres.
    + destruct (list_remove_present c (active_commitments self1)) as [remaining Hrem].
      { rewrite Hsame. specialize (Hocc c).
        rewrite occurrences_cons, commitment_eqb_refl in Hocc.
        unfold unit_if in Hocc. lia. }
      rewrite Hrem in H.
      destruct (reveal_loop client (S k) rest (set_active remaining self1))
        as [[e1 log1] s1] eqn:Hloop.
      injection H as <- <- <-.
      apply IH in Hloop.
      * cbn [set_active active_commitments filter List.length] in *.
        unfold succeeded at 1. cbn [snd]. rewrite Hres. cbn [List.length].
        rewrite <- Hsame, (list_remove_length _ _ _ Hrem), Hloop. reflexivity.
      * intro x. cbn [set_active active_commitments].
        specialize (Hocc x). rewrite <- Hsame in Hocc.
        rewrite occurrences_cons, (list_remove_occurrences _ _ _ Hrem x) in Hocc.
        lia.
    + destruct (reveal_loop client (S k) rest self1) as [[e1 log1] s1] eqn:Hloop.
      injection H as <- <- <-.
      apply IH in Hloop.
      * cbn [filter]. unfold succeeded at 1. cbn [snd]. rewrite Hres.
        rewrite <- Hsame. exact Hloop.
      * intro x. rewrite Hsame. specialize (Hocc x).
        rewrite occurrences_cons in Hocc. lia.
Qed.

Lemma process_reveals_length now client self e log self' :
  process_reveals now client self = (e, log, self') ->
  List.length (active_commitments self) =
  (List.length (filter succeeded log) + List.length (active_commitments self'))%nat.
Proof.
  unfold process_reveals. apply reveal_loop_length.
  intro x. rewrite occurrences_ready. destruct (is_ready now x); lia.
Qed.

Lemma run_cycle_consistent (env : cycle_env) (self : GhostAgent)
    (c : ActiveCommitment) (self' : GhostAgent) :
  run_cycle env self = (Committed c, self') -> Loop.consistent (config self) c.
Proof.
  intro E. apply run_cycle_inv in E as (_ & _ & _ & Hout).
  destruct Hout as (_ & _ & _ & Hat & Hafter & Hstake & _ & Hhash & Hid & _).
  unfold Loop.consistent. repeat split; try assumption.
  - rewrite Hafter, Hat. reflexivity.
  - apply verify_commitment_iff.
    unfold create_commitment, CommitReveal.create_commitment in Hhash.
    injection Hhash as -> ->. reflexivity.
Qed.

Lemma perform_all_consistent (calls : list call) :
  forall self,
    Forall (Loop.consistent (config self)) (active_commitments self) ->
    Forall (Loop.consistent (config self))
           (active_commitments (perform_all calls self)).
Proof.
  induction calls as [| [env | now client] calls IH]; intros self Hall; simpl.
  - exact Hall.
  - destruct (run_cycle env self) as [out self'] eqn:E. simpl.
    pose proof (run_cycle_inv _ _ _ _ E) as (Hcfg & _ & _ & Hout).
    rewrite <- Hcfg. apply IH. rewrite Hcfg.
    destruct out as [| | | c | ex].
    + destruct Hout as [_ ->]. exact Hall.
    + subst. exact Hall.
    + destruct Hout as [-> _]. exact Hall.
    + pose proof (run_cycle_consistent _ _ _ _ E) as Hc.
      destruct Hout as (_ & -> & _). rewrite Forall_app. split; [exact Hall |].
      constructor; [exact Hc | constructor].
    + subst. exact Hall.
  - destruct (process_reveals_deletes
                (Forall (Loop.consistent (config self)))
                (forall_deletes _) now client self Hall) as [Hkept Hcfg].
    rewrite <- Hcfg. apply IH. rewrite Hcfg. exact Hkept.
Qed.

(** X4. Whatever calls a fresh agent has served, every record of its
    active list has [reveal_after = committed_at + reveal_delay], the
    configured stake, an id that is not [None], and a hash that
    [verify_commitment] accepts for the stored signal and salt; and every
    commitment that a [process_reveals] hands to the client's
    [reveal_signal] is such a record. *)
Theorem committed_records_are_consistent (cfg : AgentConfig)
    (calls : list call) (now : Z)
    (client : nat -> value -> dict -> string -> MidnightClient.outcome) :
  let self := perform_all calls (init cfg) in
  Forall (Loop.consistent cfg) (active_commitments self) /\
  Forall (fun entry => Loop.consistent cfg (fst entry) /\
                       In (fst entry) (active_commitments self))
         (snd (fst (process_reveals now client self))).
Proof.
  intro self.
  assert (Hall : Forall (Loop.consistent cfg) (active_commitments self)).
  { apply (perform_all_consistent calls (init cfg)). constructor. }
  split; [exact Hall |].
  destruct (process_reveals now client self) as [[e log] self'] eqn:E.
  apply process_reveals_spec in E as (_ & Hlog & _). cbn [fst snd].
  pose proof (reveal_calls_commitments client 0
                (filter (is_ready now) (active_commitments self))) as Hmap.
  rewrite <- Hlog in Hmap.
  rewrite Forall_forall in *. intros entry Hentry.
  assert (Hin : In (fst entry) (active_commitments self)).
  { apply (in_map fst) in Hentry. rewrite Hmap in Hentry.
    apply filter_In in Hentry. tauto. }
  split; [apply Hall, Hin | exact Hin].
Qed.

Lemma perform_all_counters (calls : list call) :
  forall self,
    0 <= total_revealed self ->
    Z.of_nat (List.length (active_commitments self)) <= total_committed self ->
    let self' := perform_all calls self in
    total_revealed self <= total_revealed self' /\
    total_committed self <= total_committed self' /\
    Z.of_nat (List.length (active_commitments self')) <= total_committed self'.
Proof.
  induction calls as [| [env | now client] calls IH]; intros self Hpos Hsum; simpl.
  - lia.
  - destruct (run_cycle env self) as [out self1] eqn:E. simpl.
    pose proof (run_cycle_inv _ _ _ _ E) as (_ & Hrev & _ & Hout).
    assert (Hstep : total_committed self <= total_committed self1 /\
                    Z.of_nat (List.length (active_commitments self1))
                      <= total_committed self1).
    { destruct out as [| | | c | ex].
      - destruct Hout as [_ ->]. lia.
      - subst. lia.
      - destruct Hout as [-> [(e & _ & ->) | [(result & _ & _ & ->) | (reply & _ & _ & ->)]]];
          lia.
      - destruct Hout as (_ & -> & -> & _). rewrite length_app. simpl. lia.
      - subst. lia. }
    destruct (IH self1) as (H1 & H2 & H3); [lia | tauto |]. lia.
  - destruct (process_reveals now client self) as [[e log] self1] eqn:E. simpl.
    pose proof (process_reveals_length _ _ _ _ _ _ E) as Hlen.
    apply process_reveals_spec in E as (_ & _ & _ & _ & Hcom & _ & Hrev).
    destruct (IH self1) as (H1 & H2 & H3); lia.
Qed.

(** With reveals that are answered, what is counted as revealed is no
    longer active. *)
Lemma perform_all_counters_sum (calls : list call) :
  forall self,
    Forall Loop.answers_reveals (Loop.reveals_of calls) ->
    Z.of_nat (List.length (active_commitments self)) + total_revealed self
      <= total_committed self ->
    let self' := perform_all calls self in
    Z.of_nat (List.length (active_commitments self')) + total_revealed self'
      <= total_committed self'.
Proof.
  induction calls as [| [env | now client] calls IH]; intros self Hans Hsum; simpl.
  - exact Hsum.
  - destruct (run_cycle env self) as [out self1] eqn:E. simpl.
    pose proof (run_cycle_inv _ _ _ _ E) as (_ & Hrev & _ & Hout).
    apply IH; [exact Hans |]. rewrite Hrev.
    destruct out as [| | | c | ex].
    + destruct Hout as [_ ->]. lia.
    + subst. lia.
    + destruct Hout as [-> [(e & _ & ->) | [(result & _ & _ & ->) | (reply & _ & _ & ->)]]];
        lia.
    + destruct Hout as (_ & -> & -> & _). rewrite length_app. simpl. lia.
    + subst. lia.
  - simpl in Hans. inversion Hans as [| ? ? Hclient Hrest]; subst.
    destruct (process_reveals now client self) as [[e log] self1] eqn:E. simpl.
    pose proof (process_reveals_length _ _ _ _ _ _ E) as Hlen.
    apply process_reveals_spec in E as (_ & Hlog & _ & _ & Hcom & _ & Hrev).
    rewrite (returned_calls_succeeded client _ Hclient), <- Hlog in Hrev.
    apply IH; [exact Hrest | lia].
Qed.

(** X5. Whatever calls a fresh agent has served, no counter is negative
    and the records still active are at most the commits counted; when
    the ledger never answers a reveal with [null], the records still
    active and the reveals counted are together at most the commits
    counted. *)
Theorem counters_add_up (cfg : AgentConfig) (calls : list call) :
  let self := perform_all calls (init cfg) in
  0 <= total_revealed self /\
  0 <= total_committed self /\
  Z.of_nat (List.length (active_commitments self)) <= total_committed self /\
  (Forall Loop.answers_reveals (Loop.reveals_of calls) ->
   Z.of_nat (List.length (active_commitments self)) + total_revealed self
     <= total_committed self).
Proof.
  intro self.
  destruct (perform_all_counters calls (init cfg)) as (H1 & H2 & H3);
    simpl; try lia.
  fold self in H1, H2, H3. simpl in H1, H2.
  split; [lia | split; [lia | split; [exact H3 |]]].
  intro Hans.
  apply (perform_all_counters_sum calls (init cfg) Hans). simpl. lia.
Qed.

Lemma counters_add_up_witness :
  let calls := [ RunCycle (Scenario.cycle_with (Scenario.ledger_names "c-1") 0);
                 ProcessReveals 100 Scenario.reveal_verifies ] in
  let self := perform_all calls (init default_config) in
  Forall Loop.answers_reveals (Loop.reveals_of calls) /\
  Z.of_nat (List.length (active_commitments self)) + total_revealed self
    <= total_committed self.
Proof.
  intros calls self.
  assert (Hans : Forall Loop.answers_reveals (Loop.reveals_of calls)).
  { repeat constructor. intros k id sig s H. discriminate H. }
  split; [exact Hans |].
  exact (proj2 (proj2 (proj2 (counters_add_up default_config calls))) Hans).
Defined.

(** X6. The agent never counts a verification: whatever the ledger
    answers to its reveals, after any calls on a fresh agent [get_stats]
    raises nothing and reports [total_verified = 0] and a [win_rate] of
    [0.0]. *)
Theorem fresh_agent_never_verifies (cfg : AgentConfig) (calls : list call) :
  exists stats,
    fst (get_stats (perform_all calls (init cfg))) = inl stats /\
    stats_total_verified stats = 0 /\
    stats_win_rate stats = SpecFloat.S754_zero false /\
    float_value (stats_win_rate stats) = Some 0%Q.
Proof.
  assert (Hzero : total_verified (perform_all calls (init cfg)) = 0)
    by (rewrite perform_all_never_verifies; reflexivity).
  unfold get_stats. cbn [fst].
  rewrite (win_rate_of_none _ Hzero).
  eexists. split; [reflexivity |].
  cbn [stats_total_verified stats_win_rate].
  split; [exact Hzero | split; reflexivity].
Qed.

End AgentMore.

Section CountersExact.
Import Py Agent.

Lemma perform_all_counters_exact (calls : list call) :
  forall self,
    Forall Loop.names_its_commits (Loop.cycles_of calls) ->
    Forall Loop.answers_reveals (Loop.reveals_of calls) ->
    Z.of_nat (List.length (active_commitments self)) + total_revealed self
      = total_committed self ->
    let self' := perform_all calls self in
    Z.of_nat (List.length (active_commitments self')) + total_revealed self'
      = total_committed self'.
Proof.
  induction calls as [| [env | now client] calls IH];
    intros self Hnames Hans Hsum; simpl.
  - exact Hsum.
  - simpl in Hnames, Hans. inversion Hnames as [| ? ? Hname Hrest]; subst.
    destruct (run_cycle env self) as [out self1] eqn:E. simpl.
    pose proof (run_cycle_inv _ _ _ _ E) as (_ & Hrev & _ & Hout).
    apply IH; [exact Hrest | exact Hans |]. rewrite Hrev.
    destruct out as [| | | c | ex].
    + destruct Hout as [_ ->]. exact Hsum.
    + subst. exact Hsum.
    + destruct Hout as [Hact [(e & _ & ->) | [(result & Hcall & Hid & _) | (reply & _ & _ & ->)]]];
        [exact Hsum | | exact Hsum].
      exfalso. exact (Hname _ _ _ Hcall Hid).
    + destruct Hout as (_ & -> & -> & _). rewrite length_app. simpl. lia.
    + subst. exact Hsum.
  - simpl in Hnames, Hans. inversion Hans as [| ? ? Hclient Hrest]; subst.
    destruct (process_reveals now client self) as [[e log] self1] eqn:E. simpl.
    pose proof (process_reveals_length _ _ _ _ _ _ E) as Hlen.
    apply process_reveals_spec in E as (_ & Hlog & _ & _ & Hcom & _ & Hrev).
    rewrite (returned_calls_succeeded client _ Hclient), <- Hlog in Hrev.
    apply IH; [exact Hnames | exact Hrest | lia].
Qed.

(** X7. When the ledger never answers a commit with a null id nor a
    reveal with [null], the counters of a fresh agent balance after any
    calls: the commits counted are the records still active plus the
    reveals counted. *)
Theorem counters_balance (cfg : AgentConfig) (calls : list call) :
  Forall Loop.names_its_commits (Loop.cycles_of calls) ->
  Forall Loop.answers_reveals (Loop.reveals_of calls) ->
  let self := perform_all calls (init cfg) in
  total_committed self =
  Z.of_nat (List.length (active_commitments self)) + total_revealed self.
Proof.
  intros Hnames Hans self. symmetry.
  apply (perform_all_counters_exact calls (init cfg) Hnames Hans). reflexivity.
Qed.

Lemma counters_balance_witness :
  let calls := [ RunCycle (Scenario.cycle_with (Scenario.ledger_names "c-1") 0);
                 ProcessReveals 100 Scenario.reveal_verifies;
                 RunCycle (Scenario.cycle_with (Scenario.ledger_names "c-2") 100) ] in
  let self := perform_all calls (init default_config) in
  Forall Loop.names_its_commits (Loop.cycles_of calls) /\
  Forall Loop.answers_reveals (Loop.reveals_of calls) /\
  total_committed self = 2 /\
  Z.of_nat (List.length (active_commitments self)) + total_revealed self = 2.
Proof.
  intros calls self.
  assert (Hnames : Forall Loop.names_its_commits (Loop.cycles_of calls)).
  { repeat constructor; intros h amount result H; injection H as <-; discriminate. }
  assert (Hans : Forall Loop.answers_reveals (Loop.reveals_of calls)).
  { repeat constructor. intros k id sig s H. discriminate H. }
  pose proof (counters_balance default_config calls Hnames Hans) as Hbal.
  cbv zeta in Hbal. fold self in Hbal.
  assert (Hcom : total_committed self = 2) by (vm_compute; reflexivity).
  split; [exact Hnames | split; [exact Hans | split; [exact Hcom |]]].
  rewrite <- Hbal. exact Hcom.
Defined.

End CountersExact.

(** ** The agent over the real client *)

Section Offline.
Import Py Agent.

(** Deleting ready items only. *)
Lemma reveal_loop_deletes_ready (Q : ActiveCommitment -> Prop)
    (P : list ActiveCommitment -> Prop) :
  (forall before c after, Q c -> P (before ++ c :: after) -> P (before ++ after)) ->
  forall ready client k self,
    Forall Q ready ->
    P (active_commitments self) ->
    P (active_commitments (snd (reveal_loop client k ready self))).
Proof.
  intros Hdel ready. induction ready as [| c rest IH]; intros client k self HQ HP.
  - exact HP.
  - inversion HQ as [| ? ? Hc Hrest]; subst.
    cbn [reveal_loop]. unfold reveal_signal.
    destruct (client k (commitment_id c) (signal c) (salt c)) as [result | exn].
    + destruct (is_not_none result).
      * cbn [active_commitments].
        destruct (list_remove c (active_commitments self)) as [remaining |] eqn:Hrem.
        -- match goal with
           | |- context [reveal_loop client (S k) rest ?s] =>
               pose proof (IH client (S k) s Hrest) as Hnext;
               destruct (reveal_loop client (S k) rest s) as [[e1 log1] s1]
           end.
           cbn [snd] in *. apply Hnext. cbn [set_active active_commitments].
           apply list_remove_splits in Hrem as (b & a & Hb & ->).
           apply (Hdel b c a Hc). rewrite <- Hb. exact HP.
        -- exact HP.
      * match goal with
        | |- context [reveal_loop client (S k) rest ?s] =>
            pose proof (IH client (S k) s Hrest) as Hnext;
            destruct (reveal_loop client (S k) rest s) as [[e1 log1] s1]
        end.
        cbn [snd] in *. apply Hnext. exact HP.
    + cbn [is_not_none].
      pose proof (IH client (S k) self Hrest HP) as Hnext.
      destruct (reveal_loop client (S k) rest self) as [[e1 log1] s1].
      exact Hnext.
Qed.

Lemma filter_all (A : Type) (p : A -> bool) (l : list A) :
  (forall x, In x l -> p x = true) -> filter p l = l.
Proof.
  induction l as [| x l IH]; simpl; intro H; [reflexivity |].
  rewrite (H x (or_introl eq_refl)). f_equal. apply IH. auto.
Qed.

Lemma occurrences_positive (c : ActiveCommitment) (l : list ActiveCommitment) :
  In c l -> (0 < occurrences c l)%nat.
Proof.
  induction l as [| x l IH]; [intros [] | intros [-> | Hin]].
  - rewrite occurrences_cons, commitment_eqb_refl. simpl. lia.
  - rewrite occurrences_cons. specialize (IH Hin). lia.
Qed.

(** The counts of one call of [process_reveals], for a commitment. *)
Lemma process_reveals_counts now client self e log self' c :
  process_reveals now client self = (e, log, self') ->
  attempts c log =
    (if is_ready now c then occurrences c (active_commitments self) else 0%nat) /\
  occurrences c (active_commitments self') =
    (if is_ready now c then failures c log
     else occurrences c (active_commitments self)).
Proof.
  intro E. apply process_reveals_spec in E as (_ & Hlog & Hact & _).
  assert (Hatt : attempts c log =
                 if is_ready now c then occurrences c (active_commitments self)
                 else 0%nat).
  { unfold attempts. rewrite Hlog, reveal_calls_commitments.
    apply occurrences_ready. }
  split; [exact Hatt |].
  pose proof (attempts_split c log). specialize (Hact c).
  destruct (is_ready now c); lia.
Qed.

Lemma reveal_calls_succeed client k ready :
  (forall j id sig s,
     exists r, client j id sig s = MidnightClient.Returned r /\
               is_not_none r = true) ->
  filter succeeded (reveal_calls client k ready) = reveal_calls client k ready.
Proof.
  intro Hret. revert k. induction ready as [| c rest IH]; intro k; simpl;
    [reflexivity |].
  destruct (Hret k (commitment_id c) (signal c) (salt c)) as (r & -> & Hr).
  unfold succeeded at 1. cbn [snd]. rewrite Hr. now rewrite IH.
Qed.

Lemma reveal_over_returns (net : nat -> MidnightClient.transport) :
  (forall k, net k <> MidnightClient.OtherRequestError) ->
  (forall k, net k <> MidnightClient.Responded PNone) ->
  forall j id sig s,
    exists r, Loop.reveal_over net j id sig s = MidnightClient.Returned r /\
              is_not_none r = true.
Proof.
  intros Hnet Hnull j id sig s. unfold Loop.reveal_over, MidnightClient.reveal_signal.
  specialize (Hnet j). specialize (Hnull j).
  destruct (net j) as [body | |]; [| eauto | contradiction].
  exists body. split; [reflexivity |]. destruct body; try reflexivity.
  contradiction.
Qed.

(** X8. Over a transport that answers, with anything but [null], or
    cannot connect, but never fails otherwise, [process_reveals] drops
    every commitment that is due - the active list keeps the others, in
    their order - and counts each as revealed; a connection error counts
    like an answer, with the offline reply whose ["verified"] is [False],
    so that commitment is never retried. *)
Theorem offline_reveal_drops_commitment (now : Z)
    (net : nat -> MidnightClient.transport) (self : GhostAgent) :
  (forall k, net k <> MidnightClient.OtherRequestError) ->
  (forall k, net k <> MidnightClient.Responded PNone) ->
  let '(e, log, self') := process_reveals now (Loop.reveal_over net) self in
  active_commitments self' =
    filter (Loop.not_ready now) (active_commitments self) /\
  total_revealed self' =
    total_revealed self
    + Z.of_nat (List.length (filter (is_ready now) (active_commitments self))) /\
  (forall k id sig s,
     net k = MidnightClient.ConnectionError ->
     exists result,
       Loop.reveal_over net k id sig s = MidnightClient.Returned (PDict result) /\
       dict_get result "verified" = Some (PBool false)).
Proof.
  intros Hnet Hnull.
  destruct (process_reveals now (Loop.reveal_over net) self) as [[e log] self'] eqn:E.
  pose proof (reveal_over_returns net Hnet Hnull) as Hret.
  pose proof (process_reveals_spec _ _ _ _ _ _ E) as (_ & Hlog & _ & _ & _ & _ & Hrev).
  assert (Hsucc : filter succeeded log = log)
    by (rewrite Hlog; apply reveal_calls_succeed, Hret).
  assert (Hans : Loop.answers_reveals (Loop.reveal_over net)).
  { intros k id sig s H. destruct (Hret k id sig s) as (r & Hr & Hnot).
    rewrite Hr in H. injection H as ->. discriminate Hnot. }
  split; [| split].
  - assert (Hkept : filter (Loop.not_ready now) (active_commitments self') =
                    filter (Loop.not_ready now) (active_commitments self)).
    { pose proof (reveal_loop_deletes_ready
                    (fun c => is_ready now c = true)
                    (fun l => filter (Loop.not_ready now) l =
                              filter (Loop.not_ready now) (active_commitments self)))
        as Hdel.
      unfold process_reveals in E.
      specialize (Hdel) with (ready := filter (is_ready now) (active_commitments self))
                             (client := Loop.reveal_over net) (k := 0%nat) (self := self).
      rewrite E in Hdel. apply Hdel.
      - intros b c a Hc. rewrite !filter_app. simpl.
        unfold Loop.not_ready at 2. rewrite Hc. simpl. auto.
      - apply Forall_forall. intros c Hc. apply filter_In in Hc. tauto.
      - reflexivity. }
    rewrite <- Hkept. symmetry. apply filter_all.
    intros c Hin. unfold Loop.not_ready.
    destruct (is_ready now c) eqn:R; [| reflexivity]. exfalso.
    pose proof (proj2 (process_reveals_counts _ _ _ _ _ _ c E)) as Hocc.
    rewrite R in Hocc. unfold failures in Hocc.
    assert (Hnone : filter (fun entry => negb (succeeded entry)) log = []).
    { rewrite <- Hsucc. clear. induction log as [| x l IH]; simpl; [reflexivity |].
      destruct (succeeded x) eqn:S; simpl; [rewrite S; simpl; exact IH | exact IH]. }
    rewrite Hnone in Hocc. simpl in Hocc.
    pose proof (occurrences_positive c _ Hin). unfold occurrences in *.
    simpl in Hocc. lia.
  - rewrite Hrev, (returned_calls_succeeded _ _ Hans), <- Hlog, Hsucc, Hlog.
    rewrite <- (reveal_calls_commitments (Loop.reveal_over net) 0
                  (filter (is_ready now) (active_commitments self))) at 2.
    rewrite length_map. reflexivity.
  - intros k id sig s Hk. unfold Loop.reveal_over. rewrite Hk. simpl.
    eexists. split; reflexivity.
Qed.

Lemma offline_reveal_drops_commitment_witness :
  let early := Scenario.commitment_of (PStr "c-1") 0 in
  let late := Scenario.commitment_of (PStr "c-2") 50 in
  let self := set_active [early; late] (init default_config) in
  let net := fun _ : nat => MidnightClient.ConnectionError in
  (forall k, net k <> MidnightClient.OtherRequestError) /\
  (forall k, net k <> MidnightClient.Responded PNone) /\
  active_commitments (snd (process_reveals 100 (Loop.reveal_over net) self)) = [late] /\
  total_revealed (snd (process_reveals 100 (Loop.reveal_over net) self)) = 1.
Proof.
  intros early late self net.
  assert (Hnet : forall k, net k <> MidnightClient.OtherRequestError)
    by (intros k; discriminate).
  assert (Hnull : forall k, net k <> MidnightClient.Responded PNone)
    by (intros k; discriminate).
  pose proof (offline_reveal_drops_commitment 100 net self Hnet Hnull) as H.
  destruct (process_reveals 100 (Loop.reveal_over net) self) as [[e log] self'].
  destruct H as (Hact & Hrev & _). cbn [snd].
  split; [exact Hnet | split; [exact Hnull | split]].
  - rewrite Hact. vm_compute. reflexivity.
  - rewrite Hrev. vm_compute. reflexivity.
Defined.

(** X9. An offline commit is named after the clock: when the transport
    cannot connect, the id of the record that [run_cycle] creates is the
    decimal text of the client's clock reading, so two commits made at the
    same reading carry the same id. *)
Theorem offline_ids_follow_the_clock (env1 env2 : cycle_env)
    (self1 self2 : GhostAgent) (c1 c2 : ActiveCommitment)
    (after1 after2 : GhostAgent) (t : Z) :
  env_commit_signal env1 =
    MidnightClient.commit_signal t MidnightClient.ConnectionError ->
  env_commit_signal env2 =
    MidnightClient.commit_signal t MidnightClient.ConnectionError ->
  run_cycle env1 self1 = (Committed c1, after1) ->
  run_cycle env2 self2 = (Committed c2, after2) ->
  commitment_id c1 = PStr (Text.str_of_int t) /\
  commitment_id c2 = commitment_id c1.
Proof.
  intros H1 H2 E1 E2.
  assert (Hid : forall env self c after,
             env_commit_signal env =
               MidnightClient.commit_signal t MidnightClient.ConnectionError ->
             run_cycle env self = (Committed c, after) ->
             commitment_id c = PStr (Text.str_of_int t)).
  { intros env self c after Henv E.
    apply run_cycle_inv in E as (_ & _ & _ & Hout).
    destruct Hout as (_ & _ & _ & _ & _ & _ & _ & _ & _ & result & Hcall & Hid).
    rewrite Henv in Hcall. simpl in Hcall. injection Hcall as <-.
    exact Hid. }
  rewrite (Hid _ _ _ _ H1 E1), (Hid _ _ _ _ H2 E2). auto.
Qed.

Lemma offline_ids_follow_the_clock_witness :
  let offline := MidnightClient.commit_signal 1700000000 MidnightClient.ConnectionError in
  let env1 := Scenario.cycle_with offline 1700000000 in
  let env2 := Scenario.cycle_with offline 1700000001 in
  let self1 := init default_config in
  let self2 := snd (run_cycle env1 self1) in
  exists c1 c2 after2,
    run_cycle env1 self1 = (Committed c1, self2) /\
    run_cycle env2 self2 = (Committed c2, after2) /\
    commitment_id c2 = commitment_id c1.
Proof.
  intros offline env1 env2 self1 self2.
  assert (E1 : run_cycle env1 self1 =
               (Committed (Scenario.commitment_of (PStr "1700000000") 1700000000), self2))
    by (vm_compute; reflexivity).
  destruct (run_cycle env2 self2) as [out after2] eqn:E2.
  assert (Hout : out = Committed (Scenario.commitment_of (PStr "1700000000") 1700000001)).
  { assert (H : fst (run_cycle env2 self2) =
                Committed (Scenario.commitment_of (PStr "1700000000") 1700000001))
      by (vm_compute; reflexivity).
    rewrite E2 in H. exact H. }
  subst out.
  exists (Scenario.commitment_of (PStr "1700000000") 1700000000),
         (Scenario.commitment_of (PStr "1700000000") 1700000001), after2.
  split; [exact E1 | split; [reflexivity |]].
  exact (proj2 (offline_ids_follow_the_clock env1 env2 self1 self2 _ _ _ _
                  1700000000 eq_refl eq_refl E1 E2)).
Defined.

End Offline.

(** ** [ghost_agent.py]: the checks of a cycle, retries and the loop *)

Section Gates.
Import Py Agent.

Lemma generate_signal_fields (analysis : dict) :
  forallb (Loop.has_field analysis) Loop.logged_fields = true ->
  generate_signal analysis = inl analysis.
Proof.
  unfold Loop.logged_fields, Loop.has_field, generate_signal. simpl.
  destruct (dict_get analysis "direction"), (dict_get analysis "pair"),
    (dict_get analysis "target_price"), (dict_get analysis "confidence");
    simpl; intro H; try discriminate; reflexivity.
Qed.

Lemma generate_signal_missing (analysis : dict) :
  forallb (Loop.has_field analysis) Loop.logged_fields = false ->
  generate_signal analysis = inr KeyError.
Proof.
  unfold Loop.logged_fields, Loop.has_field, generate_signal. simpl.
  destruct (dict_get analysis "direction"), (dict_get analysis "pair"),
    (dict_get analysis "target_price"), (dict_get analysis "confidence");
    simpl; intro H; try discriminate; reflexivity.
Qed.

(** X10. The checks of [run_cycle], in their order, below the capacity
    limit: a signal that lacks one of the four logged fields raises
    [KeyError]; a confidence that is not a number raises [TypeError]; an
    integer confidence below [min_confidence] is skipped; in all three the
    agent is left as it was. A confidence equal to [min_confidence] or
    above goes on to the client: the cycle ends committed or with a
    failed submit. *)
Theorem run_cycle_checks (env : cycle_env) (self : GhostAgent) :
  Z.of_nat (List.length (active_commitments self))
    < max_active_commitments (config self) ->
  (forallb (Loop.has_field (env_analysis env)) Loop.logged_fields = false ->
   run_cycle env self = (CycleRaised KeyError, self)) /\
  (forall confidence,
     forallb (Loop.has_field (env_analysis env)) Loop.logged_fields = true ->
     dict_get (env_analysis env) "confidence" = Some confidence ->
     (lt_int confidence (min_confidence (config self)) = None ->
      run_cycle env self = (CycleRaised TypeError, self)) /\
     (forall n, confidence = PInt n -> n < min_confidence (config self) ->
      run_cycle env self = (SkippedLowConfidence, self)) /\
     (forall n, confidence = PInt n -> min_confidence (config self) <= n ->
      (exists c, fst (run_cycle env self) = Committed c) \/
      fst (run_cycle env self) = SubmitFailed)).
Proof.
  intro Hroom.
  assert (Hcap : (Z.of_nat (List.length (active_commitments self))
                    >=? max_active_commitments (config self)) = false) by lia.
  split.
  - intro Hmiss. unfold run_cycle. rewrite Hcap.
    rewrite (generate_signal_missing _ Hmiss). reflexivity.
  - intros confidence Hall Hconf. unfold run_cycle. rewrite Hcap.
    rewrite (generate_signal_fields _ Hall), Hconf.
    split; [| split].
    + intros ->. reflexivity.
    + intros n -> Hlow. simpl.
      destruct (n <? min_confidence (config self)) eqn:L; [reflexivity | lia].
    + intros n -> Hhigh. simpl.
      destruct (n <? min_confidence (config self)) eqn:L; [lia |].
      cbv beta iota zeta delta [create_commitment CommitReveal.create_commitment].
      destruct (submit_commitment (env_commit_signal env) _ _ self) as [id self1].
      destruct id; simpl; eauto.
Qed.

Lemma run_cycle_checks_witness :
  let incomplete := [ ("direction", PStr "BUY"); ("confidence", PInt 80) ] in
  let env := {| env_analysis := incomplete;
                env_urandom_hex := Scenario.salt_hex;
                env_commit_signal := Scenario.ledger_names "c-1";
                env_now := 0 |} in
  let self := init default_config in
  Z.of_nat (List.length (active_commitments self))
    < max_active_commitments (config self) /\
  forallb (Loop.has_field (env_analysis env)) Loop.logged_fields = false /\
  run_cycle env self = (CycleRaised KeyError, self).
Proof.
  intros incomplete env self.
  assert (Hroom : Z.of_nat (List.length (active_commitments self))
                    < max_active_commitments (config self)) by reflexivity.
  assert (Hmiss : forallb (Loop.has_field (env_analysis env)) Loop.logged_fields
                  = false) by reflexivity.
  split; [exact Hroom | split; [exact Hmiss |]].
  exact (proj1 (run_cycle_checks env self Hroom) Hmiss).
Defined.

(** X11. A failed reveal is tried again: in two successive calls of
    [process_reveals], the second not earlier than the first, on an
    agent whose active records have pairwise distinct salts, a
    commitment that was due in the first is attempted in the second as
    many times as its reveal failed in the first: once if it failed, and
    not at all if it succeeded. *)
Theorem failed_reveals_are_retried (now1 now2 : Z)
    (client1 client2 : nat -> value -> dict -> string -> MidnightClient.outcome)
    (self : GhostAgent) (c : ActiveCommitment) :
  NoDup (map salt (active_commitments self)) ->
  now1 <= now2 ->
  reveal_after c <= now1 ->
  let '(_, log1, self1) := process_reveals now1 client1 self in
  let '(_, log2, _) := process_reveals now2 client2 self1 in
  (attempts c log2 = failures c log1 /\
   attempts c log2 <= 1)%nat.
Proof.
  intros Hsalts Hlater Hdue.
  pose proof (process_reveals_deletes (fun l => NoDup (map salt l))
                distinct_salts_deletes now1 client1 self Hsalts) as [Hkept _].
  destruct (process_reveals now1 client1 self) as [[e1 log1] self1] eqn:E1.
  destruct (process_reveals now2 client2 self1) as [[e2 log2] self2] eqn:E2.
  pose proof (proj2 (process_reveals_counts _ _ _ _ _ _ c E1)) as H1.
  pose proof (proj1 (process_reveals_counts _ _ _ _ _ _ c E2)) as H2.
  cbn [snd] in Hkept.
  unfold is_ready in *.
  destruct (now1 >=? reveal_after c) eqn:R1; [| lia].
  destruct (now2 >=? reveal_after c) eqn:R2; [| lia].
  split; [congruence |].
  rewrite H2.
  destruct (in_dec (fun a b => Bool.reflect_dec _ _ (iff_reflect _ _ (iff_sym (commitment_eqb_eq a b))))
              c (active_commitments self1)) as [Hin | Hout].
  - rewrite (occurrences_distinct c _ Hkept Hin). lia.
  - apply occurrences_absent in Hout. lia.
Qed.

Lemma failed_reveals_are_retried_witness :
  let early := Scenario.commitment_of (PStr "c-1") 0 in
  let self := set_active [early] (init default_config) in
  let first := process_reveals 100 Scenario.reveal_fails self in
  let second := process_reveals 200 Scenario.reveal_fails (snd first) in
  100 <= 200 /\ reveal_after early <= 100 /\
  failures early (snd (fst first)) = 1%nat /\
  attempts early (snd (fst second)) = 1%nat.
Proof.
  intros early self first second.
  assert (Hlater : 100 <= 200) by lia.
  assert (Hdue : reveal_after early <= 100) by (vm_compute; discriminate).
  assert (Hsalts : NoDup (map salt (active_commitments self)))
    by (cbn; repeat constructor; intros []).
  pose proof (failed_reveals_are_retried 100 200 Scenario.reveal_fails
                Scenario.reveal_fails self early Hsalts Hlater Hdue) as H.
  assert (Hfail : failures early (snd (fst first)) = 1%nat)
    by (vm_compute; reflexivity).
  split; [exact Hlater | split; [exact Hdue | split; [exact Hfail |]]].
  unfold second, first in *.
  destruct (process_reveals 100 Scenario.reveal_fails self) as [[e1 log1] self1].
  cbn [fst snd] in *.
  destruct (process_reveals 200 Scenario.reveal_fails self1) as [[e2 log2] self2].
  cbn [fst snd]. rewrite (proj1 H). exact Hfail.
Defined.

(** X12. The reveals come first in a pass so that they free room: after
    a [process_reveals] in which some reveal succeeded on an agent within
    its limit, the [run_cycle] that follows is not skipped for capacity. *)
Theorem reveals_free_capacity (now : Z)
    (client : nat -> value -> dict -> string -> MidnightClient.outcome)
    (self : GhostAgent) (env : cycle_env) :
  Z.of_nat (List.length (active_commitments self))
    <= max_active_commitments (config self) ->
  let '(_, log, self1) := process_reveals now client self in
  existsb succeeded log = true ->
  fst (run_cycle env self1) <> SkippedAtCapacity.
Proof.
  intro Hwithin.
  destruct (process_reveals now client self) as [[e log] self1] eqn:E.
  intro Hsome.
  pose proof (process_reveals_length _ _ _ _ _ _ E) as Hlen.
  apply process_reveals_spec in E as (_ & _ & _ & Hcfg & _).
  assert (Hpos : (0 < List.length (filter succeeded log))%nat).
  { apply existsb_exists in Hsome as (entry & Hin & Hs).
    assert (In entry (filter succeeded log)) by (apply filter_In; auto).
    destruct (filter succeeded log); [contradiction | simpl; lia]. }
  destruct (run_cycle env self1) as [out self2] eqn:E2. simpl.
  intros ->. apply run_cycle_inv in E2 as (_ & _ & _ & Hfull & _).
  rewrite Hcfg in Hfull. lia.
Qed.

Lemma reveals_free_capacity_witness :
  let held := Scenario.commitment_of (PStr "c-1") 0 in
  let self := set_active [held] (init Scenario.one_slot) in
  let env := Scenario.cycle_with (Scenario.ledger_names "c-2") 100 in
  let after := process_reveals 100 Scenario.reveal_verifies self in
  fst (run_cycle env self) = SkippedAtCapacity /\
  existsb succeeded (snd (fst after)) = true /\
  fst (run_cycle env (snd after)) <> SkippedAtCapacity.
Proof.
  intros held self env after.
  assert (Hwithin : Z.of_nat (List.length (active_commitments self))
                      <= max_active_commitments (config self))
    by (vm_compute; discriminate).
  pose proof (reveals_free_capacity 100 Scenario.reveal_verifies self env Hwithin) as H.
  assert (Hsome : existsb succeeded (snd (fst after)) = true)
    by (vm_compute; reflexivity).
  split; [vm_compute; reflexivity | split; [exact Hsome |]].
  unfold after in *.
  destruct (process_reveals 100 Scenario.reveal_verifies self) as [[e log] self1].
  cbn [fst snd] in *. exact (H Hsome).
Defined.

Lemma run_pairs_bounds world (pairs : list string) :
  forall k self,
    let '(e, self') := Loop.run_pairs world k pairs self in
    config self' = config self /\
    total_revealed self' = total_revealed self /\
    (List.length (active_commitments self) <= List.length (active_commitments self')
     <= List.length (active_commitments self) + List.length pairs)%nat /\
    total_committed self <= total_committed self'
      <= total_committed self + Z.of_nat (List.length pairs) /\
    (Z.of_nat (List.length (active_commitments self))
       <= max_active_commitments (config self) ->
     Z.of_nat (List.length (active_commitments self'))
       <= max_active_commitments (config self)).
Proof.
  induction pairs as [| symbol rest IH]; intros k self.
  - simpl. repeat split; lia.
  - cbn [Loop.run_pairs].
    destruct (run_cycle (world k symbol) self) as [out self1] eqn:E.
    pose proof (run_cycle_inv _ _ _ _ E) as (Hcfg & Hrev & _ & Hout).
    assert (Hstep :
      (List.length (active_commitments self) <= List.length (active_commitments self1)
       <= S (List.length (active_commitments self)))%nat /\
      total_committed self <= total_committed self1 <= total_committed self + 1 /\
      (Z.of_nat (List.length (active_commitments self))
         <= max_active_commitments (config self) ->
       Z.of_nat (List.length (active_commitments self1))
         <= max_active_commitments (config self))).
    { destruct out as [| | | c | ex].
      - destruct Hout as [_ ->]. repeat split; lia.
      - subst. repeat split; lia.
      - destruct Hout as [-> [(e & _ & ->) | [(result & _ & _ & ->) | (reply & _ & _ & ->)]]];
          repeat split; lia.
      - destruct Hout as (Hroom & -> & -> & _). rewrite length_app. simpl.
        repeat split; lia.
      - subst. repeat split; lia. }
    destruct Hstep as (Hlen & Hcom & Hcap).
    assert (Hrest := IH (S k) self1).
    destruct out as [| | | c | ex];
      try (destruct (Loop.run_pairs world (S k) rest self1) as [e self2];
           destruct Hrest as (Hcfg2 & Hrev2 & Hlen2 & Hcom2 & Hcap2);
           rewrite Hcfg in *; cbn [List.length];
           repeat split; try congruence; try lia;
           intro Hw; apply Hcap2; apply Hcap; exact Hw).
Qed.

(** X13. One pass of the loop of [run]: it leaves the configuration
    alone, adds to the active list at most one record per configured
    pair, keeps an agent that is within its capacity limit within it,
    raises [total_committed] by at most the number of pairs, and sleeps
    [signal_interval] seconds, or 30 when an exception cut it short. *)
Theorem run_pass_bounds (now : Z)
    (reveal_client : nat -> value -> dict -> string -> MidnightClient.outcome)
    (world : nat -> string -> cycle_env) (self : GhostAgent) :
  let '(e, slept, self') := Loop.run_pass now reveal_client world self in
  config self' = config self /\
  (List.length (active_commitments self')
     <= List.length (active_commitments self)
        + List.length (pairs (config self)))%nat /\
  total_committed self <= total_committed self'
    <= total_committed self + Z.of_nat (List.length (pairs (config self))) /\
  (Z.of_nat (List.length (active_commitments self))
     <= max_active_commitments (config self) ->
   Z.of_nat (List.length (active_commitments self'))
     <= max_active_commitments (config self)) /\
  slept = match e with
          | Some _ => 30
          | None => signal_interval (config self)
          end.
Proof.
  unfold Loop.run_pass.
  destruct (process_reveals now reveal_client self) as [[e log] self1] eqn:E.
  pose proof (process_reveals_length _ _ _ _ _ _ E) as Hlen.
  apply process_reveals_spec in E as (-> & _ & _ & Hcfg & Hcom & _).
  pose proof (run_pairs_bounds world (pairs (config self1)) 0 self1) as Hpairs.
  destruct (Loop.run_pairs world 0 (pairs (config self1)) self1) as [[x |] self2];
    destruct Hpairs as (Hcfg2 & _ & Hlen2 & Hcom2 & Hcap2);
    rewrite Hcfg in *; rewrite Hcfg2;
    (split; [congruence |]);
    (split; [lia |]); (split; [lia |]);
    (split; [intro Hw; apply Hcap2; lia | try reflexivity]).
Qed.

End Gates.

(** ** [midnight_client.py]: the address of the API *)

Section Addresses.
Import Endpoints.

Lemma append_slash_nonempty (prefix : string) :
  (prefix ++ String slash EmptyString)%string <> EmptyString.
Proof. destruct prefix; discriminate. Qed.

Lemma rstrip_decomposes (s : string) :
  exists n, s = (rstrip slash s ++ slashes n)%string.
Proof.
  induction s as [| a rest [n IH]].
  - exists 0%nat. reflexivity.
  - cbn [rstrip]. destruct (rstrip slash rest) as [| b kept] eqn:R.
    + simpl in IH. destruct (Ascii.eqb_spec a slash) as [-> | Hne].
      * exists (S n). simpl. now rewrite <- IH.
      * exists n. simpl. now rewrite <- IH.
    + exists n. simpl. simpl in IH. now rewrite <- IH.
Qed.

Lemma rstrip_no_trailing (s : string) :
  forall prefix, rstrip slash s <> (prefix ++ String slash EmptyString)%string.
Proof.
  induction s as [| a rest IH]; intros prefix.
  - simpl. intro H. symmetry in H. exact (append_slash_nonempty _ H).
  - cbn [rstrip]. destruct (rstrip slash rest) as [| b kept] eqn:R.
    + destruct (Ascii.eqb_spec a slash) as [-> | Hne].
      * intro H. symmetry in H. exact (append_slash_nonempty _ H).
      * destruct prefix as [| p prefix']; simpl; intro H; inversion H.
        -- contradiction.
        -- symmetry in H2. exact (append_slash_nonempty _ H2).
    + destruct prefix as [| p prefix']; simpl; intro H; inversion H.
      exact (IH prefix' H2).
Qed.

Lemma rstrip_only_slashes (n : nat) : rstrip slash (slashes n) = EmptyString.
Proof.
  induction n as [| n IH]; [reflexivity |].
  cbn [slashes rstrip]. rewrite IH. now rewrite Ascii.eqb_refl.
Qed.

Lemma rstrip_slashes (s : string) (n : nat) :
  rstrip slash (s ++ slashes n) = rstrip slash s.
Proof.
  induction s as [| a rest IH].
  - simpl. apply rstrip_only_slashes.
  - cbn [append rstrip]. now rewrite IH.
Qed.

(** X14. [__init__] keeps the address without its trailing slashes: the
    address passed is the one stored followed by slashes only, and the
    one stored does not end in a slash. *)
Theorem api_url_has_no_trailing_slash (url : string) (seconds : option Z) :
  (exists n, url = (api_url (init url seconds) ++ slashes n)%string) /\
  (forall prefix,
     api_url (init url seconds) <> (prefix ++ String slash EmptyString)%string).
Proof.
  split.
  - apply rstrip_decomposes.
  - apply rstrip_no_trailing.
Qed.

(** X15. Slashes at the end of the address change nothing: the client
    made from an address and the one made from the address followed by
    any number of slashes send their requests to the same three URLs. *)
Theorem trailing_slashes_are_ignored (url : string) (n : nat)
    (seconds : option Z) :
  let plain := init url seconds in
  let slashed := init (url ++ slashes n) seconds in
  commit_url slashed = commit_url plain /\
  reveal_url slashed = reveal_url plain /\
  stats_url slashed = stats_url plain.
Proof.
  unfold commit_url, reveal_url, stats_url, init. cbn [api_url].
  rewrite rstrip_slashes. repeat split.
Qed.

End Addresses.

(** ** [generate-demo-data.py] *)

Section Demo.
Import Py DemoData.

Lemma read_leading_zeros (k : nat) (s : string) :
  read_decimal (zeros k ++ s) = read_decimal s.
Proof.
  induction k as [| k IH]; [reflexivity |].
  unfold read_decimal in *. cbn [zeros append NilEmpty.uint_of_string].
  destruct (NilEmpty.uint_of_string (zeros k ++ s)) as [d |];
    destruct (NilEmpty.uint_of_string s) as [d' |]; simpl in *;
    try discriminate; try reflexivity.
  rewrite <- IH. reflexivity.
Qed.

Lemma read_format (i : nat) : read_decimal (format_03d i) = Some i.
Proof.
  unfold format_03d. cbv zeta. rewrite read_leading_zeros.
  unfold read_decimal, NilZero.string_of_uint.
  destruct (Nat.to_uint i) eqn:E;
    try (rewrite NilEmpty.usu; simpl; rewrite <- E;
         now rewrite Unsigned.of_to).
  simpl. f_equal. rewrite <- (Unsigned.of_to i), E. reflexivity.
Qed.

Lemma format_03d_inj (i j : nat) : format_03d i = format_03d j -> i = j.
Proof.
  intro H. pose proof (read_format i) as Hi. rewrite H, read_format in Hi.
  now inversion Hi.
Qed.

Lemma choice_in {A : Type} (seq : list A) (default : A) (i : nat) :
  seq <> [] -> In (choice seq default i) seq.
Proof.
  intro Hne. unfold choice. apply nth_In.
  apply Nat.mod_upper_bound. destruct seq; [congruence | discriminate].
Qed.

Lemma ids_nodup names picks (n start : nat) :
  NoDup (map (fun agent => dict_get agent "id")
             (map (demo_agent names picks) (seq start n))).
Proof.
  rewrite map_map. cbn [demo_agent dict_get String.eqb Ascii.eqb Bool.eqb].
  revert start. induction n as [| n IH]; intro start; [constructor |].
  cbn [seq map]. constructor; [| apply IH].
  rewrite in_map_iff. intros (j & Heq & Hin).
  apply in_seq in Hin. inversion Heq as [Hfmt].
  apply format_03d_inj in Hfmt. lia.
Qed.

(** X16. [generate_agents(count)] makes [count] profiles, none for a
    count below one, with ids that are pairwise distinct, each with a
    pair, a stake and a strategy type out of the script's tables. *)
Theorem generate_agents_profiles (names : list string)
    (picks : nat -> agent_picks) (count : Z) :
  let agents := generate_agents names picks count in
  List.length agents = Z.to_nat count /\
  NoDup (map (fun agent => dict_get agent "id") agents) /\
  Forall (fun agent =>
            exists traded amount kind,
              dict_get agent "pair" = Some (PStr traded) /\
              In traded PAIRS /\
              dict_get agent "stake" = Some (PInt amount) /\
              In amount STAKES /\
              dict_get agent "strategy_type" = Some (PStr kind) /\
              In kind STRATEGY_TYPES) agents.
Proof.
  unfold generate_agents. cbv zeta. split; [| split].
  - now rewrite length_map, length_seq.
  - apply ids_nodup.
  - apply Forall_forall. intros agent Hin.
    apply in_map_iff in Hin as (i & <- & _).
    exists (choice PAIRS EmptyString (pick_pair (picks i))),
           (choice STAKES 0 (pick_stake (picks i))),
           (choice STRATEGY_TYPES EmptyString (pick_strategy (picks i))).
    split; [reflexivity |]. split; [apply choice_in; discriminate |].
    split; [reflexivity |]. split; [apply choice_in; discriminate |].
    split; [reflexivity | apply choice_in; discriminate].
Qed.

Lemma generate_commitments_first (picks : nat -> signal_picks) (k : nat)
    (agents : list dict) :
  generate_commitments picks k agents =
    match agents with
    | [] => inl []
    | agent :: _ =>
        match dict_get agent "pair" with
        | Some _ => inr TypeError
        | None => inr KeyError
        end
    end.
Proof.
  destruct agents as [| agent rest]; [reflexivity |].
  cbn [generate_commitments]. destruct (dict_get agent "pair"); reflexivity.
Qed.

(** X17. The script cannot build its commitments: for every count of at
    least one and whatever is drawn, [generate_commitments] on the agents
    of [generate_agents] raises [TypeError], from the first agent on: the
    call of [verify_commitment] passes the tuple that
    [create_commitment] returned where the salt is expected. *)
Theorem generate_commitments_raises (names : list string)
    (apicks : nat -> agent_picks) (picks : nat -> signal_picks) (count : Z) :
  1 <= count ->
  generate_commitments picks 0 (generate_agents names apicks count)
    = inr TypeError.
Proof.
  intro Hcount. rewrite generate_commitments_first. unfold generate_agents.
  destruct (Z.to_nat count) as [| n] eqn:E; [lia |]. reflexivity.
Qed.

Lemma generate_commitments_raises_witness :
  let names := ["MomentumBot"; "MeanRevBot"] in
  let apicks := fun i => {| pick_pair := i; pick_stake := 1; pick_strategy := 2 |} in
  let picks := fun _ : nat =>
    {| pick_direction := 0;
       pick_confidence := FFinite (3 # 4) "0.75";
       pick_timestamp := "2024-01-01T00:00:00Z";
       pick_salt := Scenario.salt_hex |} in
  1 <= 5 /\
  generate_commitments picks 0 (generate_agents names apicks 5) = inr TypeError.
Proof.
  intros names apicks picks.
  split; [lia | apply (generate_commitments_raises names apicks picks 5); lia].
Defined.

End Demo.
